(** * IonTracks validation engine: schema resolution, validation and the
      two comparison protocols

    Shallow embedding of [validation/data_utils.py] and
    [validation/comparison.py].

    Modelling conventions.
    - float64 values are IEEE 754 binary64 numbers, carried by the Standard
      Library's [spec_float] with precision 53 and maximal exponent 1024;
      arithmetic is the library's round-to-nearest-even arithmetic.
    - A pandas [DataFrame] is an index (a list of integer labels) and an
      ordered list of labelled columns.  A column is either of dtype
      float64 or of object dtype (strings, with [None] for a missing
      cell), as [read_csv] produces them.  A column that [read_csv] types
      int64 or bool is carried by the float64 values of its cells: the
      comparisons, the minimum and the conversions of the code commute
      with that for integers of magnitude up to 2^53, and the product by
      60 of the loader for integers of magnitude below 2^47; larger
      integer cells, whose int64 arithmetic is no longer that of their
      float64 values, have no counterpart here.
    - Labels are unique in every frame [read_csv] returns, so [df[label]]
      is the first column so labelled.  The renaming of the loader can
      produce a label twice; the two statements of the loader that follow
      it are modelled for such frames as well.
    - [sorted] is Python's for lists without NaN, where the result is the
      ascending arrangement whatever the algorithm; statements about the
      order of energies carry that condition.
    - The simulation collaborator ([hadrons.functions]) and the random
      source are parameters of the development; every call made to the
      collaborator is recorded in the world, together with the files
      written.  Console output is not modelled. *)

From Stdlib Require Import ZArith String List Bool Lia PeanoNat.
From Stdlib Require Import Floats.SpecFloat.
Import ListNotations.
Local Open Scope string_scope.
Local Open Scope list_scope.

(* ===================================================================== *)
(** * float64 *)
(* ===================================================================== *)

Module F64.

Definition prec : Z := 53.
Definition emax : Z := 1024.

Definition t : Type := spec_float.

Definition nan : t := S754_nan.
Definition zero : t := S754_zero false.

Definition add : t -> t -> t := SFadd prec emax.
Definition sub : t -> t -> t := SFsub prec emax.
Definition mul : t -> t -> t := SFmul prec emax.
Definition div : t -> t -> t := SFdiv prec emax.
Definition abs : t -> t := SFabs.

Definition eqb : t -> t -> bool := SFeqb.
Definition ltb : t -> t -> bool := SFltb.
Definition leb : t -> t -> bool := SFleb.

Definition isna (x : t) : bool :=
  match x with S754_nan => true | _ => false end.

(** [float(z)] for an integer that float64 represents exactly. *)
Definition of_Z (z : Z) : t := binary_normalize prec emax z 0 false.

(** The decimal literal [n/d] as Python reads it when both are exactly
    representable: the correctly rounded quotient. *)
Definition of_ratio (n d : Z) : t := div (of_Z n) (of_Z d).

End F64.

Definition float64 : Type := F64.t.

(* ===================================================================== *)
(** * Data frames *)
(* ===================================================================== *)

Inductive Series : Type :=
| NumSeries (values : list float64)
| ObjSeries (values : list (option string)).

Record DataFrame : Type := mkDataFrame {
  index : list Z;
  columns : list (string * Series)
}.

Definition series_len (s : Series) : nat :=
  match s with
  | NumSeries v => length v
  | ObjSeries v => length v
  end.

(** [len(df)] *)
Definition len (df : DataFrame) : nat := length (index df).

(** [df.columns] *)
Definition labels (df : DataFrame) : list string := map fst (columns df).

(** [name in df.columns] *)
Definition has_column (df : DataFrame) (name : string) : bool :=
  existsb (String.eqb name) (labels df).

Fixpoint lookup (cols : list (string * Series)) (name : string) : option Series :=
  match cols with
  | [] => None
  | (l, s) :: rest => if String.eqb name l then Some s else lookup rest name
  end.

(** [df[name]] *)
Definition getitem (df : DataFrame) (name : string) : option Series :=
  lookup (columns df) name.

(** [pd.api.types.is_numeric_dtype(s)] *)
Definition is_numeric_dtype (s : Series) : bool :=
  match s with NumSeries _ => true | ObjSeries _ => false end.

(** [s.isna().sum()] *)
Definition isna_sum (s : Series) : nat :=
  match s with
  | NumSeries v => length (filter F64.isna v)
  | ObjSeries v =>
      length (filter (fun c => match c with None => true | Some _ => false end) v)
  end.

(** [(s <= 0).any()] and [(s < 0).any()] on a numeric column *)
Definition any_le_zero (v : list float64) : bool :=
  existsb (fun x => F64.leb x F64.zero) v.

Definition any_lt_zero (v : list float64) : bool :=
  existsb (fun x => F64.ltb x F64.zero) v.

(** Every column of a pandas frame is as long as its index; the frames
    [read_csv] returns have unique labels and the index [0 .. n-1]. *)
Definition columns_aligned (df : DataFrame) : Prop :=
  Forall (fun c => series_len (snd c) = len df) (columns df).

Definition unique_labels (df : DataFrame) : Prop := NoDup (labels df).

Definition RangeIndex (n : nat) : list Z := map Z.of_nat (seq 0 n).

(* ===================================================================== *)
(** * data_utils.py *)
(* ===================================================================== *)

Inductive role : Type :=
  key_energy | key_ks | key_dose_rate_air | key_dose_rate_water.

Definition REQUIRED_COLUMNS (r : role) : list string :=
  match r with
  | key_energy => ["Energy_MeV"; "energy_MeV"; "E_MeV"; "energy"]
  | key_ks => ["k_s"; "ks"; "recombination_factor"; "collection_efficiency"]
  | key_dose_rate_air => ["dose_rate_air_Gy_s"; "dose_rate_air"; "doserate_air_Gy_s"]
  | key_dose_rate_water =>
      ["dose_rate_water_Gy_s"; "dose_rate_water"; "doserate_water_Gy_s"]
  end.

Fixpoint find_column (df : DataFrame) (possible_names : list string)
  : option string :=
  match possible_names with
  | [] => None
  | name :: rest =>
      if has_column df name then Some name else find_column df rest
  end.

(** The messages [validate_experimental_data] appends to [errors], by
    their format string and its arguments. *)
Inductive validation_error : Type :=
| Missing_required_columns (missing : list string)
    (* f"Missing required columns: {missing}" *)
| DataFrame_is_empty
    (* "DataFrame is empty" *)
| Contains_NaN_values (col : string) (nan_count : nat)
    (* f"Column '{col}' contains {nan_count} NaN values" *)
| Must_be_numeric (col : string)
    (* f"Column '{col}' must be numeric" *)
| Contains_non_positive_values (col : string)
    (* f"Column '{col}' contains non-positive values" *)
| Contains_negative_values (col : string).
    (* f"Column '{col}' contains negative values" *)

(** [for col in required: nan_count = ...; if nan_count > 0: errors.append] *)
Fixpoint nan_errors (df : DataFrame) (required : list string)
  : list validation_error :=
  match required with
  | [] => []
  | col :: rest =>
      match getitem df col with
      | Some s =>
          let nan_count := isna_sum s in
          (if Nat.ltb 0 nan_count then [Contains_NaN_values col nan_count] else [])
            ++ nan_errors df rest
      | None => nan_errors df rest
      end
  end.

(** One [if not is_numeric_dtype ... else if (... bad).any()] block. *)
Definition range_errors (df : DataFrame) (col : string)
    (bad : list float64 -> bool) (msg : string -> validation_error)
  : list validation_error :=
  match getitem df col with
  | Some (NumSeries v) => if bad v then [msg col] else []
  | Some (ObjSeries _) => [Must_be_numeric col]
  | None => []
  end.

Definition validate_experimental_data (df : DataFrame)
    (energy_column ks_column dose_rate_column : string)
  : bool * list validation_error :=
  let required := [energy_column; ks_column; dose_rate_column] in
  let missing := filter (fun col => negb (has_column df col)) required in
  match missing with
  | _ :: _ => (false, [Missing_required_columns missing])
  | [] =>
      if Nat.eqb (len df) 0 then (false, [DataFrame_is_empty])
      else
        let errors :=
          nan_errors df required
            ++ range_errors df energy_column any_le_zero
                 Contains_non_positive_values
            ++ range_errors df ks_column any_le_zero
                 Contains_non_positive_values
            ++ range_errors df dose_rate_column any_lt_zero
                 Contains_negative_values in
        (match errors with [] => true | _ => false end, errors)
  end.

(** Exceptions raised by the modelled code. *)
Inductive exception : Type :=
| FileNotFoundError
    (* f"Experimental data file not found: {data_path}" *)
| ValueError_load_csv
    (* f"Failed to load CSV file: {e}" *)
| ValueError_column_not_found (what : string) (tried : list string)
    (* f"Could not find {what} column. Tried: {tried}" *)
| ValueError_validation_failed (errors : list validation_error)
    (* "Data validation failed:\n" + one line per error *)
| ValueError_length_mismatch (n_values n_index : nat)
    (* pandas: "Length of values does not match length of index" *)
| ValueError_set_columns (label : string)
    (* pandas: "Cannot set a DataFrame with multiple columns to the single
       column {label}" *)
| KeyError (label : string)
| TypeError (label : string)
| AttributeError (name : string)
    (* "'DataFrame' object has no attribute '{name}'" *)
| RuntimeError (msg : string)
| CollaboratorError (msg : string).
    (* any exception raised inside [hadrons.functions] *)

Inductive result (A : Type) : Type :=
| Ok (a : A)
| Raise (e : exception).
Arguments Ok {A} a.
Arguments Raise {A} e.

(** What [data_path.exists()] and [pd.read_csv(data_path)] find. *)
Inductive csv_file : Type :=
| Absent
| Unreadable
| Parsed (df : DataFrame).

(** The auto-detection blocks of [load_experimental_data]. *)
Definition resolve_energy (df : DataFrame) (energy_column : option string)
  : result string :=
  match energy_column with
  | Some c => Ok c
  | None =>
      match find_column df (REQUIRED_COLUMNS key_energy) with
      | Some c => Ok c
      | None =>
          Raise (ValueError_column_not_found "energy" (REQUIRED_COLUMNS key_energy))
      end
  end.

Definition resolve_ks (df : DataFrame) (ks_column : option string)
  : result string :=
  match ks_column with
  | Some c => Ok c
  | None =>
      match find_column df (REQUIRED_COLUMNS key_ks) with
      | Some c => Ok c
      | None => Raise (ValueError_column_not_found "k_s" (REQUIRED_COLUMNS key_ks))
      end
  end.

Definition resolve_dose_rate (df : DataFrame) (dose_rate_column : option string)
  : result string :=
  match dose_rate_column with
  | Some c => Ok c
  | None =>
      match find_column df (REQUIRED_COLUMNS key_dose_rate_air) with
      | Some c => Ok c
      | None =>
          match find_column df (REQUIRED_COLUMNS key_dose_rate_water) with
          | Some c => Ok c
          | None =>
              Raise (ValueError_column_not_found "dose rate"
                       (REQUIRED_COLUMNS key_dose_rate_air
                          ++ REQUIRED_COLUMNS key_dose_rate_water))
          end
      end
  end.

(** [df.rename(columns={energy_column: "Energy_MeV", ks_column: "k_s",
    dose_rate_column: "dose_rate_Gy_s"})]: in the dict literal a later
    entry for the same key replaces an earlier one. *)
Definition rename_label (energy_column ks_column dose_rate_column l : string)
  : string :=
  if String.eqb l dose_rate_column then "dose_rate_Gy_s"
  else if String.eqb l ks_column then "k_s"
  else if String.eqb l energy_column then "Energy_MeV"
  else l.

Definition rename (df : DataFrame)
    (energy_column ks_column dose_rate_column : string) : DataFrame :=
  mkDataFrame (index df)
    (map (fun c =>
            (rename_label energy_column ks_column dose_rate_column (fst c), snd c))
       (columns df)).

(** [df[name]] on a frame whose labels may repeat: the columns carrying
    the label.  pandas gives a [Series] when there is one, a [DataFrame]
    when there are several, and raises [KeyError] when there is none. *)
Definition labelled (df : DataFrame) (name : string) : list Series :=
  map snd (filter (fun c => String.eqb name (fst c)) (columns df)).

(** [s * 60] on a float64 column *)
Definition times_60 (v : list float64) : list float64 :=
  map (fun x => F64.mul x (F64.of_Z 60)) v.

(** 2^47: an integer below it in magnitude has an exact float64 product
    with 60, the value of its int64 product. *)
Definition sixtyfold_bound : float64 := F64.of_Z 140737488355328.

(** [s * n] for a string [s] *)
Fixpoint string_times (n : nat) (s : string) : string :=
  match n with
  | O => ""
  | S n' => String.append s (string_times n' s)
  end.

(** [if "dose_rate_Gy_min" not in df.columns:
       df["dose_rate_Gy_min"] = df["dose_rate_Gy_s"] * 60]:
    on a column of object dtype the product repeats each string and
    leaves a missing cell missing; when the label is carried by several
    columns the product is a frame, and its assignment to one column
    raises. *)
Definition add_dose_rate_Gy_min (df : DataFrame) : result DataFrame :=
  if has_column df "dose_rate_Gy_min" then Ok df
  else
    match labelled df "dose_rate_Gy_s" with
    | [] => Raise (KeyError "dose_rate_Gy_s")
    | [NumSeries v] =>
        Ok (mkDataFrame (index df)
              (columns df ++ [("dose_rate_Gy_min", NumSeries (times_60 v))]))
    | [ObjSeries v] =>
        Ok (mkDataFrame (index df)
              (columns df
                 ++ [("dose_rate_Gy_min",
                      ObjSeries (map (option_map (string_times 60)) v))]))
    | _ :: _ :: _ => Raise (ValueError_set_columns "dose_rate_Gy_min")
    end.

Definition is_missing (c : option string) : bool :=
  match c with None => true | Some _ => false end.

(** [sorted(df['Energy_MeV'].unique())], evaluated for the last message
    of the loader (line 206), as far as it can raise: [KeyError] without
    such a column; [AttributeError] when several columns carry the label
    (a [DataFrame] has no [unique]); on a column of object dtype
    [TypeError] as soon as a missing cell and a string are compared, which
    sorting does when both occur.  Floats sort without error. *)
Definition energies_message (df : DataFrame) : result unit :=
  match labelled df "Energy_MeV" with
  | [] => Raise (KeyError "Energy_MeV")
  | [NumSeries _] => Ok tt
  | [ObjSeries v] =>
      if existsb is_missing v && existsb (fun c => negb (is_missing c)) v
      then Raise (TypeError "Energy_MeV")
      else Ok tt
  | _ :: _ :: _ => Raise (AttributeError "unique")
  end.

Definition load_experimental_data (data_path : csv_file)
    (energy_column ks_column dose_rate_column : option string)
  : result DataFrame :=
  match data_path with
  | Absent => Raise FileNotFoundError
  | Unreadable => Raise ValueError_load_csv
  | Parsed df =>
      match resolve_energy df energy_column with
      | Raise e => Raise e
      | Ok energy_column =>
      match resolve_ks df ks_column with
      | Raise e => Raise e
      | Ok ks_column =>
      match resolve_dose_rate df dose_rate_column with
      | Raise e => Raise e
      | Ok dose_rate_column =>
          let '(is_valid, errors) :=
            validate_experimental_data df energy_column ks_column
              dose_rate_column in
          if negb is_valid then Raise (ValueError_validation_failed errors)
          else
            match add_dose_rate_Gy_min
                    (rename df energy_column ks_column dose_rate_column) with
            | Raise e => Raise e
            | Ok df =>
                match energies_message df with
                | Raise e => Raise e
                | Ok _ => Ok df
                end
            end
      end end end
  end.

(* ===================================================================== *)
(** * config.py *)
(* ===================================================================== *)

Inductive Backend : Type := cython | python | numba | cupy | parallel.
Inductive RDD : Type := Gauss | Geiss.

Record SimulationConfig : Type := mkSimulationConfig {
  backend : Backend;
  voltage_V : float64;
  electrode_gap_cm : float64;
  particle : string;
  RDD_model : RDD;
  grid_size_um : float64;
  a0_nm : float64;
  use_beta : bool;
  seed : option Z;
  SHOW_PLOT : bool;
  PRINT_parameters : bool;
  debug : bool
}.

Record ComparisonConfig : Type := mkComparisonConfig {
  experimental_data_path : csv_file;
  output_dir : string;
  simulation : SimulationConfig;
  compare_initial_recombination : bool;
  compare_continuous_beam : bool;
  dose_rate_column : option string;
  energy_column : option string;
  ks_column : option string
}.

(* ===================================================================== *)
(** * The simulation collaborator *)
(* ===================================================================== *)

(** A cell of a row: a float64 of a numeric column, or a cell of an object
    column. *)
Inductive scalar : Type :=
| Num (x : float64)
| Obj (c : option string).

(** [ks_initial_IonTracks]: keyword arguments and the rows it returns. *)
Module Init.
Record kwargs : Type := mk_kwargs {
  E_MeV_u : float64;
  voltage_V : float64;
  electrode_gap_cm : float64;
  particle : string;
  RDD_model : RDD;
  grid_size_um : float64;
  a0_nm : float64;
  use_beta : bool;
  debug : bool;
  SHOW_PLOT : bool
}.
Record result_row : Type := mk_row {
  col_E_MeV_u : float64;
  col_ks : float64
}.
End Init.

(** [IonTracks_continuous_beam]: keyword arguments and the rows it returns. *)
Module Cont.
Record kwargs : Type := mk_kwargs {
  E_MeV_u : scalar;
  voltage_V : float64;
  doserate_Gy_min : scalar;
  electrode_gap_cm : float64;
  particle : string;
  grid_size_um : float64;
  backend : Backend;
  PRINT_parameters : bool;
  SHOW_PLOT : bool;
  myseed : Z
}.
Record result_row : Type := mk_row {
  col_ks_IonTracks : float64;
  col_E_MeV_u : scalar
}.
End Cont.

Inductive call : Type :=
| Call_initial (a : Init.kwargs)
| Call_continuous (a : Cont.kwargs).

(** What the code acts on outside its own objects: the calls made to the
    collaborator so far, the number of random draws made, and the files
    written ([to_csv(path, index=False)]: the path and the table). *)
Record World : Type := mkWorld {
  calls : list call;
  draws : nat;
  files : list (string * DataFrame)
}.

Definition M (A : Type) : Type := World -> A * World.

Definition ret {A} (a : A) : M A := fun w => (a, w).

Definition bind {A B} (m : M A) (k : A -> M B) : M B :=
  fun w => let '(a, w') := m w in k a w'.

Notation "x <- m ;; k" := (bind m (fun x => k))
  (at level 61, m at next level, right associativity).

(* ===================================================================== *)
(** * Frame operations used by comparison.py *)
(* ===================================================================== *)

Definition series_cell (s : Series) (i : nat) : option scalar :=
  match s with
  | NumSeries v => option_map Num (nth_error v i)
  | ObjSeries v => option_map Obj (nth_error v i)
  end.

(** The row at position [i], as a label-indexed series. *)
Fixpoint row_of (cols : list (string * Series)) (i : nat)
  : list (string * scalar) :=
  match cols with
  | [] => []
  | (l, s) :: rest =>
      match series_cell s i with
      | Some c => (l, c) :: row_of rest i
      | None => row_of rest i
      end
  end.

(** [df.iterrows()] *)
Definition iterrows (df : DataFrame) : list (Z * list (string * scalar)) :=
  combine (index df) (map (row_of (columns df)) (seq 0 (len df))).

(** [row[label]] *)
Fixpoint row_get (row : list (string * scalar)) (label : string)
  : result scalar :=
  match row with
  | [] => Raise (KeyError label)
  | (l, c) :: rest => if String.eqb label l then Ok c else row_get rest label
  end.

(** [df[label]] where the code goes on to do float arithmetic with it:
    [KeyError] when the label is absent; on a column of object dtype the
    arithmetic meets a string cell, which raises [TypeError]. *)
Definition numeric_column (df : DataFrame) (label : string)
  : result (list float64) :=
  match getitem df label with
  | None => Raise (KeyError label)
  | Some (ObjSeries _) => Raise (TypeError label)
  | Some (NumSeries v) => Ok v
  end.

Fixpoint replace_column (cols : list (string * Series)) (label : string)
    (s : Series) : list (string * Series) :=
  match cols with
  | [] => [(label, s)]
  | (l, s0) :: rest =>
      if String.eqb label l then (l, s) :: rest
      else (l, s0) :: replace_column rest label s
  end.

(** [df[label] = values]: the column is replaced in place when the label
    exists and appended otherwise; the length must be that of the index
    (it is, for a column computed from the frame's own columns, since in
    a pandas frame every column has the length of the index). *)
Definition setitem (df : DataFrame) (label : string) (values : list float64)
  : result DataFrame :=
  if Nat.eqb (length values) (len df)
  then Ok (mkDataFrame (index df)
             (replace_column (columns df) label (NumSeries values)))
  else Raise (ValueError_length_mismatch (length values) (len df)).

(** Boolean-mask selection. *)
Fixpoint mask_filter {A} (mask : list bool) (l : list A) : list A :=
  match mask, l with
  | b :: mask', x :: l' =>
      if b then x :: mask_filter mask' l' else mask_filter mask' l'
  | _, _ => []
  end.

Definition mask_series (mask : list bool) (s : Series) : Series :=
  match s with
  | NumSeries v => NumSeries (mask_filter mask v)
  | ObjSeries v => ObjSeries (mask_filter mask v)
  end.

Definition mask_frame (mask : list bool) (df : DataFrame) : DataFrame :=
  mkDataFrame (mask_filter mask (index df))
    (map (fun c => (fst c, mask_series mask (snd c))) (columns df)).

(** [df.dropna(subset=[label])] for a numeric column [label] *)
Definition dropna (df : DataFrame) (label : string) : result DataFrame :=
  match numeric_column df label with
  | Raise e => Raise e
  | Ok v => Ok (mask_frame (map (fun x => negb (F64.isna x)) v) df)
  end.

(** [s.unique()]: first occurrences, NaN equal to NaN. *)
Definition same_key (x y : float64) : bool :=
  F64.eqb x y || (F64.isna x && F64.isna y).

Fixpoint unique_from (seen : list float64) (v : list float64) : list float64 :=
  match v with
  | [] => []
  | x :: rest =>
      if existsb (same_key x) seen then unique_from seen rest
      else x :: unique_from (x :: seen) rest
  end.

Definition unique (v : list float64) : list float64 := unique_from [] v.

(** [sorted(v)] for a list without NaN: ascending for [<], equal elements
    in their input order.  (With a NaN in the list every comparison with
    it is false and what Python returns depends on the steps of its
    algorithm; this function is then one arrangement of the elements,
    not necessarily Python's.) *)
Fixpoint insert_sorted (x : float64) (l : list float64) : list float64 :=
  match l with
  | [] => [x]
  | y :: rest =>
      if F64.ltb x y then x :: y :: rest else y :: insert_sorted x rest
  end.

Definition sorted (v : list float64) : list float64 :=
  fold_left (fun acc x => insert_sorted x acc) v [].

(** [s.min()]: NaN cells are skipped; NaN when nothing is left. *)
Definition series_min (v : list float64) : float64 :=
  match filter (fun x => negb (F64.isna x)) v with
  | [] => F64.nan
  | x :: rest => fold_left (fun m y => if F64.ltb y m then y else m) rest x
  end.

Fixpoint map2 {A B C} (f : A -> B -> C) (l1 : list A) (l2 : list B) : list C :=
  match l1, l2 with
  | a :: l1', b :: l2' => f a b :: map2 f l1' l2'
  | _, _ => []
  end.

(* ===================================================================== *)
(** * comparison.py *)
(* ===================================================================== *)

Record ComparisonRunner : Type := mkRunner {
  config : ComparisonConfig;
  exp_data : DataFrame;
  initial_results : option (list Init.result_row);
  continuous_results : option (list Cont.result_row);
  comparison_initial : option DataFrame;
  comparison_continuous : option DataFrame
}.

Definition set_initial_results (self : ComparisonRunner)
    (v : list Init.result_row) : ComparisonRunner :=
  mkRunner (config self) (exp_data self) (Some v) (continuous_results self)
    (comparison_initial self) (comparison_continuous self).

Definition set_continuous_results (self : ComparisonRunner)
    (v : list Cont.result_row) : ComparisonRunner :=
  mkRunner (config self) (exp_data self) (initial_results self) (Some v)
    (comparison_initial self) (comparison_continuous self).

Definition set_comparison_initial (self : ComparisonRunner) (v : DataFrame)
  : ComparisonRunner :=
  mkRunner (config self) (exp_data self) (initial_results self)
    (continuous_results self) (Some v) (comparison_continuous self).

Definition set_comparison_continuous (self : ComparisonRunner) (v : DataFrame)
  : ComparisonRunner :=
  mkRunner (config self) (exp_data self) (initial_results self)
    (continuous_results self) (comparison_initial self) (Some v).

(** [ComparisonRunner.__init__] *)
Definition init (config : ComparisonConfig) : result ComparisonRunner :=
  match load_experimental_data (experimental_data_path config)
          (energy_column config) (ks_column config) (dose_rate_column config)
  with
  | Raise e => Raise e
  | Ok df => Ok (mkRunner config df None None None None)
  end.

(** One row of [comparison_list] in [run_initial_recombination]. *)
Record initial_record : Type := mk_initial_record {
  rec_Energy_MeV : float64;
  rec_k_s_experimental : float64;
  rec_k_s_IonTracks : float64;
  rec_difference : float64;
  rec_relative_error : float64
}.

(** [pd.DataFrame(comparison_list)] *)
Definition DataFrame_of_records (l : list initial_record) : DataFrame :=
  match l with
  | [] => mkDataFrame [] []
  | _ :: _ =>
      mkDataFrame (RangeIndex (length l))
        [ ("Energy_MeV", NumSeries (map rec_Energy_MeV l));
          ("k_s_experimental", NumSeries (map rec_k_s_experimental l));
          ("k_s_IonTracks", NumSeries (map rec_k_s_IonTracks l));
          ("difference", NumSeries (map rec_difference l));
          ("relative_error_%", NumSeries (map rec_relative_error l)) ]
  end.

(** The second loop of [run_initial_recombination]. *)
Fixpoint initial_comparison_loop (exp_data : DataFrame)
    (initial_results : list Init.result_row) (energies_MeV : list float64)
    (comparison_list : list initial_record) : result (list initial_record) :=
  match energies_MeV with
  | [] => Ok comparison_list
  | energy_MeV :: rest =>
      match numeric_column exp_data "Energy_MeV" with
      | Raise e => Raise e
      | Ok energy_col =>
      match numeric_column exp_data "k_s" with
      | Raise e => Raise e
      | Ok k_s_col =>
          let exp_subset :=
            mask_filter (map (fun x => F64.eqb x energy_MeV) energy_col)
              k_s_col in
          let k_s_exp_min := series_min exp_subset in
          let iontracks_subset :=
            filter (fun r => F64.eqb (Init.col_E_MeV_u r) energy_MeV)
              initial_results in
          match iontracks_subset with
          | r :: _ =>
              let k_s_iontracks := Init.col_ks r in
              initial_comparison_loop exp_data initial_results rest
                (comparison_list ++
                   [ mk_initial_record energy_MeV k_s_exp_min k_s_iontracks
                       (F64.sub k_s_iontracks k_s_exp_min)
                       (F64.div
                          (F64.mul (F64.of_Z 100)
                             (F64.sub k_s_iontracks k_s_exp_min))
                          k_s_exp_min) ])
          | [] =>
              initial_comparison_loop exp_data initial_results rest
                comparison_list
          end
      end end
  end.

(** The columns [run_continuous_beam] adds to [self.exp_data.copy()],
    before the rows with NaN are removed. *)
Definition continuous_comparison_full (exp_data : DataFrame)
    (continuous_df : list Cont.result_row) : result DataFrame :=
  match setitem exp_data "k_s_IonTracks"
          (map Cont.col_ks_IonTracks continuous_df) with
  | Raise e => Raise e
  | Ok c1 =>
  match numeric_column c1 "k_s_IonTracks", numeric_column c1 "k_s" with
  | Raise e, _ | Ok _, Raise e => Raise e
  | Ok sim, Ok k_s =>
  match setitem c1 "difference" (map2 F64.sub sim k_s) with
  | Raise e => Raise e
  | Ok c2 =>
  match numeric_column c2 "difference", numeric_column c2 "k_s" with
  | Raise e, _ | Ok _, Raise e => Raise e
  | Ok difference, Ok k_s =>
  match setitem c2 "relative_error_%"
          (map2 F64.div (map (F64.mul (F64.of_Z 100)) difference) k_s) with
  | Raise e => Raise e
  | Ok c3 =>
  match numeric_column c3 "difference" with
  | Raise e => Raise e
  | Ok difference => setitem c3 "absolute_error" (map F64.abs difference)
  end end end end end end.

(** The keyword arguments of the call of [IonTracks_continuous_beam] for
    one row, in evaluation order: [row["Energy_MeV"]] first, then
    [row["dose_rate_Gy_min"]]; the seed is [seed + idx]. *)
Definition continuous_kwargs (sim_config : SimulationConfig) (seed : Z)
    (idx : Z) (row : list (string * scalar)) : result Cont.kwargs :=
  match row_get row "Energy_MeV" with
  | Raise e => Raise e
  | Ok E =>
      match row_get row "dose_rate_Gy_min" with
      | Raise e => Raise e
      | Ok doserate =>
          Ok (Cont.mk_kwargs E (voltage_V sim_config) doserate
                (electrode_gap_cm sim_config) (particle sim_config)
                (grid_size_um sim_config) (backend sim_config)
                (PRINT_parameters sim_config) (SHOW_PLOT sim_config)
                (seed + idx)%Z)
      end
  end.

Section Runner.

(** The two functions of [hadrons.functions] and [random.randint]: the
    value of the [n]-th draw of the run for bounds [a], [b]. *)
Variable ks_initial_IonTracks : Init.kwargs -> result (list Init.result_row).
Variable IonTracks_continuous_beam :
  Cont.kwargs -> result (list Cont.result_row).
Variable randint : nat -> Z -> Z -> Z.

Definition call_initial (a : Init.kwargs)
  : M (result (list Init.result_row)) :=
  fun w => (ks_initial_IonTracks a,
            mkWorld (calls w ++ [Call_initial a]) (draws w) (files w)).

Definition call_continuous (a : Cont.kwargs)
  : M (result (list Cont.result_row)) :=
  fun w => (IonTracks_continuous_beam a,
            mkWorld (calls w ++ [Call_continuous a]) (draws w) (files w)).

Definition random_randint (a b : Z) : M Z :=
  fun w => (randint (draws w) a b,
            mkWorld (calls w) (S (draws w)) (files w)).

Definition to_csv (df : DataFrame) (path : string) : M unit :=
  fun w => (tt, mkWorld (calls w) (draws w) (files w ++ [(path, df)])).

(** The first loop of [run_initial_recombination]. *)
Fixpoint initial_loop (sim_config : SimulationConfig)
    (energies_MeV : list float64)
    (initial_results_list : list (list Init.result_row))
  : M (list (list Init.result_row)) :=
  match energies_MeV with
  | [] => ret initial_results_list
  | energy_MeV :: rest =>
      r <- call_initial
             (Init.mk_kwargs energy_MeV (voltage_V sim_config)
                (electrode_gap_cm sim_config) (particle sim_config)
                (RDD_model sim_config) (grid_size_um sim_config)
                (a0_nm sim_config) (use_beta sim_config) (debug sim_config)
                (SHOW_PLOT sim_config)) ;;
      match r with
      | Ok res => initial_loop sim_config rest (initial_results_list ++ [res])
      | Raise _ => initial_loop sim_config rest initial_results_list
      end
  end.

Definition run_initial_recombination (self : ComparisonRunner)
  : M (ComparisonRunner * result DataFrame) :=
  let sim_config := simulation (config self) in
  match numeric_column (exp_data self) "Energy_MeV" with
  | Raise e => ret (self, Raise e)
  | Ok energy_col =>
      let energies_MeV := sorted (unique energy_col) in
      initial_results_list <- initial_loop sim_config energies_MeV [] ;;
      match initial_results_list with
      | [] =>
          ret (self,
               Raise (RuntimeError
                 "Failed to calculate any results for Initial Recombination"))
      | _ :: _ =>
          let self := set_initial_results self (concat initial_results_list) in
          match initial_comparison_loop (exp_data self)
                  (concat initial_results_list) energies_MeV [] with
          | Raise e => ret (self, Raise e)
          | Ok comparison_list =>
              let df := DataFrame_of_records comparison_list in
              ret (set_comparison_initial self df, Ok df)
          end
      end
  end.

(** The body of the [try] block of [run_continuous_beam]: the keyword
    arguments are evaluated, then the call is made. *)
Definition continuous_try (sim_config : SimulationConfig) (seed : Z)
    (idx : Z) (row : list (string * scalar))
  : M (result (list Cont.result_row)) :=
  match continuous_kwargs sim_config seed idx row with
  | Raise e => ret (Raise e)
  | Ok a => call_continuous a
  end.

(** The loop of [run_continuous_beam]: a failing row contributes a
    one-row frame with NaN; an exception raised by the handler itself
    leaves the loop. *)
Fixpoint continuous_loop (sim_config : SimulationConfig) (seed : Z)
    (rows : list (Z * list (string * scalar)))
    (continuous_results_list : list (list Cont.result_row))
  : M (result (list (list Cont.result_row))) :=
  match rows with
  | [] => ret (Ok continuous_results_list)
  | (idx, row) :: rest =>
      r <- continuous_try sim_config seed idx row ;;
      match r with
      | Ok res =>
          continuous_loop sim_config seed rest
            (continuous_results_list ++ [res])
      | Raise _ =>
          match row_get row "Energy_MeV" with
          | Raise e => ret (Raise e)
          | Ok E =>
              continuous_loop sim_config seed rest
                (continuous_results_list ++ [[Cont.mk_row F64.nan E]])
          end
      end
  end.

(** Lines 140-145: the base seed. *)
Definition determine_seed (sim_config : SimulationConfig) : M Z :=
  match seed sim_config with
  | None => random_randint 1 10000000
  | Some s => ret s
  end.

(** [run_continuous_beam] up to line 193: the loop, the stored
    [continuous_results] and the comparison frame with its four columns,
    before the rows with NaN are removed. *)
Definition create_comparison_continuous (self : ComparisonRunner)
  : M (ComparisonRunner * result DataFrame) :=
  let sim_config := simulation (config self) in
  seed <- determine_seed sim_config ;;
  r <- continuous_loop sim_config seed (iterrows (exp_data self)) [] ;;
  match r with
  | Raise e => ret (self, Raise e)
  | Ok [] =>
      ret (self,
           Raise (RuntimeError
             "Failed to calculate any results for Continuous Beam"))
  | Ok continuous_results_list =>
      let continuous_df := concat continuous_results_list in
      let self := set_continuous_results self continuous_df in
      ret (self, continuous_comparison_full (exp_data self) continuous_df)
  end.

(** [run_continuous_beam]: the frame above, then
    [dropna(subset=["k_s_IonTracks"])] and the assignment to
    [self.comparison_continuous]. *)
Definition run_continuous_beam (self : ComparisonRunner)
  : M (ComparisonRunner * result DataFrame) :=
  p <- create_comparison_continuous self ;;
  match p with
  | (self, Raise e) => ret (self, Raise e)
  | (self, Ok full) =>
      match dropna full "k_s_IonTracks" with
      | Raise e => ret (self, Raise e)
      | Ok comparison_continuous =>
          ret (set_comparison_continuous self comparison_continuous,
               Ok comparison_continuous)
      end
  end.

(** [run_all]: an exception raised by a phase leaves the method. *)
Definition run_all (self : ComparisonRunner)
  : M (ComparisonRunner * result unit) :=
  p <- (if compare_initial_recombination (config self)
        then
          q <- run_initial_recombination self ;;
          ret (fst q, match snd q with Ok _ => Ok tt | Raise e => Raise e end)
        else ret (self, Ok tt)) ;;
  match p with
  | (self, Raise e) => ret (self, Raise e)
  | (self, Ok _) =>
      if compare_continuous_beam (config self)
      then
        q <- run_continuous_beam self ;;
        ret (fst q, match snd q with Ok _ => Ok tt | Raise e => Raise e end)
      else ret (self, Ok tt)
  end.

(** [self.comparison_continuous[available_cols]] *)
Fixpoint select_columns (df : DataFrame) (cols : list string)
  : list (string * Series) :=
  match cols with
  | [] => []
  | c :: rest =>
      match getitem df c with
      | Some s => (c, s) :: select_columns df rest
      | None => select_columns df rest
      end
  end.

Definition clean_cols : list string :=
  [ "Energy_MeV"; "dose_rate_Gy_s"; "k_s"; "k_s_IonTracks"; "difference";
    "relative_error_%"; "absolute_error" ].

(** [self.config.output_dir / name] *)
Definition path_join (dir name : string) : string :=
  String.append dir (String.append "/" name).

Definition save_results (self : ComparisonRunner) : M unit :=
  _ <- match comparison_initial self with
       | Some df =>
           if Nat.ltb 0 (len df)
           then to_csv df
                  (path_join (output_dir (config self)) "comparison_initial.csv")
           else ret tt
       | None => ret tt
       end ;;
  match comparison_continuous self with
  | Some df =>
      if Nat.ltb 0 (len df)
      then
        _ <- to_csv df
               (path_join (output_dir (config self))
                  "comparison_continuous.csv") ;;
        let available_cols := filter (has_column df) clean_cols in
        let comparison_clean :=
          mkDataFrame (index df) (select_columns df available_cols) in
        to_csv comparison_clean
          (path_join (output_dir (config self))
             "comparison_continuous_clean.csv")
      else ret tt
  | None => ret tt
  end.

End Runner.

(* ===================================================================== *)
(** * Properties stated about validation *)
(* ===================================================================== *)

(** The violations the validator looks for, as conditions on the frame:
    NaN cells in a required column, a required column that is not numeric,
    a non-positive value in the energy or k_s column, a negative value in
    the dose-rate column. *)
Definition violation (df : DataFrame) (e k d : string)
    (err : validation_error) : Prop :=
  match err with
  | Contains_NaN_values col n =>
      In col [e; k; d] /\
      exists s, getitem df col = Some s /\ isna_sum s = n /\ 0 < n
  | Must_be_numeric col =>
      In col [e; k; d] /\
      exists s, getitem df col = Some s /\ is_numeric_dtype s = false
  | Contains_non_positive_values col =>
      (col = e \/ col = k) /\
      exists v, getitem df col = Some (NumSeries v) /\
                Exists (fun x => F64.leb x F64.zero = true) v
  | Contains_negative_values col =>
      col = d /\
      exists v, getitem df col = Some (NumSeries v) /\
                Exists (fun x => F64.ltb x F64.zero = true) v
  | Missing_required_columns _ => False
  | DataFrame_is_empty => False
  end.

(** [missing] of [validate_experimental_data]. *)
Definition missing_columns (df : DataFrame) (e k d : string) : list string :=
  filter (fun col => negb (has_column df col)) [e; k; d].

(** A header-only CSV file with the canonical aliases: [read_csv] returns
    no rows and columns of object dtype. *)
Definition header_only : DataFrame :=
  mkDataFrame []
    [ ("Energy_MeV", ObjSeries []); ("k_s", ObjSeries []);
      ("dose_rate_air_Gy_s", ObjSeries []) ].

(* ===================================================================== *)
(** * Concrete data *)
(* ===================================================================== *)

(** The defaults of [SimulationConfig], with the seed given. *)
Definition default_simulation (seed : option Z) : SimulationConfig :=
  mkSimulationConfig cython (F64.of_Z 200) (F64.of_ratio 2 10) "proton"
    Gauss (F64.of_Z 5) (F64.of_Z 8) false seed false false false.

Definition default_config (data : csv_file) (seed : option Z)
  : ComparisonConfig :=
  mkComparisonConfig data "results" (default_simulation seed) true true
    None None None.

(** Two energies with three dose rates each: k_s 0.95, 0.90, 0.80 at
    0.5, 1.0, 2.0 Gy/s for 10 MeV and 0.97, 0.93, 0.85 for 20 MeV. *)
Definition two_energies_csv : DataFrame :=
  mkDataFrame (RangeIndex 6)
    [ ("Energy_MeV",
       NumSeries (map F64.of_Z [10; 10; 10; 20; 20; 20]%Z));
      ("k_s",
       NumSeries [ F64.of_ratio 95 100; F64.of_ratio 90 100;
                   F64.of_ratio 80 100; F64.of_ratio 97 100;
                   F64.of_ratio 93 100; F64.of_ratio 85 100 ]);
      ("dose_rate_air_Gy_s",
       NumSeries [ F64.of_ratio 5 10; F64.of_Z 1; F64.of_Z 2;
                   F64.of_ratio 5 10; F64.of_Z 1; F64.of_Z 2 ]) ].

(** A point-estimate stub: one row, ks = 0.81 at 10 MeV and 0.86
    elsewhere. *)
Definition stub_initial (a : Init.kwargs) : result (list Init.result_row) :=
  Ok [ Init.mk_row (Init.E_MeV_u a)
         (if F64.eqb (Init.E_MeV_u a) (F64.of_Z 10)
          then F64.of_ratio 81 100 else F64.of_ratio 86 100) ].

(** A stochastic stub: one row with ks_IonTracks = 0.9, raising at the
    seeds listed. *)
Definition stub_continuous (failing_seeds : list Z) (a : Cont.kwargs)
  : result (list Cont.result_row) :=
  if existsb (Z.eqb (Cont.myseed a)) failing_seeds
  then Raise (CollaboratorError "injected failure")
  else Ok [ Cont.mk_row (F64.of_ratio 9 10) (Cont.E_MeV_u a) ].

(** A stochastic simulation that raises on every call. *)
Definition always_raises (a : Cont.kwargs) : result (list Cont.result_row) :=
  Raise (CollaboratorError "simulation failed").

Definition no_initial (a : Init.kwargs) : result (list Init.result_row) :=
  Raise (CollaboratorError "not used").

(** A random source that returns the lower bound. *)
Definition lowest_draw (n : nat) (a b : Z) : Z := a.

Definition initial_world : World := mkWorld [] 0 [].

(** The k_s of the row with the lowest dose rate among the rows of one
    energy (the first such row when several share that dose rate), as the
    comment of [run_initial_recombination] describes the reference. *)
Fixpoint lowest_dose_rate_row (rows : list (float64 * float64))
  : option (float64 * float64) :=
  match rows with
  | [] => None
  | (rate, k) :: rest =>
      match lowest_dose_rate_row rest with
      | Some (rate', k') =>
          if F64.ltb rate' rate then Some (rate', k') else Some (rate, k)
      | None => Some (rate, k)
      end
  end.

Definition k_s_at_lowest_dose_rate (exp_data : DataFrame)
    (energy_MeV : float64) : option float64 :=
  match numeric_column exp_data "Energy_MeV",
        numeric_column exp_data "dose_rate_Gy_s",
        numeric_column exp_data "k_s" with
  | Ok energy_col, Ok rate_col, Ok k_s_col =>
      option_map snd
        (lowest_dose_rate_row
           (mask_filter (map (fun x => F64.eqb x energy_MeV) energy_col)
              (combine rate_col k_s_col)))
  | _, _, _ => None
  end.

(* ===================================================================== *)
(** * Per-row view of the continuous-beam loop *)
(* ===================================================================== *)

Section RowView.

Variable IonTracks_continuous_beam :
  Cont.kwargs -> result (list Cont.result_row).

(** [row["Energy_MeV"]] of a row that has the column. *)
Definition row_energy (row : list (string * scalar)) : scalar :=
  match row_get row "Energy_MeV" with
  | Ok E => E
  | Raise _ => Obj None
  end.

(** The frame one row appends to [continuous_results_list]: the frame the
    collaborator returns, or the one-row NaN frame of the handler. *)
Definition row_result (sim_config : SimulationConfig) (seed : Z)
    (p : Z * list (string * scalar)) : list Cont.result_row :=
  match continuous_kwargs sim_config seed (fst p) (snd p) with
  | Ok a =>
      match IonTracks_continuous_beam a with
      | Ok res => res
      | Raise _ => [Cont.mk_row F64.nan (row_energy (snd p))]
      end
  | Raise _ => [Cont.mk_row F64.nan (row_energy (snd p))]
  end.

(** The call one row makes, if its arguments evaluate. *)
Definition row_calls (sim_config : SimulationConfig) (seed : Z)
    (p : Z * list (string * scalar)) : list call :=
  match continuous_kwargs sim_config seed (fst p) (snd p) with
  | Ok a => [Call_continuous a]
  | Raise _ => []
  end.

(** The simulated value of one row: the collaborator's value when its
    call succeeds, NaN otherwise. *)
Definition simulated_ks (sim_config : SimulationConfig) (seed : Z)
    (p : Z * list (string * scalar)) : float64 :=
  match continuous_kwargs sim_config seed (fst p) (snd p) with
  | Ok a =>
      match IonTracks_continuous_beam a with
      | Ok (r :: _) => Cont.col_ks_IonTracks r
      | _ => F64.nan
      end
  | Raise _ => F64.nan
  end.

(** The collaborator's contract: a call that returns, returns one row. *)
Definition returns_one_row : Prop :=
  forall a res, IonTracks_continuous_beam a = Ok res -> length res = 1.

End RowView.

(** The base seed of a run started in world [w]. *)
Definition base_seed (randint : nat -> Z -> Z -> Z)
    (sim_config : SimulationConfig) (w : World) : Z :=
  match seed sim_config with
  | Some s => s
  | None => randint (draws w) 1%Z 10000000%Z
  end.

(** The labels [run_continuous_beam] writes. *)
Definition added_labels : list string :=
  [ "k_s_IonTracks"; "difference"; "relative_error_%"; "absolute_error" ].

(** [exp_data] with the four columns of [run_continuous_beam] written:
    the simulated values [sim] and what is computed from them and from
    the experimental column [k_s]. *)
Definition comparison_columns (exp_data : DataFrame) (sim k_s : list float64)
  : DataFrame :=
  let difference := map2 F64.sub sim k_s in
  mkDataFrame (index exp_data)
    (replace_column
       (replace_column
          (replace_column
             (replace_column (columns exp_data)
                "k_s_IonTracks" (NumSeries sim))
             "difference" (NumSeries difference))
          "relative_error_%"
          (NumSeries
             (map2 F64.div (map (F64.mul (F64.of_Z 100)) difference) k_s)))
       "absolute_error" (NumSeries (map F64.abs difference))).

(** The two formulas of a record of the initial protocol. *)
Definition record_formulas (r : initial_record) : Prop :=
  rec_difference r = F64.sub (rec_k_s_IonTracks r) (rec_k_s_experimental r) /\
  rec_relative_error r
  = F64.div
      (F64.mul (F64.of_Z 100)
         (F64.sub (rec_k_s_IonTracks r) (rec_k_s_experimental r)))
      (rec_k_s_experimental r).

(** The reference of a record is the minimum of the k_s cells of the rows
    of its energy. *)
Definition record_reference (exp_data : DataFrame) (r : initial_record)
  : Prop :=
  exists energy_col k_s_col,
    numeric_column exp_data "Energy_MeV" = Ok energy_col /\
    numeric_column exp_data "k_s" = Ok k_s_col /\
    rec_k_s_experimental r
    = series_min
        (mask_filter (map (fun x => F64.eqb x (rec_Energy_MeV r)) energy_col)
           k_s_col).

(** The files [save_results] writes for a runner: nothing for a phase
    whose table is absent or has no row. *)
Definition absent_or_empty (table : option DataFrame) : Prop :=
  match table with
  | None => True
  | Some df => len df = 0
  end.

Definition saved_initial (self : ComparisonRunner)
  : list (string * DataFrame) :=
  match comparison_initial self with
  | Some df =>
      if Nat.ltb 0 (len df)
      then [(path_join (output_dir (config self)) "comparison_initial.csv", df)]
      else []
  | None => []
  end.

Definition saved_continuous (self : ComparisonRunner)
  : list (string * DataFrame) :=
  match comparison_continuous self with
  | Some df =>
      if Nat.ltb 0 (len df)
      then
        [ (path_join (output_dir (config self)) "comparison_continuous.csv",
           df);
          (path_join (output_dir (config self))
             "comparison_continuous_clean.csv",
           mkDataFrame (index df)
             (select_columns df (filter (has_column df) clean_cols))) ]
      else []
  | None => []
  end.

(** [two_energies_csv] once loaded: canonical labels and the per-minute
    dose rate. *)
Definition two_energies : DataFrame :=
  mkDataFrame (RangeIndex 6)
    [ ("Energy_MeV",
       NumSeries (map F64.of_Z [10; 10; 10; 20; 20; 20]%Z));
      ("k_s",
       NumSeries [ F64.of_ratio 95 100; F64.of_ratio 90 100;
                   F64.of_ratio 80 100; F64.of_ratio 97 100;
                   F64.of_ratio 93 100; F64.of_ratio 85 100 ]);
      ("dose_rate_Gy_s",
       NumSeries [ F64.of_ratio 5 10; F64.of_Z 1; F64.of_Z 2;
                   F64.of_ratio 5 10; F64.of_Z 1; F64.of_Z 2 ]);
      ("dose_rate_Gy_min",
       NumSeries (map F64.of_Z [30; 60; 120; 30; 60; 120]%Z)) ].

Definition two_energies_runner (seed : option Z) : ComparisonRunner :=
  mkRunner (default_config (Parsed two_energies_csv) seed) two_energies
    None None None None.

(** One measurement, k_s = 1.0 at 10 MeV and 1 Gy/s, and a point-estimate
    stub that returns ks = 0.1. *)
Definition one_row_csv : DataFrame :=
  mkDataFrame (RangeIndex 1)
    [ ("Energy_MeV", NumSeries [F64.of_Z 10]);
      ("k_s", NumSeries [F64.of_Z 1]);
      ("dose_rate_air_Gy_s", NumSeries [F64.of_Z 1]) ].

Definition one_row : DataFrame :=
  mkDataFrame (RangeIndex 1)
    [ ("Energy_MeV", NumSeries [F64.of_Z 10]);
      ("k_s", NumSeries [F64.of_Z 1]);
      ("dose_rate_Gy_s", NumSeries [F64.of_Z 1]);
      ("dose_rate_Gy_min", NumSeries [F64.of_Z 60]) ].

Definition one_row_runner : ComparisonRunner :=
  mkRunner (default_config (Parsed one_row_csv) (Some 7%Z)) one_row
    None None None None.

Definition stub_initial_tenth (a : Init.kwargs)
  : result (list Init.result_row) :=
  Ok [ Init.mk_row (Init.E_MeV_u a) (F64.of_ratio 1 10) ].

(** A file in which one column, [x], is configured for both the k_s role
    and the dose-rate role, next to a column already labelled [k_s] that
    holds a zero. *)
Definition shared_column_csv : DataFrame :=
  mkDataFrame (RangeIndex 1)
    [ ("Energy_MeV", NumSeries [F64.of_Z 10]);
      ("x", NumSeries [F64.of_Z 1]);
      ("k_s", NumSeries [F64.zero]) ].

(** Non-numeric energies and a negative dose rate in one file. *)
Definition two_violations_csv : DataFrame :=
  mkDataFrame (RangeIndex 1)
    [ ("Energy_MeV", ObjSeries [Some "ten"]);
      ("k_s", NumSeries [F64.of_ratio 9 10]);
      ("dose_rate_air_Gy_s", NumSeries [F64.of_Z (-1)]) ].

(* ===================================================================== *)
(** * Properties stated about loading *)
(* ===================================================================== *)

(** A column that is numeric and whose cells all pass [ok]. *)
Definition column_values (df : DataFrame) (col : string)
    (ok : float64 -> bool) : Prop :=
  exists v,
    getitem df col = Some (NumSeries v) /\ Forall (fun x => ok x = true) v.

(** A frame with rows whose energy and k_s cells are above zero and whose
    dose-rate cells are zero or above (no cell is NaN: NaN compares false
    with everything). *)
Definition valid_dataset (df : DataFrame) (e k d : string) : Prop :=
  len df <> 0 /\
  column_values df e (F64.ltb F64.zero) /\
  column_values df k (F64.ltb F64.zero) /\
  column_values df d (F64.leb F64.zero).

(** The same measurements as [two_energies_csv], the columns in another
    order and an unused column added. *)
Definition two_energies_reordered_csv : DataFrame :=
  mkDataFrame (RangeIndex 6)
    [ ("dose_rate_air_Gy_s",
       NumSeries [ F64.of_ratio 5 10; F64.of_Z 1; F64.of_Z 2;
                   F64.of_ratio 5 10; F64.of_Z 1; F64.of_Z 2 ]);
      ("operator", ObjSeries [ Some "A"; Some "A"; Some "A";
                               Some "B"; Some "B"; Some "B" ]);
      ("k_s",
       NumSeries [ F64.of_ratio 95 100; F64.of_ratio 90 100;
                   F64.of_ratio 80 100; F64.of_ratio 97 100;
                   F64.of_ratio 93 100; F64.of_ratio 85 100 ]);
      ("Energy_MeV",
       NumSeries (map F64.of_Z [10; 10; 10; 20; 20; 20]%Z)) ].

(** A header-only file with the labels of [two_energies_reordered_csv] in
    yet another order. *)
Definition reordered_header : DataFrame :=
  mkDataFrame []
    [ ("Energy_MeV", ObjSeries []); ("k_s", ObjSeries []);
      ("operator", ObjSeries []); ("dose_rate_air_Gy_s", ObjSeries []) ].

(** [two_energies_reordered_csv] once loaded. *)
Definition two_energies_reordered : DataFrame :=
  mkDataFrame (RangeIndex 6)
    [ ("dose_rate_Gy_s",
       NumSeries [ F64.of_ratio 5 10; F64.of_Z 1; F64.of_Z 2;
                   F64.of_ratio 5 10; F64.of_Z 1; F64.of_Z 2 ]);
      ("operator", ObjSeries [ Some "A"; Some "A"; Some "A";
                               Some "B"; Some "B"; Some "B" ]);
      ("k_s",
       NumSeries [ F64.of_ratio 95 100; F64.of_ratio 90 100;
                   F64.of_ratio 80 100; F64.of_ratio 97 100;
                   F64.of_ratio 93 100; F64.of_ratio 85 100 ]);
      ("Energy_MeV",
       NumSeries (map F64.of_Z [10; 10; 10; 20; 20; 20]%Z));
      ("dose_rate_Gy_min",
       NumSeries (map F64.of_Z [30; 60; 120; 30; 60; 120]%Z)) ].

(* ===================================================================== *)
(** * Per-energy view of the initial-recombination loops *)
(* ===================================================================== *)

(** The keyword arguments of the call of [ks_initial_IonTracks] for one
    energy. *)
Definition initial_kwargs (sim_config : SimulationConfig)
    (energy_MeV : float64) : Init.kwargs :=
  Init.mk_kwargs energy_MeV (voltage_V sim_config)
    (electrode_gap_cm sim_config) (particle sim_config)
    (RDD_model sim_config) (grid_size_um sim_config)
    (a0_nm sim_config) (use_beta sim_config) (debug sim_config)
    (SHOW_PLOT sim_config).

(** What one energy appends to [initial_results_list]: the frame returned,
    nothing when the call raises. *)
Definition initial_attempt
    (ks_initial_IonTracks : Init.kwargs -> result (list Init.result_row))
    (sim_config : SimulationConfig) (energy_MeV : float64)
  : list (list Init.result_row) :=
  match ks_initial_IonTracks (initial_kwargs sim_config energy_MeV) with
  | Ok res => [res]
  | Raise _ => []
  end.

(** [len(iontracks_subset) > 0] for one energy. *)
Definition has_result (initial_results : list Init.result_row)
    (energy_MeV : float64) : bool :=
  existsb (fun r => F64.eqb (Init.col_E_MeV_u r) energy_MeV) initial_results.

(** Each element is below the next one. *)
Fixpoint ascending (l : list float64) : Prop :=
  match l with
  | a :: rest =>
      match rest with
      | b :: _ => F64.ltb a b = true /\ ascending rest
      | [] => True
      end
  | [] => True
  end.

(** A point-estimate stub that raises at 10 MeV. *)
Definition stub_initial_fails_at_10 (a : Init.kwargs)
  : result (list Init.result_row) :=
  if F64.eqb (Init.E_MeV_u a) (F64.of_Z 10)
  then Raise (CollaboratorError "invalid energy")
  else stub_initial a.

(* ===================================================================== *)
(** * run_comparison.py *)
(* ===================================================================== *)

(** The first three statements of the [try] block of [main]: the runner
    is built, the phases run, the results are saved; an exception raised
    by one statement skips the statements after it. *)
Definition run_and_save
    (ks_initial_IonTracks : Init.kwargs -> result (list Init.result_row))
    (IonTracks_continuous_beam : Cont.kwargs -> result (list Cont.result_row))
    (randint : nat -> Z -> Z -> Z)
    (config : ComparisonConfig) : M (result unit) :=
  match init config with
  | Raise e => ret (Raise e)
  | Ok runner =>
      p <- run_all ks_initial_IonTracks IonTracks_continuous_beam randint
             runner ;;
      match p with
      | (runner, Raise e) => ret (Raise e)
      | (runner, Ok _) =>
          _ <- save_results runner ;;
          ret (Ok tt)
      end
  end.

(** Whether a row stays in the table of the continuous phase: its
    simulated value is not NaN. *)
Definition row_kept
    (IonTracks_continuous_beam : Cont.kwargs -> result (list Cont.result_row))
    (sim_config : SimulationConfig) (seed : Z)
    (p : Z * list (string * scalar)) : bool :=
  negb (F64.isna (simulated_ks IonTracks_continuous_beam sim_config seed p)).

(** A stochastic stub that returns two rows for every call. *)
Definition stub_two_rows (a : Cont.kwargs) : result (list Cont.result_row) :=
  Ok [ Cont.mk_row (F64.of_ratio 9 10) (Cont.E_MeV_u a);
       Cont.mk_row (F64.of_ratio 9 10) (Cont.E_MeV_u a) ].

(** A frame without rows that has the canonical columns. *)
Definition no_rows : DataFrame :=
  mkDataFrame []
    [ ("Energy_MeV", NumSeries []); ("k_s", NumSeries []);
      ("dose_rate_Gy_s", NumSeries []); ("dose_rate_Gy_min", NumSeries []) ].

(** An exception other than the [RuntimeError] of the phases. *)
Definition not_RuntimeError (x : exception) : Prop :=
  match x with RuntimeError _ => False | _ => True end.


(** A runner whose data has no row. *)
Definition no_rows_runner : ComparisonRunner :=
  mkRunner (default_config (Parsed two_energies_csv) (Some 42%Z)) no_rows
    None None None None.

(** A file in which one column, [x], is configured for both the energy
    role and the k_s role: the renaming labels it [k_s], and no column is
    labelled [Energy_MeV]. *)
Definition shared_energy_csv : DataFrame :=
  mkDataFrame (RangeIndex 1)
    [ ("x", NumSeries [F64.of_Z 1]);
      ("dose_rate_air_Gy_s", NumSeries [F64.of_Z 1]) ].

(* ===================================================================== *)
(** * Properties stated about column resolution *)
(* ===================================================================== *)

(** [c] is the first name of [names] that is a column of the frame. *)
Definition first_present (df : DataFrame) (names : list string) (c : string)
  : Prop :=
  exists pre post,
    names = pre ++ c :: post /\
    has_column df c = true /\
    Forall (fun n => has_column df n = false) pre.

Definition none_present (df : DataFrame) (names : list string) : Prop :=
  Forall (fun n => has_column df n = false) names.

(** The column a role is given: the configured name as it is, and without
    one the first alias that is a column of the frame. *)
Definition chosen (df : DataFrame) (configured : option string)
    (aliases : list string) (c : string) : Prop :=
  match configured with
  | Some x => c = x
  | None => first_present df aliases c
  end.

(** The aliases of the dose rate in the order they are tried: air, then
    water. *)
Definition dose_rate_aliases : list string :=
  REQUIRED_COLUMNS key_dose_rate_air ++ REQUIRED_COLUMNS key_dose_rate_water.

(** A file with the energies under a name no alias table lists, next to
    a column under an energy alias, and with dose rates under a water
    alias and under the second air alias. *)
Definition override_csv : DataFrame :=
  mkDataFrame (RangeIndex 2)
    [ ("E", NumSeries [F64.of_Z 5; F64.of_Z 6]);
      ("energy", NumSeries [F64.of_Z 1; F64.of_Z 2]);
      ("ks", NumSeries [F64.of_ratio 9 10; F64.of_ratio 8 10]);
      ("dose_rate_water_Gy_s", NumSeries [F64.of_Z 3; F64.of_Z 4]);
      ("dose_rate_air", NumSeries [F64.of_Z 1; F64.of_Z 2]) ].

(* ===================================================================== *)
(** * Properties stated about seeding *)
(* ===================================================================== *)

(** The seeds of the stochastic calls of a list of calls, in order. *)
Definition call_seeds (l : list call) : list Z :=
  flat_map (fun c => match c with
                     | Call_continuous a => [Cont.myseed a]
                     | Call_initial _ => []
                     end) l.




(* ===================================================================== *)
(** * The order of float64 values *)
(* ===================================================================== *)

(** A key whose lexicographic order is the order of the floats that are
    not NaN: the infinities at the ends, the zeros together in the
    middle, finite values by sign, then exponent, then mantissa. *)
Definition order_key (x : float64) : Z * Z * Z :=
  match x with
  | S754_infinity true => (-2, 0, 0)%Z
  | S754_finite true m e => (-1, - e, - Z.pos m)%Z
  | S754_zero _ => (0, 0, 0)%Z
  | S754_nan => (0, 0, 0)%Z
  | S754_finite false m e => (1, e, Z.pos m)%Z
  | S754_infinity false => (2, 0, 0)%Z
  end.

Definition key_le (a b : Z * Z * Z) : Prop :=
  let '(a1, a2, a3) := a in
  let '(b1, b2, b3) := b in
  (a1 < b1 \/ (a1 = b1 /\ (a2 < b2 \/ (a2 = b2 /\ a3 <= b3))))%Z.

(* ===================================================================== *)
(** * Lemmas on frames *)
(* ===================================================================== *)

Lemma has_column_true (df : DataFrame) (name : string) :
  has_column df name = true -> exists s, getitem df name = Some s.
Proof.
  unfold has_column, getitem, labels.
  induction (columns df) as [|[l s] cols IH]; simpl; [discriminate|].
  destruct (String.eqb name l); simpl; eauto.
Qed.

Lemma has_column_false (df : DataFrame) (name : string) :
  has_column df name = false -> getitem df name = None.
Proof.
  unfold has_column, getitem, labels.
  induction (columns df) as [|[l s] cols IH]; simpl; [reflexivity|].
  destruct (String.eqb name l); simpl; [discriminate|exact IH].
Qed.

Lemma getitem_has_column (df : DataFrame) (name : string) (s : Series) :
  getitem df name = Some s -> has_column df name = true.
Proof.
  intros H. destruct (has_column df name) eqn:E; [reflexivity|].
  apply has_column_false in E. congruence.
Qed.

(* ===================================================================== *)
(** * Lemmas on float64 comparisons *)
(* ===================================================================== *)

Lemma leb_zero_false_positive (x : float64) :
  F64.isna x = false ->
  F64.leb x F64.zero = false ->
  F64.ltb F64.zero x = true.
Proof.
  unfold F64.isna, F64.leb, F64.ltb, F64.zero, SFleb, SFltb.
  destruct x as [s|s| |s m e]; simpl; try discriminate;
    destruct s; simpl; intros; congruence.
Qed.

Lemma positive_not_zero (x : float64) :
  F64.ltb F64.zero x = true -> F64.eqb x F64.zero = false.
Proof.
  unfold F64.ltb, F64.eqb, F64.zero, SFeqb, SFltb.
  destruct x as [s|s| |s m e]; simpl; try discriminate;
    destruct s; simpl; intros; congruence.
Qed.

(* ===================================================================== *)
(** * Column resolution *)
(* ===================================================================== *)

Lemma find_column_spec (df : DataFrame) (names : list string) :
  match find_column df names with
  | Some c =>
      exists pre post,
        names = pre ++ c :: post /\
        has_column df c = true /\
        Forall (fun n => has_column df n = false) pre
  | None => Forall (fun n => has_column df n = false) names
  end.
Proof.
  induction names as [|n names IH]; simpl.
  - constructor.
  - destruct (has_column df n) eqn:Hn.
    + exists [], names. repeat split; auto.
    + destruct (find_column df names) as [c|].
      * destruct IH as (pre & post & -> & Hc & Hpre).
        exists (n :: pre), post. repeat split; auto.
      * constructor; auto.
Qed.

Lemma missing_columns_nil (df : DataFrame) (e k d : string) :
  missing_columns df e k d = [] <->
  has_column df e = true /\ has_column df k = true /\ has_column df d = true.
Proof.
  unfold missing_columns. simpl.
  destruct (has_column df e), (has_column df k), (has_column df d); simpl;
    split; intros H; try discriminate; try tauto;
    destruct H as (? & ? & ?); discriminate.
Qed.

Lemma validate_missing (df : DataFrame) (e k d : string) :
  missing_columns df e k d <> [] ->
  validate_experimental_data df e k d
  = (false, [Missing_required_columns (missing_columns df e k d)]).
Proof.
  intros H. unfold validate_experimental_data.
  fold (missing_columns df e k d).
  destruct (missing_columns df e k d); [congruence|reflexivity].
Qed.

Lemma validate_empty (df : DataFrame) (e k d : string) :
  missing_columns df e k d = [] -> len df = 0 ->
  validate_experimental_data df e k d = (false, [DataFrame_is_empty]).
Proof.
  intros Hm Hl. unfold validate_experimental_data.
  fold (missing_columns df e k d). rewrite Hm, Hl. reflexivity.
Qed.

Lemma load_validation_failure (df : DataFrame) (ec kc dc : option string)
    (e k d : string) (errors : list validation_error) :
  resolve_energy df ec = Ok e ->
  resolve_ks df kc = Ok k ->
  resolve_dose_rate df dc = Ok d ->
  validate_experimental_data df e k d = (false, errors) ->
  load_experimental_data (Parsed df) ec kc dc
  = Raise (ValueError_validation_failed errors).
Proof.
  intros He Hk Hd Hv. simpl. rewrite He, Hk, Hd, Hv. reflexivity.
Qed.

Lemma load_resolution_cases (df : DataFrame) (ec kc dc : option string) :
  (exists x, load_experimental_data (Parsed df) ec kc dc = Raise x) \/
  (exists e k d,
      resolve_energy df ec = Ok e /\ resolve_ks df kc = Ok k /\
      resolve_dose_rate df dc = Ok d).
Proof.
  simpl.
  destruct (resolve_energy df ec) as [e|x]; [|left; eauto].
  destruct (resolve_ks df kc) as [k|x]; [|left; eauto].
  destruct (resolve_dose_rate df dc) as [d|x]; [|left; eauto].
  right. exists e, k, d. auto.
Qed.

(** C9. On a frame without rows in which the three resolved columns are
    present, validation returns failure with the single message
    "DataFrame is empty", none of the NaN, dtype or range messages; so the
    load of a file without rows raises, and raises the validation error
    with that single message once the three columns are resolved and
    present. *)
Theorem empty_dataset_rejected (df : DataFrame) (Hlen : len df = 0) :
  (forall e k d,
      has_column df e = true -> has_column df k = true ->
      has_column df d = true ->
      validate_experimental_data df e k d = (false, [DataFrame_is_empty])) /\
  (forall ec kc dc e k d,
      resolve_energy df ec = Ok e -> resolve_ks df kc = Ok k ->
      resolve_dose_rate df dc = Ok d ->
      has_column df e = true -> has_column df k = true ->
      has_column df d = true ->
      load_experimental_data (Parsed df) ec kc dc
      = Raise (ValueError_validation_failed [DataFrame_is_empty])) /\
  (forall ec kc dc,
      exists x, load_experimental_data (Parsed df) ec kc dc = Raise x).
Proof.
  assert (forall e k d,
      has_column df e = true -> has_column df k = true ->
      has_column df d = true ->
      validate_experimental_data df e k d = (false, [DataFrame_is_empty]))
    as Hv.
  { intros e k d He Hk Hd. apply validate_empty; [|exact Hlen].
    apply missing_columns_nil. auto. }
  split; [exact Hv|]. split.
  - intros ec kc dc e k d He Hk Hd Hce Hck Hcd.
    eapply load_validation_failure; eauto.
  - intros ec kc dc.
    destruct (load_resolution_cases df ec kc dc)
      as [H|(e & k & d & He & Hk & Hd)]; [exact H|].
    destruct (missing_columns df e k d) eqn:Hm.
    + eexists. eapply load_validation_failure; eauto.
      apply validate_empty; auto.
    + eexists. eapply load_validation_failure; eauto.
      apply validate_missing. congruence.
Qed.

Lemma empty_dataset_rejected_witness :
  len header_only = 0 /\
  load_experimental_data (Parsed header_only) None None None
  = Raise (ValueError_validation_failed [DataFrame_is_empty]).
Proof.
  split; [reflexivity|].
  apply (proj1 (proj2 (empty_dataset_rejected header_only eq_refl))
           None None None "Energy_MeV" "k_s" "dose_rate_air_Gy_s");
    reflexivity.
Defined.

(* ===================================================================== *)
(** * Validation *)
(* ===================================================================== *)

Lemma In_nan_errors (df : DataFrame) (required : list string)
    (err : validation_error) :
  In err (nan_errors df required) <->
  exists col s,
    In col required /\ getitem df col = Some s /\ 0 < isna_sum s /\
    err = Contains_NaN_values col (isna_sum s).
Proof.
  induction required as [|c required IH]; simpl.
  - split; [tauto|]. intros (col & s & [] & _).
  - destruct (getitem df c) as [s|] eqn:Hc.
    + rewrite in_app_iff, IH. split.
      * intros [H|(col & s' & Hin & Hg & Hn & ->)].
        -- destruct (Nat.ltb 0 (isna_sum s)) eqn:Hlt; simpl in H; [|tauto].
           destruct H as [<-|[]]. apply Nat.ltb_lt in Hlt.
           exists c, s. auto.
        -- exists col, s'. auto.
      * intros (col & s' & [<-|Hin] & Hg & Hn & ->).
        -- left. rewrite Hc in Hg. inversion Hg; subst s'.
           apply Nat.ltb_lt in Hn. rewrite Hn. simpl. auto.
        -- right. exists col, s'. auto.
    + rewrite IH. split.
      * intros (col & s' & Hin & Hg & Hn & ->). exists col, s'. auto.
      * intros (col & s' & [<-|Hin] & Hg & Hn & ->); [congruence|].
        exists col, s'. auto.
Qed.

Lemma In_range_errors (df : DataFrame) (col : string)
    (bad : list float64 -> bool) (msg : string -> validation_error)
    (err : validation_error) :
  In err (range_errors df col bad msg) <->
  (exists v, getitem df col = Some (ObjSeries v) /\ err = Must_be_numeric col)
  \/ (exists v, getitem df col = Some (NumSeries v) /\ bad v = true /\
                err = msg col).
Proof.
  unfold range_errors.
  destruct (getitem df col) as [[v|v]|]; simpl.
  - destruct (bad v) eqn:Hb; simpl; split.
    + intros [<-|[]]. right. exists v. auto.
    + intros [(v' & H & _)|(v' & H & _ & ->)]; [discriminate|auto].
    + tauto.
    + intros [(v' & H & _)|(v' & H & Hb' & _)]; [discriminate|].
      inversion H; subst; congruence.
  - split.
    + intros [<-|[]]. left. exists v. auto.
    + intros [(v' & H & ->)|(v' & H & _)]; [auto|discriminate].
  - split; [tauto|].
    intros [(v' & H & _)|(v' & H & _)]; discriminate.
Qed.

Lemma any_le_zero_Exists (v : list float64) :
  any_le_zero v = true <-> Exists (fun x => F64.leb x F64.zero = true) v.
Proof.
  unfold any_le_zero. rewrite existsb_exists, Exists_exists. reflexivity.
Qed.

Lemma any_lt_zero_Exists (v : list float64) :
  any_lt_zero v = true <-> Exists (fun x => F64.ltb x F64.zero = true) v.
Proof.
  unfold any_lt_zero. rewrite existsb_exists, Exists_exists. reflexivity.
Qed.

Lemma not_numeric_ObjSeries (s : Series) :
  is_numeric_dtype s = false <-> exists v, s = ObjSeries v.
Proof.
  destruct s; simpl; split; intros H; try discriminate; eauto.
  destruct H; discriminate.
Qed.

(** The list collected once the columns are present and the frame has
    rows holds exactly the violations present. *)
Lemma collected_errors_spec (df : DataFrame) (e k d : string)
    (err : validation_error) :
  In err (nan_errors df [e; k; d]
            ++ range_errors df e any_le_zero Contains_non_positive_values
            ++ range_errors df k any_le_zero Contains_non_positive_values
            ++ range_errors df d any_lt_zero Contains_negative_values)
  <-> violation df e k d err.
Proof.
  rewrite !in_app_iff, In_nan_errors, !In_range_errors. split.
  - intros [H|[H|[H|H]]].
    + destruct H as (col & s & Hin & Hg & Hn & ->). simpl.
      split; [exact Hin|]. exists s. auto.
    + destruct H as [(v & Hg & ->)|(v & Hg & Hb & ->)]; simpl.
      * split; [auto|]. exists (ObjSeries v). auto.
      * split; [auto|]. exists v. split; [auto|].
        apply any_le_zero_Exists; auto.
    + destruct H as [(v & Hg & ->)|(v & Hg & Hb & ->)]; simpl.
      * split; [auto|]. exists (ObjSeries v). auto.
      * split; [auto|]. exists v. split; [auto|].
        apply any_le_zero_Exists; auto.
    + destruct H as [(v & Hg & ->)|(v & Hg & Hb & ->)]; simpl.
      * split; [auto|]. exists (ObjSeries v). auto.
      * split; [auto|]. exists v. split; [auto|].
        apply any_lt_zero_Exists; auto.
  - destruct err as [m| |col n|col|col|col]; simpl; try tauto.
    + intros (Hin & s & Hg & <- & Hn). left. exists col, s. auto.
    + intros (Hin & s & Hg & Hs).
      apply not_numeric_ObjSeries in Hs. destruct Hs as (v & ->).
      simpl in Hin. destruct Hin as [<-|[<-|[<-|[]]]].
      * right; left. left. eauto.
      * right; right; left. left. eauto.
      * right; right; right. left. eauto.
    + intros ([->| ->] & v & Hg & Hx); apply any_le_zero_Exists in Hx.
      * right; left. right. eauto.
      * right; right; left. right. eauto.
    + intros (-> & v & Hg & Hx). apply any_lt_zero_Exists in Hx.
      right; right; right. right. eauto.
Qed.

(** C5 as amended.  When a required column is absent the result is failure
    with the single missing-columns message; when the columns are present
    and the frame has no rows it is failure with the single message
    "DataFrame is empty"; otherwise the list returned holds exactly the
    violations present (NaN counts above zero, non-numeric dtype,
    non-positive energy or k_s, negative dose rate) and the flag is true
    exactly when that list is empty. *)
Theorem validation_reports (df : DataFrame) (e k d : string) :
  (missing_columns df e k d <> [] ->
   validate_experimental_data df e k d
   = (false, [Missing_required_columns (missing_columns df e k d)])) /\
  (missing_columns df e k d = [] -> len df = 0 ->
   validate_experimental_data df e k d = (false, [DataFrame_is_empty])) /\
  (missing_columns df e k d = [] -> len df <> 0 ->
   (forall err,
       In err (snd (validate_experimental_data df e k d))
       <-> violation df e k d err) /\
   (fst (validate_experimental_data df e k d) = true
    <-> snd (validate_experimental_data df e k d) = [])).
Proof.
  split; [apply validate_missing|].
  split; [apply validate_empty|].
  intros Hm Hl. unfold validate_experimental_data.
  fold (missing_columns df e k d). rewrite Hm.
  apply Nat.eqb_neq in Hl. rewrite Hl. simpl fst. simpl snd. split.
  - intros err. apply collected_errors_spec.
  - match goal with
    | |- _ <-> ?l = [] => destruct l; split; congruence
    end.
Qed.

(** C5, the claim as stated fails: with the three columns present, a
    violation that is present (an energy column that is not numeric) is
    not in the list returned for the header-only file. *)
Lemma validation_reports_every_violation_fails :
  ~ (forall df e k d,
        missing_columns df e k d = [] ->
        forall err,
          violation df e k d err ->
          In err (snd (validate_experimental_data df e k d))).
Proof.
  intros H.
  specialize (H header_only "Energy_MeV" "k_s" "dose_rate_air_Gy_s" eq_refl
                (Must_be_numeric "Energy_MeV")).
  simpl in H.
  destruct H as [H|[]]; [|discriminate H].
  split; [auto|]. exists (ObjSeries []). split; reflexivity.
Qed.

(* ===================================================================== *)
(** * The continuous-beam loop *)
(* ===================================================================== *)

Section ContinuousLoop.

Variable IonTracks_continuous_beam :
  Cont.kwargs -> result (list Cont.result_row).

Local Abbreviation loop := (continuous_loop IonTracks_continuous_beam).

Lemma continuous_loop_spec cfg seed rows :
  Forall (fun p => exists E, row_get (snd p) "Energy_MeV" = Ok E) rows ->
  forall acc w,
    loop cfg seed rows acc w
    = (Ok (acc ++ map (row_result IonTracks_continuous_beam cfg seed) rows),
       mkWorld (calls w ++ flat_map (row_calls cfg seed) rows)
         (draws w) (files w)).
Proof.
  induction 1 as [|[idx row] rows (E & HE) _ IH]; intros acc w.
  - simpl. rewrite !app_nil_r. destruct w; reflexivity.
  - simpl in HE. simpl.
    unfold bind, continuous_try, row_result, row_calls, row_energy. simpl.
    destruct (continuous_kwargs cfg seed idx row) as [a|x] eqn:Hk.
    + unfold call_continuous.
      destruct (IonTracks_continuous_beam a) as [res|x] eqn:Ha.
      * rewrite IH. simpl. rewrite <- !app_assoc. reflexivity.
      * rewrite HE, IH. simpl. rewrite <- !app_assoc. reflexivity.
    + unfold ret. rewrite HE, IH. simpl. rewrite <- !app_assoc.
      reflexivity.
Qed.

End ContinuousLoop.

(* ===================================================================== *)
(** * Columns of a frame: replacement, masks, rows *)
(* ===================================================================== *)

Lemma lookup_replace_same cols l s :
  lookup (replace_column cols l s) l = Some s.
Proof.
  induction cols as [|[l0 s0] cols IH]; simpl.
  - rewrite String.eqb_refl. reflexivity.
  - destruct (String.eqb l l0) eqn:E; simpl; rewrite E; auto.
Qed.

Lemma lookup_replace_other cols l s l' :
  String.eqb l' l = false ->
  lookup (replace_column cols l s) l' = lookup cols l'.
Proof.
  intros Hne. induction cols as [|[l0 s0] cols IH]; simpl.
  - rewrite Hne. reflexivity.
  - destruct (String.eqb l l0) eqn:E; simpl.
    + apply String.eqb_eq in E. subst l0. rewrite Hne. reflexivity.
    + rewrite IH. reflexivity.
Qed.

Lemma map2_length {A B C} (f : A -> B -> C) l1 l2 :
  length (map2 f l1 l2) = Nat.min (length l1) (length l2).
Proof.
  revert l2. induction l1 as [|a l1 IH]; intros [|b l2]; simpl; auto.
Qed.

Lemma mask_filter_map {A B} (f : A -> B) mask l :
  mask_filter mask (map f l) = map f (mask_filter mask l).
Proof.
  revert l. induction mask as [|b mask IH]; intros [|x l]; simpl; auto.
  destruct b; simpl; rewrite IH; reflexivity.
Qed.

Lemma map2_nil_r {A B C} (f : A -> B -> C) l : map2 f l [] = [].
Proof. destruct l; reflexivity. Qed.

Lemma mask_filter_nil {A} mask : @mask_filter A mask [] = [].
Proof. destruct mask; reflexivity. Qed.

Lemma mask_filter_map2 {A B C} (f : A -> B -> C) mask l1 l2 :
  mask_filter mask (map2 f l1 l2)
  = map2 f (mask_filter mask l1) (mask_filter mask l2).
Proof.
  revert l1 l2. induction mask as [|b mask IH]; intros l1 l2.
  - destruct l1, l2; reflexivity.
  - destruct l1 as [|x l1]; [reflexivity|].
    destruct l2 as [|y l2].
    + simpl map2 at 1. rewrite !mask_filter_nil, map2_nil_r. reflexivity.
    + simpl. destruct b; simpl; rewrite IH; reflexivity.
Qed.

Lemma mask_filter_In {A} mask (l : list A) x :
  In x (mask_filter mask l) -> In x l.
Proof.
  revert l. induction mask as [|b mask IH]; intros [|y l]; simpl;
    try tauto.
  destruct b; simpl; intros H; [destruct H|]; auto.
Qed.

Lemma lookup_mask mask cols l :
  lookup (map (fun c => (fst c, mask_series mask (snd c))) cols) l
  = option_map (mask_series mask) (lookup cols l).
Proof.
  induction cols as [|[l0 s0] cols IH]; simpl; [reflexivity|].
  destruct (String.eqb l l0); simpl; auto.
Qed.

Lemma numeric_column_mask mask df l v :
  numeric_column df l = Ok v ->
  numeric_column (mask_frame mask df) l = Ok (mask_filter mask v).
Proof.
  unfold numeric_column, getitem, mask_frame. simpl. rewrite lookup_mask.
  destruct (lookup (columns df) l) as [[v'|v']|]; simpl; congruence.
Qed.

Lemma numeric_column_Ok df l v :
  numeric_column df l = Ok v <-> getitem df l = Some (NumSeries v).
Proof.
  unfold numeric_column.
  destruct (getitem df l) as [[v'|v']|]; split; congruence.
Qed.

Lemma iterrows_length df : length (iterrows df) = len df.
Proof.
  unfold iterrows. rewrite length_combine, length_map, length_seq.
  apply Nat.min_id.
Qed.

Lemma row_get_row_of cols l n i :
  Forall (fun c => series_len (snd c) = n) cols ->
  existsb (String.eqb l) (map fst cols) = true ->
  i < n ->
  exists c, row_get (row_of cols i) l = Ok c.
Proof.
  intros Hal Hhas Hi.
  induction Hal as [|[l0 s0] cols Hlen _ IH]; simpl in *; [discriminate|].
  assert (exists c, series_cell s0 i = Some c) as (c & Hc).
  { destruct s0 as [v|v]; simpl in *.
    - destruct (nth_error v i) eqn:E; simpl; [eauto|].
      apply nth_error_None in E. lia.
    - destruct (nth_error v i) eqn:E; simpl; [eauto|].
      apply nth_error_None in E. lia. }
  rewrite Hc. simpl.
  destruct (String.eqb l l0); simpl in *; eauto.
Qed.

Lemma iterrows_rows_have df l :
  columns_aligned df -> has_column df l = true ->
  Forall (fun p => exists c, row_get (snd p) l = Ok c) (iterrows df).
Proof.
  intros Hal Hhas. apply Forall_forall. intros [idx row] Hin.
  unfold iterrows in Hin. apply in_combine_r in Hin.
  apply in_map_iff in Hin. destruct Hin as (i & <- & Hi).
  apply in_seq in Hi. simpl.
  eapply row_get_row_of; eauto. lia.
Qed.



Lemma numeric_column_replace_same idx cols l v :
  numeric_column (mkDataFrame idx (replace_column cols l (NumSeries v))) l
  = Ok v.
Proof.
  unfold numeric_column, getitem. simpl. rewrite lookup_replace_same.
  reflexivity.
Qed.

Lemma numeric_column_replace_other idx cols l s l' :
  String.eqb l' l = false ->
  numeric_column (mkDataFrame idx (replace_column cols l s)) l'
  = numeric_column (mkDataFrame idx cols) l'.
Proof.
  intros H. unfold numeric_column, getitem. simpl.
  rewrite lookup_replace_other by exact H. reflexivity.
Qed.

Lemma numeric_column_columns idx df l :
  numeric_column (mkDataFrame idx (columns df)) l = numeric_column df l.
Proof. reflexivity. Qed.

(* ===================================================================== *)
(** * The comparison table of the continuous protocol *)
(* ===================================================================== *)

Ltac columns_step :=
  repeat first
    [ rewrite numeric_column_replace_same
    | rewrite numeric_column_replace_other by reflexivity
    | rewrite numeric_column_columns ].

Lemma comparison_full_inv exp_data continuous_df full :
  continuous_comparison_full exp_data continuous_df = Ok full ->
  exists k_s,
    numeric_column exp_data "k_s" = Ok k_s /\
    length continuous_df = len exp_data /\
    len exp_data <= length k_s /\
    full = comparison_columns exp_data
             (map Cont.col_ks_IonTracks continuous_df) k_s.
Proof.
  unfold continuous_comparison_full, setitem.
  rewrite length_map.
  destruct (Nat.eqb (length continuous_df) (len exp_data)) eqn:E1;
    [|discriminate].
  columns_step.
  destruct (numeric_column exp_data "k_s") as [k_s|x] eqn:Hk; [|discriminate].
  unfold len at 1. simpl index.
  rewrite map2_length, length_map.
  destruct (Nat.eqb (Nat.min _ _) _) eqn:E2; [|discriminate].
  apply Nat.eqb_eq in E1, E2. unfold len, float64 in *. simpl index.
  assert (length (index exp_data) <= length k_s) as Hge.
  { rewrite <- E2. apply Nat.le_min_r. }
  columns_step. rewrite Hk. simpl index.
  rewrite map2_length, length_map, map2_length, length_map, E1.
  rewrite !(Nat.min_l _ _ Hge), Nat.eqb_refl.
  columns_step. simpl index.
  rewrite ?length_map, ?map2_length, ?length_map, ?E1,
    ?(Nat.min_l _ _ Hge), Nat.eqb_refl.
  intros H. inversion H; subst full. clear H.
  exists k_s. repeat split; auto.
Qed.

Lemma comparison_full_ok exp_data continuous_df k_s :
  numeric_column exp_data "k_s" = Ok k_s ->
  length continuous_df = len exp_data ->
  len exp_data <= length k_s ->
  continuous_comparison_full exp_data continuous_df
  = Ok (comparison_columns exp_data
          (map Cont.col_ks_IonTracks continuous_df) k_s).
Proof.
  intros Hk Hc Hge. unfold len, float64 in *.
  unfold continuous_comparison_full, setitem, len.
  rewrite length_map, Hc, Nat.eqb_refl.
  columns_step. rewrite Hk. simpl index.
  rewrite map2_length, length_map, Hc, (Nat.min_l _ _ Hge), Nat.eqb_refl.
  columns_step. rewrite Hk. simpl index.
  rewrite map2_length, length_map, map2_length, length_map, Hc,
    !(Nat.min_l _ _ Hge), Nat.eqb_refl.
  columns_step. simpl index.
  rewrite length_map, map2_length, length_map, Hc, (Nat.min_l _ _ Hge),
    Nat.eqb_refl.
  reflexivity.
Qed.

(* ===================================================================== *)
(** * Rows, calls and results of the continuous protocol *)
(* ===================================================================== *)




Lemma aligned_numeric_length df l v :
  columns_aligned df -> numeric_column df l = Ok v -> length v = len df.
Proof.
  unfold columns_aligned, numeric_column, getitem.
  induction (columns df) as [|[l0 s0] cols IH]; simpl; [discriminate|].
  intros Hal. inversion Hal as [|? ? Hs Hrest]; subst.
  destruct (String.eqb l l0); [|auto].
  destruct s0 as [v'|v']; [|discriminate].
  intros H. inversion H; subst. exact Hs.
Qed.

Lemma getitem_comparison_columns_other exp_data sim k_s l :
  ~ In l added_labels ->
  getitem (comparison_columns exp_data sim k_s) l = getitem exp_data l.
Proof.
  intros Hl. unfold getitem, comparison_columns. simpl.
  assert (forall x, In x added_labels -> String.eqb l x = false) as Hne.
  { intros x Hx. apply String.eqb_neq. intros ->. auto. }
  rewrite !lookup_replace_other; [reflexivity| | | |];
    apply Hne; simpl; auto.
Qed.

Section Continuous.

Variable IonTracks_continuous_beam :
  Cont.kwargs -> result (list Cont.result_row).
Variable randint : nat -> Z -> Z -> Z.

Local Abbreviation create :=
  (create_comparison_continuous IonTracks_continuous_beam randint).
Local Abbreviation run := (run_continuous_beam IonTracks_continuous_beam randint).

Lemma determine_seed_spec cfg w :
  determine_seed randint cfg w
  = (base_seed randint cfg w,
     mkWorld (calls w)
       (match seed cfg with Some _ => draws w | None => S (draws w) end)
       (files w)).
Proof.
  unfold determine_seed, base_seed, random_randint, ret.
  destruct (seed cfg); destruct w; reflexivity.
Qed.

(** The calls a run makes: those of the loop, whatever follows it. *)
Lemma create_calls self w :
  Forall (fun p => exists E, row_get (snd p) "Energy_MeV" = Ok E)
    (iterrows (exp_data self)) ->
  calls (snd (create self w))
  = calls w
      ++ flat_map
           (row_calls (simulation (config self))
              (base_seed randint (simulation (config self)) w))
           (iterrows (exp_data self)).
Proof.
  intros Hrows. unfold create_comparison_continuous, bind.
  rewrite determine_seed_spec.
  rewrite (continuous_loop_spec _ _ _ _ Hrows). simpl.
  destruct (map _ _); reflexivity.
Qed.

Lemma run_calls self w :
  calls (snd (run self w)) = calls (snd (create self w)).
Proof.
  unfold run_continuous_beam, bind.
  destruct (create self w) as [[self' [full|x]] w']; simpl; auto.
  destruct (dropna full "k_s_IonTracks"); reflexivity.
Qed.


Lemma row_result_one_row cfg seed p :
  returns_one_row IonTracks_continuous_beam ->
  exists r,
    row_result IonTracks_continuous_beam cfg seed p = [r] /\
    Cont.col_ks_IonTracks r
    = simulated_ks IonTracks_continuous_beam cfg seed p.
Proof.
  intros Hone. unfold row_result, simulated_ks.
  destruct (continuous_kwargs cfg seed (fst p) (snd p)) as [a|x];
    [|eexists; split; reflexivity].
  destruct (IonTracks_continuous_beam a) as [res|x] eqn:Ha;
    [|eexists; split; reflexivity].
  apply Hone in Ha. destruct res as [|r [|r' res]]; try discriminate.
  exists r. split; reflexivity.
Qed.

Lemma results_one_row cfg seed rows :
  returns_one_row IonTracks_continuous_beam ->
  length (concat
            (map (row_result IonTracks_continuous_beam cfg seed) rows))
  = length rows /\
  map Cont.col_ks_IonTracks
    (concat (map (row_result IonTracks_continuous_beam cfg seed) rows))
  = map (simulated_ks IonTracks_continuous_beam cfg seed) rows.
Proof.
  intros Hone. induction rows as [|p rows [IHl IHm]]; simpl; [auto|].
  destruct (row_result_one_row cfg seed p Hone) as (r & -> & Hr).
  simpl. split; congruence.
Qed.

(** The frame built before the NaN rows are removed, when every row has
    its energy and the frame has rows. *)
Lemma create_spec self w :
  Forall (fun p => exists E, row_get (snd p) "Energy_MeV" = Ok E)
    (iterrows (exp_data self)) ->
  0 < len (exp_data self) ->
  let cfg := simulation (config self) in
  let continuous_df :=
    concat (map (row_result IonTracks_continuous_beam cfg
                   (base_seed randint cfg w))
              (iterrows (exp_data self))) in
  create self w
  = ((set_continuous_results self continuous_df,
      continuous_comparison_full (exp_data self) continuous_df),
     snd (create self w)).
Proof.
  intros Hrows Hlen cfg continuous_df.
  unfold create_comparison_continuous, bind.
  rewrite determine_seed_spec.
  rewrite (continuous_loop_spec _ _ _ _ Hrows). simpl app.
  fold cfg. rewrite <- iterrows_length in Hlen.
  destruct (iterrows (exp_data self)) as [|p rows] eqn:Hit;
    [simpl in Hlen; lia|].
  reflexivity.
Qed.

Lemma run_of_create self w self' full w' :
  create self w = ((self', Ok full), w') ->
  run self w
  = match dropna full "k_s_IonTracks" with
    | Raise e => ((self', Raise e), w')
    | Ok clean => ((set_comparison_continuous self' clean, Ok clean), w')
    end.
Proof.
  intros H. unfold run_continuous_beam, bind. rewrite H.
  destruct (dropna full "k_s_IonTracks"); reflexivity.
Qed.

(** The frame built before the NaN rows are removed is [exp_data] with
    the four columns written from the per-row simulated values. *)
Lemma create_one_row self w k_s :
  returns_one_row IonTracks_continuous_beam ->
  columns_aligned (exp_data self) ->
  0 < len (exp_data self) ->
  has_column (exp_data self) "Energy_MeV" = true ->
  numeric_column (exp_data self) "k_s" = Ok k_s ->
  let cfg := simulation (config self) in
  let sim :=
    map (simulated_ks IonTracks_continuous_beam cfg
           (base_seed randint cfg w))
      (iterrows (exp_data self)) in
  exists self' w',
    create self w
    = ((self', Ok (comparison_columns (exp_data self) sim k_s)), w') /\
    comparison_initial self' = comparison_initial self.
Proof.
  intros Hone Haligned Hrows Henergy Hk cfg sim.
  pose proof (iterrows_rows_have _ _ Haligned Henergy) as HE.
  pose proof (create_spec self w HE Hrows) as Hc. simpl in Hc.
  fold cfg in Hc.
  destruct (results_one_row cfg (base_seed randint cfg w)
              (iterrows (exp_data self)) Hone) as [Hl Hm].
  rewrite iterrows_length in Hl.
  rewrite (comparison_full_ok _ _ k_s Hk Hl) in Hc.
  2:{ rewrite (aligned_numeric_length _ _ _ Haligned Hk). apply le_n. }
  rewrite Hm in Hc. fold sim in Hc.
  do 2 eexists. split; [exact Hc|reflexivity].
Qed.

Lemma dropna_comparison_columns exp_data sim k_s :
  dropna (comparison_columns exp_data sim k_s) "k_s_IonTracks"
  = Ok (mask_frame (map (fun x => negb (F64.isna x)) sim)
          (comparison_columns exp_data sim k_s)).
Proof.
  unfold dropna, comparison_columns. columns_step. reflexivity.
Qed.

(** C3. When every call that returns gives one row, the frame built
    before the NaN rows are removed has the index of the input frame
    (as many rows, in the same order) and its other columns unchanged,
    and its [k_s_IonTracks] column holds, row by row, the simulated
    value of that row: the collaborator's value where the call
    returned, NaN where it raised.  The method goes on from that frame
    to the assignment of [comparison_continuous]. *)
Theorem continuous_row_alignment (self : ComparisonRunner) (w : World)
    (Hone : returns_one_row IonTracks_continuous_beam)
    (Haligned : columns_aligned (exp_data self))
    (Hrows : 0 < len (exp_data self))
    (Henergy : has_column (exp_data self) "Energy_MeV" = true)
    (Hks : exists k_s, numeric_column (exp_data self) "k_s" = Ok k_s) :
  let cfg := simulation (config self) in
  let base := fst (determine_seed randint cfg w) in
  exists self' full clean w',
    create self w = ((self', Ok full), w') /\
    len full = len (exp_data self) /\
    index full = index (exp_data self) /\
    (forall l, ~ In l added_labels ->
               getitem full l = getitem (exp_data self) l) /\
    length (iterrows (exp_data self)) = len (exp_data self) /\
    getitem full "k_s_IonTracks"
    = Some (NumSeries
              (map (simulated_ks IonTracks_continuous_beam cfg base)
                 (iterrows (exp_data self)))) /\
    dropna full "k_s_IonTracks" = Ok clean /\
    run self w = ((set_comparison_continuous self' clean, Ok clean), w').
Proof.
  intros cfg base. subst base. rewrite determine_seed_spec. simpl fst.
  destruct Hks as (k_s & Hk).
  destruct (create_one_row self w k_s Hone Haligned Hrows Henergy Hk)
    as (self' & w' & Hc & _).
  fold cfg in Hc.
  exists self'. eexists. eexists. exists w'.
  split; [exact Hc|].
  split; [reflexivity|]. split; [reflexivity|].
  split; [intros l Hl'; apply getitem_comparison_columns_other; exact Hl'|].
  split; [apply iterrows_length|].
  split.
  { apply numeric_column_Ok. unfold comparison_columns. columns_step.
    reflexivity. }
  split; [apply dropna_comparison_columns|].
  rewrite (run_of_create _ _ _ _ _ Hc), dropna_comparison_columns.
  reflexivity.
Qed.

Lemma mask_filter_all_false {A} (l : list A) (v : list float64) :
  Forall (fun x => F64.isna x = true) v ->
  mask_filter (map (fun x => negb (F64.isna x)) v) l = [].
Proof.
  intros H. revert l. induction H as [|x v Hx _ IH]; intros [|y l];
    simpl; auto.
  rewrite Hx. simpl. apply IH.
Qed.

(** C1, what the code does.  When every call raises, on a frame with
    rows, the method raises nothing: each row has contributed its NaN
    frame, so the list of results is not empty, and the method returns
    the comparison table, which has no row, and stores it. *)
Theorem all_rows_fail_returns_empty (self : ComparisonRunner) (w : World)
    (Hfail : forall a, exists x, IonTracks_continuous_beam a = Raise x)
    (Haligned : columns_aligned (exp_data self))
    (Hrows : 0 < len (exp_data self))
    (Henergy : has_column (exp_data self) "Energy_MeV" = true)
    (Hks : exists k_s, numeric_column (exp_data self) "k_s" = Ok k_s) :
  exists self' clean w',
    run self w = ((self', Ok clean), w') /\
    len clean = 0 /\
    comparison_continuous self' = Some clean.
Proof.
  destruct Hks as (k_s & Hk).
  assert (returns_one_row IonTracks_continuous_beam) as Hone.
  { intros a res Ha. destruct (Hfail a) as (x & Hx). congruence. }
  destruct (create_one_row self w k_s Hone Haligned Hrows Henergy Hk)
    as (self' & w' & Hc & _).
  rewrite (run_of_create _ _ _ _ _ Hc), dropna_comparison_columns.
  do 3 eexists. split; [reflexivity|]. split; [|reflexivity].
  unfold len, mask_frame, comparison_columns. simpl index.
  rewrite mask_filter_all_false; [reflexivity|].
  apply Forall_forall. intros x Hx. apply in_map_iff in Hx.
  destruct Hx as (p & <- & _). unfold simulated_ks.
  destruct (continuous_kwargs _ _ _ _) as [a|y]; [|reflexivity].
  destruct (Hfail a) as (y & ->). reflexivity.
Qed.

Lemma continuous_loop_value cfg seed rows :
  forall acc w w',
    fst (continuous_loop IonTracks_continuous_beam cfg seed rows acc w)
    = fst (continuous_loop IonTracks_continuous_beam cfg seed rows acc w').
Proof.
  induction rows as [|[idx row] rows IH]; intros acc w w'; simpl;
    [reflexivity|].
  unfold bind, continuous_try.
  destruct (continuous_kwargs cfg seed idx row) as [a|x]; simpl.
  - destruct (IonTracks_continuous_beam a) as [res|x]; [apply IH|].
    destruct (row_get row "Energy_MeV"); [apply IH|reflexivity].
  - destruct (row_get row "Energy_MeV"); [apply IH|reflexivity].
Qed.

Lemma create_inv self w self' full w' :
  create self w = ((self', Ok full), w') ->
  exists continuous_df,
    self' = set_continuous_results self continuous_df /\
    continuous_comparison_full (exp_data self) continuous_df = Ok full.
Proof.
  unfold create_comparison_continuous, bind.
  destruct (determine_seed randint _ w) as [s w1].
  destruct (continuous_loop _ _ _ _ _ w1) as [[[|res l]|x] w2];
    unfold ret; intros H; inversion H as [[Hs Hf Hw]].
  exists (concat (res :: l)). split; reflexivity.
Qed.

(** What a run of the continuous phase leaves in the runner. *)
Lemma create_frame self w :
  let self' := fst (fst (create self w)) in
  config self' = config self /\ exp_data self' = exp_data self /\
  initial_results self' = initial_results self /\
  comparison_initial self' = comparison_initial self /\
  comparison_continuous self' = comparison_continuous self.
Proof.
  unfold create_comparison_continuous, bind.
  destruct (determine_seed randint _ w) as [s w1].
  destruct (continuous_loop _ _ _ _ _ w1) as [[[|res l]|x] w2];
    simpl; auto.
Qed.

Lemma run_continuous_frame self w :
  let self' := fst (fst (run self w)) in
  config self' = config self /\ exp_data self' = exp_data self /\
  initial_results self' = initial_results self /\
  comparison_initial self' = comparison_initial self /\
  match snd (fst (run self w)) with
  | Ok df => comparison_continuous self' = Some df
  | Raise _ => comparison_continuous self' = comparison_continuous self
  end.
Proof.
  pose proof (create_frame self w) as H.
  unfold run_continuous_beam, bind.
  destruct (create self w) as [[self1 [full|x]] w1]; simpl in *.
  - destruct (dropna full "k_s_IonTracks"); simpl; intuition.
  - intuition.
Qed.

End Continuous.

(* ===================================================================== *)
(** * The initial-recombination protocol *)
(* ===================================================================== *)

Lemma initial_comparison_loop_invariant (P : initial_record -> Prop)
    exp_data initial_results energies_MeV :
  (forall r, record_formulas r -> record_reference exp_data r -> P r) ->
  forall acc l,
    Forall P acc ->
    initial_comparison_loop exp_data initial_results energies_MeV acc = Ok l ->
    Forall P l.
Proof.
  intros HP.
  induction energies_MeV as [|e es IH]; intros acc l Hacc; simpl.
  - intros H. inversion H; subst. exact Hacc.
  - destruct (numeric_column exp_data "Energy_MeV") as [ecol|x] eqn:He;
      [|discriminate].
    destruct (numeric_column exp_data "k_s") as [kcol|x] eqn:Hk;
      [|discriminate].
    destruct (filter _ initial_results) as [|r rs]; [apply IH; exact Hacc|].
    apply IH. apply Forall_app. split; [exact Hacc|].
    constructor; [|constructor]. apply HP.
    + split; reflexivity.
    + exists ecol, kcol. repeat split; auto.
Qed.

Section Initial.

Variable ks_initial_IonTracks : Init.kwargs -> result (list Init.result_row).

Local Abbreviation run := (run_initial_recombination ks_initial_IonTracks).

Lemma initial_loop_value cfg energies :
  forall acc w w',
    fst (initial_loop ks_initial_IonTracks cfg energies acc w)
    = fst (initial_loop ks_initial_IonTracks cfg energies acc w').
Proof.
  induction energies as [|e es IH]; intros acc w w'; simpl; [reflexivity|].
  unfold bind, call_initial.
  destruct (ks_initial_IonTracks _); apply IH.
Qed.

(** What a run of the initial phase leaves in the runner. *)
Lemma run_initial_frame self w :
  let self' := fst (fst (run self w)) in
  config self' = config self /\ exp_data self' = exp_data self /\
  continuous_results self' = continuous_results self /\
  comparison_continuous self' = comparison_continuous self /\
  match snd (fst (run self w)) with
  | Ok df => comparison_initial self' = Some df
  | Raise _ => comparison_initial self' = comparison_initial self
  end.
Proof.
  unfold run_initial_recombination.
  destruct (numeric_column (exp_data self) "Energy_MeV") as [ecol|x];
    [|simpl; auto 6].
  unfold bind.
  destruct (initial_loop _ _ _ _ w) as [[|res l] w1]; [simpl; auto 6|].
  destruct (initial_comparison_loop _ _ _ _); simpl; auto 6.
Qed.

Lemma run_initial_result_indep self1 self2 w1 w2 :
  config self1 = config self2 -> exp_data self1 = exp_data self2 ->
  snd (fst (run self1 w1)) = snd (fst (run self2 w2)).
Proof.
  intros Hc He. unfold run_initial_recombination. rewrite Hc, He.
  destruct (numeric_column (exp_data self2) "Energy_MeV") as [ecol|x];
    [|reflexivity].
  unfold bind.
  pose proof (initial_loop_value (simulation (config self2))
                (sorted (unique ecol)) [] w1 w2) as Hv.
  destruct (initial_loop _ _ _ _ w1) as [l1 w1'].
  destruct (initial_loop _ _ _ _ w2) as [l2 w2'].
  simpl in Hv. subst l2.
  destruct l1 as [|res l]; [reflexivity|].
  cbn [exp_data set_initial_results]. rewrite He.
  destruct (initial_comparison_loop _ _ _ _); reflexivity.
Qed.

(** The records behind the table a successful run returns. *)
Lemma run_initial_records (P : initial_record -> Prop) self w self' df w' :
  (forall r, record_formulas r -> record_reference (exp_data self) r ->
             P r) ->
  run self w = ((self', Ok df), w') ->
  exists l, df = DataFrame_of_records l /\ Forall P l.
Proof.
  intros HP. unfold run_initial_recombination.
  destruct (numeric_column (exp_data self) "Energy_MeV") as [ecol|x];
    [|intros H; inversion H].
  unfold bind.
  destruct (initial_loop _ _ _ _ w) as [[|res l] w1];
    [intros H; inversion H|].
  destruct (initial_comparison_loop _ _ _ _) as [recs|x] eqn:Hl;
    intros H; inversion H; subst.
  exists recs. split; [reflexivity|].
  eapply initial_comparison_loop_invariant; [exact HP| |exact Hl].
  constructor.
Qed.

End Initial.

(* ===================================================================== *)
(** * Positivity of the validated k_s column *)
(* ===================================================================== *)

Lemma lookup_In cols l s : lookup cols l = Some s -> In (l, s) cols.
Proof.
  induction cols as [|[l0 s0] cols IH]; simpl; [discriminate|].
  destruct (String.eqb l l0) eqn:E; [|auto].
  apply String.eqb_eq in E. subst. intros H. inversion H. auto.
Qed.

Lemma NoDup_lookup cols l s :
  NoDup (map fst cols) -> In (l, s) cols -> lookup cols l = Some s.
Proof.
  induction cols as [|[l0 s0] cols IH]; simpl; [tauto|].
  intros Hnd Hin. inversion Hnd as [|? ? Hnot Hnd']; subst.
  destruct Hin as [Heq|Hin].
  - inversion Heq; subst. rewrite String.eqb_refl. reflexivity.
  - destruct (String.eqb l l0) eqn:E; [|auto].
    apply String.eqb_eq in E. subst l0. exfalso. apply Hnot.
    apply in_map_iff. exists (l, s). auto.
Qed.

Lemma isna_sum_zero (v : list float64) :
  length (filter F64.isna v) = 0 -> Forall (fun x => F64.isna x = false) v.
Proof.
  induction v as [|x v IH]; simpl; [constructor|].
  destruct (F64.isna x) eqn:E; simpl; [discriminate|].
  intros H. constructor; auto.
Qed.

Lemma validated_column_positive df e k d :
  fst (validate_experimental_data df e k d) = true ->
  exists v,
    getitem df k = Some (NumSeries v) /\
    Forall (fun x => F64.ltb F64.zero x = true) v.
Proof.
  unfold validate_experimental_data. fold (missing_columns df e k d).
  destruct (missing_columns df e k d) eqn:Hm; [|discriminate].
  destruct (Nat.eqb (len df) 0); [discriminate|].
  cbn [fst].
  apply missing_columns_nil in Hm. destruct Hm as (_ & Hk & _).
  apply has_column_true in Hk. destruct Hk as (s & Hs).
  match goal with
  | |- match ?l with _ => _ end = true -> _ => destruct l eqn:Herr
  end; [|discriminate].
  intros _.
  apply app_eq_nil in Herr. destruct Herr as [Hnan Hrange].
  apply app_eq_nil in Hrange. destruct Hrange as [_ Hrange].
  apply app_eq_nil in Hrange. destruct Hrange as [Hrange _].
  unfold range_errors in Hrange. rewrite Hs in Hrange.
  destruct s as [v|v]; [|discriminate].
  destruct (any_le_zero v) eqn:Hle; [discriminate|].
  exists v. split; [exact Hs|].
  assert (Forall (fun x => F64.isna x = false) v) as Hna.
  { apply isna_sum_zero.
    destruct (length (filter F64.isna v)) as [|n] eqn:Hn; [reflexivity|].
    exfalso.
    assert (In (Contains_NaN_values k (isna_sum (NumSeries v)))
              (nan_errors df [e; k; d])) as Hin.
    { apply In_nan_errors. exists k, (NumSeries v).
      repeat split; simpl; auto. lia. }
    rewrite Hnan in Hin. inversion Hin. }
  rewrite Forall_forall in *. intros x Hx.
  apply leb_zero_false_positive; [auto|].
  unfold any_le_zero in Hle.
  destruct (F64.leb x F64.zero) eqn:Hx0; [|reflexivity].
  assert (existsb (fun x => F64.leb x F64.zero) v = true) as Hex.
  { apply existsb_exists. eauto. }
  congruence.
Qed.

Lemma labelled_In df l s : In s (labelled df l) -> In (l, s) (columns df).
Proof.
  unfold labelled. intros H. apply in_map_iff in H.
  destruct H as ([l' s'] & Hs & Hin). simpl in Hs. subst s'.
  apply filter_In in Hin. destruct Hin as [Hin E]. simpl in E.
  apply String.eqb_eq in E. subst. exact Hin.
Qed.

Lemma labelled_getitem df l s rest :
  labelled df l = s :: rest -> getitem df l = Some s.
Proof.
  unfold labelled, getitem.
  induction (columns df) as [|[l0 s0] cols IH]; simpl; [discriminate|].
  destruct (String.eqb l l0); simpl; [|exact IH].
  intros H. inversion H. reflexivity.
Qed.

Lemma labelled_unique df l s :
  unique_labels df -> getitem df l = Some s -> labelled df l = [s].
Proof.
  unfold unique_labels, labelled, getitem, labels.
  induction (columns df) as [|[l0 s0] cols IH]; simpl; [discriminate|].
  intros Hnd. inversion Hnd as [|? ? Hnot Hnd']; subst.
  destruct (String.eqb l l0) eqn:E; simpl.
  - intros H. inversion H; subst. f_equal.
    apply String.eqb_eq in E. subst l0.
    clear IH Hnd Hnd' H. induction cols as [|[l1 s1] cols IH]; [reflexivity|].
    simpl in *. destruct (String.eqb l l1) eqn:E1.
    + apply String.eqb_eq in E1. subst. exfalso. apply Hnot. auto.
    + apply IH. intros Hin. apply Hnot. auto.
  - apply IH. exact Hnd'.
Qed.

(** What a successful [add_dose_rate_Gy_min] returns. *)
Lemma add_dose_rate_inv df exp_data :
  add_dose_rate_Gy_min df = Ok exp_data ->
  (has_column df "dose_rate_Gy_min" = true /\ exp_data = df) \/
  (has_column df "dose_rate_Gy_min" = false /\
   exists s0 s,
     labelled df "dose_rate_Gy_s" = [s0] /\
     exp_data
     = mkDataFrame (index df) (columns df ++ [("dose_rate_Gy_min", s)]) /\
     series_len s = series_len s0 /\
     forall v, s0 = NumSeries v -> s = NumSeries (times_60 v)).
Proof.
  unfold add_dose_rate_Gy_min.
  destruct (has_column df "dose_rate_Gy_min").
  - intros H. inversion H. auto.
  - destruct (labelled df "dose_rate_Gy_s") as [|[v|v] [|s1 rest]];
      try discriminate; intros H; inversion H; right; split; auto;
      do 2 eexists; (split; [reflexivity|]); (split; [reflexivity|]);
      split.
    + simpl. unfold times_60. apply length_map.
    + intros v0 Hv. inversion Hv. reflexivity.
    + simpl. apply length_map.
    + intros v0 Hv. discriminate.
Qed.

Lemma load_inv df ec kc dc exp_data :
  load_experimental_data (Parsed df) ec kc dc = Ok exp_data ->
  exists e k d,
    resolve_energy df ec = Ok e /\ resolve_ks df kc = Ok k /\
    resolve_dose_rate df dc = Ok d /\
    fst (validate_experimental_data df e k d) = true /\
    add_dose_rate_Gy_min (rename df e k d) = Ok exp_data.
Proof.
  unfold load_experimental_data.
  destruct (resolve_energy df ec) as [e|x]; [|discriminate].
  destruct (resolve_ks df kc) as [k|x]; [|discriminate].
  destruct (resolve_dose_rate df dc) as [d|x]; [|discriminate].
  destruct (validate_experimental_data df e k d) as [ok errs] eqn:Hv.
  destruct ok; cbn [negb]; [|discriminate].
  destruct (add_dose_rate_Gy_min (rename df e k d)) as [df'|x] eqn:Ha;
    [|discriminate].
  destruct (energies_message df'); [|discriminate].
  intros H. inversion H; subst. exists e, k, d. rewrite Hv. auto.
Qed.

Lemma add_dose_rate_In df exp_data c :
  add_dose_rate_Gy_min df = Ok exp_data ->
  In c (columns df) -> In c (columns exp_data).
Proof.
  intros H. apply add_dose_rate_inv in H.
  destruct H as [[_ ->]|(_ & s0 & s & _ & -> & _)]; [auto|].
  simpl. intros Hin. apply in_or_app. auto.
Qed.

(** The canonical k_s column of a loaded frame is the validated column,
    when the k_s role has a column of its own and labels are unique. *)
Lemma loaded_k_s_positive df ec kc dc exp_data k d :
  load_experimental_data (Parsed df) ec kc dc = Ok exp_data ->
  resolve_ks df kc = Ok k -> resolve_dose_rate df dc = Ok d ->
  k <> d -> unique_labels exp_data ->
  exists v,
    numeric_column exp_data "k_s" = Ok v /\
    Forall (fun x => F64.ltb F64.zero x = true) v.
Proof.
  intros Hload Hk Hd Hne Huniq.
  destruct (load_inv _ _ _ _ _ Hload)
    as (e & k' & d' & He & Hk' & Hd' & Hv & Hadd).
  assert (k' = k) by congruence. assert (d' = d) by congruence. subst k' d'.
  destruct (validated_column_positive _ _ _ _ Hv) as (v & Hg & Hpos).
  exists v. split; [|exact Hpos].
  apply numeric_column_Ok. unfold getitem.
  apply NoDup_lookup; [exact Huniq|].
  eapply add_dose_rate_In; [exact Hadd|].
  unfold rename. simpl. apply in_map_iff.
  exists (k, NumSeries v). split; [|apply lookup_In; exact Hg].
  simpl. unfold rename_label.
  apply String.eqb_neq in Hne. rewrite Hne, String.eqb_refl. reflexivity.
Qed.

(** What the runner can hold: a loaded frame has rows, the index of the
    file, the per-minute dose rate, and aligned columns when the file's
    columns are. *)
Lemma loaded_frame_rows df ec kc dc exp_data :
  load_experimental_data (Parsed df) ec kc dc = Ok exp_data ->
  0 < len exp_data /\ index exp_data = index df /\
  has_column exp_data "dose_rate_Gy_min" = true.
Proof.
  intros Hload.
  destruct (load_inv _ _ _ _ _ Hload) as (e & k & d & _ & _ & _ & Hv & Hadd).
  assert (len df <> 0) as Hlen.
  { unfold validate_experimental_data in Hv.
    destruct (filter _ [e; k; d]); [|discriminate].
    destruct (Nat.eqb_spec (len df) 0); [discriminate|assumption]. }
  apply add_dose_rate_inv in Hadd.
  destruct Hadd as [[Hhas ->]|(_ & s0 & s & _ & -> & _)].
  - unfold len in *. simpl. repeat split; auto. lia.
  - unfold len in *. simpl.
    repeat split; [lia|].
    unfold has_column, labels. simpl. rewrite map_app, existsb_app. simpl.
    apply orb_true_r.
Qed.

Lemma loaded_frame_aligned df ec kc dc exp_data :
  load_experimental_data (Parsed df) ec kc dc = Ok exp_data ->
  columns_aligned df -> columns_aligned exp_data.
Proof.
  intros Hload Hal.
  destruct (load_inv _ _ _ _ _ Hload) as (e & k & d & _ & _ & _ & _ & Hadd).
  assert (columns_aligned (rename df e k d)) as Hren.
  { unfold columns_aligned, rename, len in *. simpl.
    rewrite Forall_map. simpl. exact Hal. }
  apply add_dose_rate_inv in Hadd.
  destruct Hadd as [[_ ->]|(_ & s0 & s & Hl & -> & Hlen & _)];
    [exact Hren|].
  unfold columns_aligned, len in *. simpl in *.
  apply Forall_app. split; [exact Hren|].
  constructor; [|constructor]. simpl. rewrite Hlen.
  assert (In s0 (labelled (rename df e k d) "dose_rate_Gy_s")) as Hin
    by (rewrite Hl; simpl; auto).
  apply labelled_In in Hin.
  rewrite Forall_forall in Hren. exact (Hren _ Hin).
Qed.

Lemma fold_min_In (rest : list float64) (x : float64) :
  In (fold_left (fun m y => if F64.ltb y m then y else m) rest x) (x :: rest).
Proof.
  revert x. induction rest as [|y rest IH]; intros x; simpl; [auto|].
  destruct (F64.ltb y x).
  - destruct (IH y) as [H|H]; auto.
  - destruct (IH x) as [H|H]; auto.
Qed.

Lemma series_min_nonzero (v sub : list float64) :
  Forall (fun x => F64.ltb F64.zero x = true) v ->
  (forall x, In x sub -> In x v) ->
  F64.eqb (series_min sub) F64.zero = false.
Proof.
  intros Hpos Hsub. unfold series_min.
  destruct (filter (fun x => negb (F64.isna x)) sub) as [|x rest] eqn:Hf;
    [reflexivity|].
  apply positive_not_zero. rewrite Forall_forall in Hpos. apply Hpos.
  apply Hsub.
  assert (In (fold_left (fun m y => if F64.ltb y m then y else m) rest x)
            (filter (fun x => negb (F64.isna x)) sub)) as Hin.
  { rewrite Hf. apply fold_min_In. }
  apply filter_In in Hin. tauto.
Qed.

(* ===================================================================== *)
(** * Both protocols *)
(* ===================================================================== *)

Section Phases.

Variable ks_initial_IonTracks : Init.kwargs -> result (list Init.result_row).
Variable IonTracks_continuous_beam :
  Cont.kwargs -> result (list Cont.result_row).
Variable randint : nat -> Z -> Z -> Z.

Local Abbreviation run_initial :=
  (run_initial_recombination ks_initial_IonTracks).
Local Abbreviation run_continuous :=
  (run_continuous_beam IonTracks_continuous_beam randint).

(** The k_s column of the table of a continuous run is a selection of
    rows of the experimental k_s column. *)
Lemma run_continuous_k_s self w self' df w' v :
  run_continuous self w = ((self', Ok df), w') ->
  numeric_column (exp_data self) "k_s" = Ok v ->
  exists mask, numeric_column df "k_s" = Ok (mask_filter mask v).
Proof.
  unfold run_continuous_beam, bind.
  destruct (create_comparison_continuous _ _ self w)
    as [[self1 [full|x]] w1] eqn:Hc; [|intros H; inversion H].
  destruct (create_inv _ _ _ _ _ _ _ Hc) as (cdf & _ & Hfull).
  destruct (comparison_full_inv _ _ _ Hfull) as (k_s & Hk & _ & _ & ->).
  rewrite dropna_comparison_columns. intros H Hv. inversion H; subst.
  eexists. apply numeric_column_mask. unfold comparison_columns.
  columns_step. congruence.
Qed.

Lemma save_results_spec self w :
  save_results self w
  = (tt, mkWorld (calls w) (draws w)
           (files w ++ saved_initial self ++ saved_continuous self)).
Proof.
  unfold save_results, saved_initial, saved_continuous, bind, to_csv, ret.
  destruct (comparison_initial self) as [di|];
    destruct (comparison_continuous self) as [dc|];
    try destruct (Nat.ltb 0 (len di)); try destruct (Nat.ltb 0 (len dc));
    simpl; rewrite ?app_nil_r, <- ?app_assoc; destruct w; reflexivity.
Qed.

(** C10 as amended.  In a frame that passed validation every value of
    the validated k_s column is strictly positive.  When the k_s role
    and the dose-rate role are resolved to different columns and the
    labels of the loaded frame are unique, the canonical k_s column is
    that column; and a runner whose k_s column is strictly positive
    divides by a non-zero reference in every record of the initial
    protocol and by strictly positive values in the continuous one. *)
Theorem validated_k_s_divisors :
  (forall df e k d,
      fst (validate_experimental_data df e k d) = true ->
      exists v,
        getitem df k = Some (NumSeries v) /\
        Forall (fun x => F64.ltb F64.zero x = true) v) /\
  (forall df ec kc dc exp_data k d,
      load_experimental_data (Parsed df) ec kc dc = Ok exp_data ->
      resolve_ks df kc = Ok k -> resolve_dose_rate df dc = Ok d ->
      k <> d -> unique_labels exp_data ->
      exists v,
        numeric_column exp_data "k_s" = Ok v /\
        Forall (fun x => F64.ltb F64.zero x = true) v) /\
  (forall self w self' df w' v,
      numeric_column (exp_data self) "k_s" = Ok v ->
      Forall (fun x => F64.ltb F64.zero x = true) v ->
      run_initial self w = ((self', Ok df), w') ->
      exists l,
        df = DataFrame_of_records l /\
        Forall (fun r => F64.eqb (rec_k_s_experimental r) F64.zero = false)
          l) /\
  (forall self w self' df w' v,
      numeric_column (exp_data self) "k_s" = Ok v ->
      Forall (fun x => F64.ltb F64.zero x = true) v ->
      run_continuous self w = ((self', Ok df), w') ->
      exists k_s,
        numeric_column df "k_s" = Ok k_s /\
        Forall (fun x => F64.ltb F64.zero x = true) k_s).
Proof.
  split; [apply validated_column_positive|].
  split; [apply loaded_k_s_positive|]. split.
  - intros self w self' df w' v Hv Hpos Hrun.
    eapply run_initial_records; [|exact Hrun].
    intros r _ (ecol & kcol & _ & Hk & ->).
    apply (series_min_nonzero v); [exact Hpos|].
    intros x Hx. apply mask_filter_In in Hx. congruence.
  - intros self w self' df w' v Hv Hpos Hrun.
    destruct (run_continuous_k_s _ _ _ _ _ _ Hrun Hv) as (mask & Hk).
    eexists. split; [exact Hk|].
    rewrite Forall_forall in *. intros x Hx.
    apply Hpos. eapply mask_filter_In; exact Hx.
Qed.

End Phases.

(* ===================================================================== *)
(** * The protocols on concrete data *)
(* ===================================================================== *)

Example load_two_energies :
  load_experimental_data (Parsed two_energies_csv) None None None
  = Ok two_energies.
Proof. vm_compute. reflexivity. Qed.

Example load_one_row :
  load_experimental_data (Parsed one_row_csv) None None None = Ok one_row.
Proof. vm_compute. reflexivity. Qed.

Lemma two_energies_aligned : columns_aligned two_energies.
Proof. unfold columns_aligned. repeat constructor. Qed.

Lemma two_energies_unique : unique_labels two_energies.
Proof.
  unfold unique_labels. simpl.
  repeat (constructor; [simpl; intuition discriminate|]). constructor.
Qed.

Lemma stub_continuous_one_row failing :
  returns_one_row (stub_continuous failing).
Proof.
  intros a res. unfold stub_continuous.
  destruct (existsb _ failing); intros H; inversion H. reflexivity.
Qed.

Lemma all_rows_fail_returns_empty_witness :
  exists self' clean w',
    run_continuous_beam always_raises lowest_draw
      (two_energies_runner (Some 42%Z)) initial_world
    = ((self', Ok clean), w') /\
    len clean = 0 /\
    comparison_continuous self' = Some clean.
Proof.
  apply (all_rows_fail_returns_empty always_raises lowest_draw
           (two_energies_runner (Some 42%Z)) initial_world).
  - intros a. eexists. reflexivity.
  - exact two_energies_aligned.
  - vm_compute. lia.
  - reflexivity.
  - eexists. reflexivity.
Defined.

Lemma continuous_row_alignment_witness :
  exists self' full clean w',
    create_comparison_continuous (stub_continuous [45%Z]) lowest_draw
      (two_energies_runner (Some 42%Z)) initial_world
    = ((self', Ok full), w') /\
    len full = 6 /\
    getitem full "k_s_IonTracks"
    = Some (NumSeries
              (map (simulated_ks (stub_continuous [45%Z])
                      (default_simulation (Some 42%Z)) 42%Z)
                 (iterrows two_energies))) /\
    dropna full "k_s_IonTracks" = Ok clean.
Proof.
  destruct (continuous_row_alignment (stub_continuous [45%Z]) lowest_draw
              (two_energies_runner (Some 42%Z)) initial_world
              (stub_continuous_one_row [45%Z]) two_energies_aligned)
    as (self' & full & clean & w' & H1 & H2 & _ & _ & _ & H3 & H4 & _).
  - vm_compute. lia.
  - reflexivity.
  - eexists. reflexivity.
  - exists self', full, clean, w'. auto.
Defined.



Lemma validation_reports_witness :
  In (Must_be_numeric "Energy_MeV")
    (snd (validate_experimental_data two_violations_csv "Energy_MeV" "k_s"
            "dose_rate_air_Gy_s")) /\
  In (Contains_negative_values "dose_rate_air_Gy_s")
    (snd (validate_experimental_data two_violations_csv "Energy_MeV" "k_s"
            "dose_rate_air_Gy_s")).
Proof.
  destruct (proj2 (proj2 (validation_reports two_violations_csv "Energy_MeV"
                            "k_s" "dose_rate_air_Gy_s")))
    as [Hall _]; [reflexivity | vm_compute; lia |].
  split; apply Hall.
  - split; [simpl; auto|]. eexists. split; reflexivity.
  - split; [reflexivity|]. eexists. split; [reflexivity|].
    constructor. reflexivity.
Defined.

Lemma reconstruction_not_exact :
  ~ (forall ks_initial_IonTracks self w self' df w',
        run_initial_recombination ks_initial_IonTracks self w
        = ((self', Ok df), w') ->
        forall e d s,
          numeric_column df "k_s_experimental" = Ok e ->
          numeric_column df "difference" = Ok d ->
          numeric_column df "k_s_IonTracks" = Ok s ->
          map2 F64.add e d = s).
Proof.
  intros H.
  pose (out := run_initial_recombination stub_initial_tenth one_row_runner
                 initial_world).
  assert (run_initial_recombination stub_initial_tenth one_row_runner
            initial_world = out) as E by reflexivity.
  vm_compute in out.
  specialize (H _ _ _ _ _ _ E _ _ _ eq_refl eq_refl eq_refl).
  vm_compute in H. discriminate H.
Qed.


Lemma validated_k_s_divisors_witness :
  exists v,
    numeric_column two_energies "k_s" = Ok v /\
    Forall (fun x => F64.ltb F64.zero x = true) v.
Proof.
  apply (proj1 (proj2 (validated_k_s_divisors stub_initial
                         (stub_continuous []) lowest_draw))
           two_energies_csv None None None two_energies
           "k_s" "dose_rate_air_Gy_s").
  - exact load_two_energies.
  - reflexivity.
  - reflexivity.
  - discriminate.
  - exact two_energies_unique.
Defined.

(** C10, the claim as stated fails: when the column [x] is configured for
    both the k_s role and the dose-rate role, validation passes on [x],
    [x] becomes [dose_rate_Gy_s], and the column already labelled [k_s],
    which holds a zero, is the one the continuous protocol divides by. *)
Lemma division_by_zero_after_validation :
  ~ (forall df ec kc dc exp_data cfg IonTracks_continuous_beam randint
            w self' table w',
        load_experimental_data (Parsed df) ec kc dc = Ok exp_data ->
        run_continuous_beam IonTracks_continuous_beam randint
          (mkRunner cfg exp_data None None None None) w
        = ((self', Ok table), w') ->
        forall k_s,
          numeric_column table "k_s" = Ok k_s ->
          Forall (fun x => F64.eqb x F64.zero = false) k_s).
Proof.
  intros H.
  pose (exp := load_experimental_data (Parsed shared_column_csv) None
                 (Some "x") (Some "x")).
  assert (load_experimental_data (Parsed shared_column_csv) None (Some "x")
            (Some "x") = exp) as L by reflexivity.
  vm_compute in exp.
  match eval unfold exp in exp with
  | Ok ?d =>
      pose (out := run_continuous_beam (stub_continuous []) lowest_draw
                     (mkRunner (default_config (Parsed shared_column_csv)
                                  (Some 1%Z)) d None None None None)
                     initial_world);
      assert (run_continuous_beam (stub_continuous []) lowest_draw
                (mkRunner (default_config (Parsed shared_column_csv)
                             (Some 1%Z)) d None None None None)
                initial_world = out) as E by reflexivity
  end.
  vm_compute in out.
  specialize (H _ _ _ _ _ _ _ _ _ _ _ _ L E _ eq_refl).
  inversion H as [|x l Hx Hl]. vm_compute in Hx. discriminate Hx.
Qed.

(* ===================================================================== *)
(** * The order of float64 values *)
(* ===================================================================== *)

Lemma SFcompare_antisym (x y : float64) :
  SFcompare y x = option_map CompOpp (SFcompare x y).
Proof.
  destruct x as [sx|sx| |sx mx ex], y as [sy|sy| |sy my ey]; simpl;
    try reflexivity; destruct sx, sy; simpl; try reflexivity;
    rewrite (Z.compare_antisym ex ey); destruct (Z.compare ex ey); simpl;
    try reflexivity;
    pose proof (Pos.compare_cont_antisym mx my Eq) as H; simpl in H;
    rewrite <- H; destruct (Pos.compare_cont Eq mx my); reflexivity.
Qed.

Lemma positive_spec (x : float64) :
  F64.ltb F64.zero x = true <->
  F64.isna x = false /\ F64.leb x F64.zero = false.
Proof.
  unfold F64.isna, F64.leb, F64.ltb, F64.zero, SFleb, SFltb.
  destruct x as [s|s| |s m e]; simpl; try destruct s; simpl;
    intuition congruence.
Qed.

Lemma not_negative_spec (x : float64) :
  F64.leb F64.zero x = true <->
  F64.isna x = false /\ F64.ltb x F64.zero = false.
Proof.
  unfold F64.isna, F64.leb, F64.ltb, F64.zero, SFleb, SFltb.
  destruct x as [s|s| |s m e]; simpl; try destruct s; simpl;
    intuition congruence.
Qed.

(* ===================================================================== *)
(** * What a passed validation means *)
(* ===================================================================== *)

Lemma no_NaN_count (v : list float64) :
  Forall (fun x => F64.isna x = false) v -> length (filter F64.isna v) = 0.
Proof.
  induction 1 as [|x v Hx _ IH]; simpl; [reflexivity|].
  rewrite Hx. exact IH.
Qed.

Lemma validate_true_inv df e k d :
  fst (validate_experimental_data df e k d) = true ->
  missing_columns df e k d = [] /\ len df <> 0 /\
  forall err, ~ violation df e k d err.
Proof.
  unfold validate_experimental_data. fold (missing_columns df e k d).
  destruct (missing_columns df e k d) eqn:Hm; [|discriminate].
  destruct (Nat.eqb_spec (len df) 0) as [|Hlen]; [discriminate|].
  cbn [fst].
  match goal with
  | |- match ?l with _ => _ end = true -> _ => destruct l eqn:Herr
  end; [|discriminate].
  intros _. repeat split; auto.
  intros err Hv. apply collected_errors_spec in Hv.
  rewrite Herr in Hv. inversion Hv.
Qed.

Lemma no_violation_column df e k d c :
  (forall err, ~ violation df e k d err) ->
  In c [e; k; d] -> has_column df c = true ->
  exists v,
    getitem df c = Some (NumSeries v) /\
    Forall (fun x => F64.isna x = false) v.
Proof.
  intros Hno Hin Hc. apply has_column_true in Hc. destruct Hc as (s & Hs).
  destruct s as [v|v].
  - exists v. split; [exact Hs|]. apply isna_sum_zero.
    destruct (length (filter F64.isna v)) as [|n] eqn:Hn; [reflexivity|].
    exfalso. apply (Hno (Contains_NaN_values c (S n))). simpl.
    split; [exact Hin|]. exists (NumSeries v). simpl. repeat split; auto.
    lia.
  - exfalso. apply (Hno (Must_be_numeric c)). simpl.
    split; [exact Hin|]. exists (ObjSeries v). auto.
Qed.

Lemma validation_sound df e k d :
  fst (validate_experimental_data df e k d) = true -> valid_dataset df e k d.
Proof.
  intros H. apply validate_true_inv in H. destruct H as (Hm & Hlen & Hno).
  apply missing_columns_nil in Hm. destruct Hm as (He & Hk & Hd).
  split; [exact Hlen|]. split; [|split].
  - destruct (no_violation_column df e k d e Hno) as (v & Hg & Hna);
      [simpl; auto|exact He|].
    exists v. split; [exact Hg|].
    rewrite Forall_forall in *. intros x Hx. apply positive_spec.
    split; [auto|].
    destruct (F64.leb x F64.zero) eqn:Hle; [|reflexivity].
    exfalso. apply (Hno (Contains_non_positive_values e)). simpl.
    split; [auto|]. exists v. split; [exact Hg|].
    apply Exists_exists. eauto.
  - destruct (no_violation_column df e k d k Hno) as (v & Hg & Hna);
      [simpl; auto|exact Hk|].
    exists v. split; [exact Hg|].
    rewrite Forall_forall in *. intros x Hx. apply positive_spec.
    split; [auto|].
    destruct (F64.leb x F64.zero) eqn:Hle; [|reflexivity].
    exfalso. apply (Hno (Contains_non_positive_values k)). simpl.
    split; [auto|]. exists v. split; [exact Hg|].
    apply Exists_exists. eauto.
  - destruct (no_violation_column df e k d d Hno) as (v & Hg & Hna);
      [simpl; auto|exact Hd|].
    exists v. split; [exact Hg|].
    rewrite Forall_forall in *. intros x Hx. apply not_negative_spec.
    split; [auto|].
    destruct (F64.ltb x F64.zero) eqn:Hlt; [|reflexivity].
    exfalso. apply (Hno (Contains_negative_values d)). simpl.
    split; [auto|]. exists v. split; [exact Hg|].
    apply Exists_exists. eauto.
Qed.

Lemma column_values_no_NaN df c ok v :
  (forall x, ok x = true -> F64.isna x = false) ->
  column_values df c ok -> getitem df c = Some (NumSeries v) ->
  Forall (fun x => F64.isna x = false) v /\ Forall (fun x => ok x = true) v.
Proof.
  intros Hok (v' & Hg & Hall) Hv. rewrite Hv in Hg. inversion Hg; subst v'.
  split; [|exact Hall]. rewrite Forall_forall in *. auto.
Qed.

Lemma validation_complete df e k d :
  valid_dataset df e k d -> fst (validate_experimental_data df e k d) = true.
Proof.
  intros (Hlen & He & Hk & Hd).
  assert (forall x, F64.ltb F64.zero x = true -> F64.isna x = false) as Hpos.
  { intros x Hx. apply positive_spec in Hx. tauto. }
  assert (forall x, F64.leb F64.zero x = true -> F64.isna x = false) as Hnn.
  { intros x Hx. apply not_negative_spec in Hx. tauto. }
  assert (forall c s, In c [e; k; d] -> getitem df c = Some s ->
            exists v, s = NumSeries v /\
                      Forall (fun x => F64.isna x = false) v) as Hnum.
  { intros c s Hin Hs.
    destruct He as (ve & Hge & Hae), Hk as (vk & Hgk & Hak),
             Hd as (vd & Hgd & Had).
    simpl in Hin. destruct Hin as [<-|[<-|[<-|[]]]].
    - exists ve. split; [congruence|].
      rewrite Forall_forall in *. auto.
    - exists vk. split; [congruence|].
      rewrite Forall_forall in *. auto.
    - exists vd. split; [congruence|].
      rewrite Forall_forall in *. auto. }
  unfold validate_experimental_data. fold (missing_columns df e k d).
  assert (missing_columns df e k d = []) as Hm.
  { apply missing_columns_nil.
    destruct He as (ve & Hge & _), Hk as (vk & Hgk & _),
             Hd as (vd & Hgd & _).
    repeat split; eapply getitem_has_column; eauto. }
  rewrite Hm. apply Nat.eqb_neq in Hlen. rewrite Hlen. cbn [fst].
  match goal with
  | |- match ?l with _ => _ end = true => destruct l as [|err l'] eqn:Herr
  end; [reflexivity|].
  exfalso.
  assert (violation df e k d err) as Hv.
  { apply collected_errors_spec. rewrite Herr. left. reflexivity. }
  destruct err as [m| |col n|col|col|col]; simpl in Hv; try tauto.
  - destruct Hv as (Hin & s & Hs & Hn & Hpos').
    destruct (Hnum col s Hin Hs) as (v & -> & Hna).
    simpl in Hn. rewrite (no_NaN_count v Hna) in Hn. lia.
  - destruct Hv as (Hin & s & Hs & Hdt).
    destruct (Hnum col s Hin Hs) as (v & -> & _). discriminate.
  - destruct Hv as (Hcol & v & Hg & Hex).
    apply Exists_exists in Hex. destruct Hex as (x & Hx & Hle).
    assert (F64.ltb F64.zero x = true) as Hx0.
    { destruct Hcol as [-> | ->].
      - destruct (column_values_no_NaN _ _ _ _ Hpos He Hg) as [_ Hall].
        rewrite Forall_forall in Hall. auto.
      - destruct (column_values_no_NaN _ _ _ _ Hpos Hk Hg) as [_ Hall].
        rewrite Forall_forall in Hall. auto. }
    apply positive_spec in Hx0. destruct Hx0. congruence.
  - destruct Hv as (-> & v & Hg & Hex).
    apply Exists_exists in Hex. destruct Hex as (x & Hx & Hlt).
    destruct (column_values_no_NaN _ _ _ _ Hnn Hd Hg) as [_ Hall].
    rewrite Forall_forall in Hall. specialize (Hall x Hx).
    apply not_negative_spec in Hall. destruct Hall. congruence.
Qed.

(** X1. Validation passes exactly on the frames that have rows and in
    which the energy and k_s columns are numeric with every cell above
    zero and the dose-rate column is numeric with every cell zero or
    above (so without NaN). *)
Theorem validation_passes_iff (df : DataFrame) (e k d : string) :
  fst (validate_experimental_data df e k d) = true <-> valid_dataset df e k d.
Proof.
  split; [apply validation_sound|apply validation_complete].
Qed.

(* ===================================================================== *)
(** * Resolution and the loaded frame *)
(* ===================================================================== *)

Lemma has_column_In df name :
  has_column df name = true <-> In name (labels df).
Proof.
  unfold has_column. rewrite existsb_exists. split.
  - intros (l & Hl & Heq). apply String.eqb_eq in Heq. subst. exact Hl.
  - intros H. exists name. split; [exact H|apply String.eqb_refl].
Qed.

Lemma has_column_same_labels df df' name :
  (forall l, In l (labels df) <-> In l (labels df')) ->
  has_column df name = has_column df' name.
Proof.
  intros H.
  destruct (has_column df name) eqn:E1, (has_column df' name) eqn:E2;
    try reflexivity.
  - apply has_column_In, H, has_column_In in E1. congruence.
  - apply has_column_In, H, has_column_In in E2. congruence.
Qed.

(** X2. Which alias [find_column] returns depends on the labels the frame
    has, not on the order or the content of its columns: two frames with
    the same set of labels resolve every priority list alike. *)
Theorem find_column_same_labels (df df' : DataFrame)
    (Hlabels : forall l, In l (labels df) <-> In l (labels df'))
    (possible_names : list string) :
  find_column df possible_names = find_column df' possible_names.
Proof.
  induction possible_names as [|name rest IH]; simpl; [reflexivity|].
  rewrite (has_column_same_labels df df' name Hlabels), IH. reflexivity.
Qed.

Lemma find_column_same_labels_witness :
  find_column two_energies_reordered_csv (REQUIRED_COLUMNS key_ks)
  = find_column reordered_header (REQUIRED_COLUMNS key_ks).
Proof.
  apply find_column_same_labels.
  intros l. simpl. tauto.
Defined.

Lemma find_column_In df names c :
  find_column df names = Some c -> In c names /\ has_column df c = true.
Proof.
  induction names as [|n names IH]; simpl; [discriminate|].
  destruct (has_column df n) eqn:Hn.
  - intros H. inversion H; subst. auto.
  - intros H. destruct (IH H). auto.
Qed.

Lemma resolve_energy_auto df e :
  resolve_energy df None = Ok e ->
  In e (REQUIRED_COLUMNS key_energy) /\ has_column df e = true.
Proof.
  unfold resolve_energy.
  destruct (find_column df (REQUIRED_COLUMNS key_energy)) eqn:H;
    [|discriminate].
  intros E. inversion E; subst. eapply find_column_In; eauto.
Qed.

Lemma resolve_ks_auto df k :
  resolve_ks df None = Ok k ->
  In k (REQUIRED_COLUMNS key_ks) /\ has_column df k = true.
Proof.
  unfold resolve_ks.
  destruct (find_column df (REQUIRED_COLUMNS key_ks)) eqn:H; [|discriminate].
  intros E. inversion E; subst. eapply find_column_In; eauto.
Qed.

Lemma resolve_dose_rate_auto df d :
  resolve_dose_rate df None = Ok d ->
  In d (REQUIRED_COLUMNS key_dose_rate_air
          ++ REQUIRED_COLUMNS key_dose_rate_water) /\
  has_column df d = true.
Proof.
  unfold resolve_dose_rate.
  destruct (find_column df (REQUIRED_COLUMNS key_dose_rate_air)) eqn:Ha.
  - intros E. inversion E; subst.
    destruct (find_column_In _ _ _ Ha). split; [|assumption].
    apply in_or_app. auto.
  - destruct (find_column df (REQUIRED_COLUMNS key_dose_rate_water)) eqn:Hw;
      [|discriminate].
    intros E. inversion E; subst.
    destruct (find_column_In _ _ _ Hw). split; [|assumption].
    apply in_or_app. auto.
Qed.

(** X3. Without configured names the three roles are resolved to three
    different columns of the frame, and to none of the canonical names
    [dose_rate_Gy_s] and [dose_rate_Gy_min]: the alias lists share no
    name. *)
Theorem auto_detected_columns_distinct (df : DataFrame) (e k d : string)
    (He : resolve_energy df None = Ok e)
    (Hk : resolve_ks df None = Ok k)
    (Hd : resolve_dose_rate df None = Ok d) :
  e <> k /\ e <> d /\ k <> d /\
  d <> "dose_rate_Gy_s" /\ d <> "dose_rate_Gy_min" /\
  has_column df e = true /\ has_column df k = true /\
  has_column df d = true.
Proof.
  destruct (resolve_energy_auto _ _ He) as [Ie Ce].
  destruct (resolve_ks_auto _ _ Hk) as [Ik Ck].
  destruct (resolve_dose_rate_auto _ _ Hd) as [Id Cd].
  repeat split; try assumption;
    simpl in Ie, Ik, Id; intuition (subst; discriminate).
Qed.

Lemma auto_detected_columns_distinct_witness :
  "Energy_MeV" <> "k_s" /\ "Energy_MeV" <> "dose_rate_air_Gy_s" /\
  "k_s" <> "dose_rate_air_Gy_s".
Proof.
  destruct (auto_detected_columns_distinct two_energies_reordered_csv
              "Energy_MeV" "k_s" "dose_rate_air_Gy_s"
              eq_refl eq_refl eq_refl)
    as (H1 & H2 & H3 & _).
  auto.
Defined.

Example load_two_energies_reordered :
  load_experimental_data (Parsed two_energies_reordered_csv) None None None
  = Ok two_energies_reordered.
Proof. vm_compute. reflexivity. Qed.

Lemma two_energies_reordered_unique : unique_labels two_energies_reordered.
Proof.
  unfold unique_labels. simpl.
  repeat (constructor; [simpl; intuition discriminate|]). constructor.
Qed.

Lemma load_inv_resolved df ec kc dc exp_data e k d :
  load_experimental_data (Parsed df) ec kc dc = Ok exp_data ->
  resolve_energy df ec = Ok e -> resolve_ks df kc = Ok k ->
  resolve_dose_rate df dc = Ok d ->
  fst (validate_experimental_data df e k d) = true /\
  add_dose_rate_Gy_min (rename df e k d) = Ok exp_data.
Proof.
  intros Hload He Hk Hd.
  destruct (load_inv _ _ _ _ _ Hload)
    as (e' & k' & d' & He' & Hk' & Hd' & Hv & Hadd).
  assert (e' = e) by congruence. assert (k' = k) by congruence.
  assert (d' = d) by congruence. subst. auto.
Qed.

(** A column of the file is in the loaded frame under its renamed label. *)
Lemma loaded_column df ec kc dc exp_data e k d l s :
  load_experimental_data (Parsed df) ec kc dc = Ok exp_data ->
  resolve_energy df ec = Ok e -> resolve_ks df kc = Ok k ->
  resolve_dose_rate df dc = Ok d ->
  unique_labels exp_data ->
  getitem df l = Some s ->
  getitem exp_data (rename_label e k d l) = Some s.
Proof.
  intros Hload He Hk Hd Huniq Hs.
  destruct (load_inv_resolved _ _ _ _ _ _ _ _ Hload He Hk Hd) as [_ Hadd].
  unfold getitem. apply NoDup_lookup; [exact Huniq|].
  eapply add_dose_rate_In; [exact Hadd|].
  unfold rename. simpl. apply in_map_iff.
  exists (l, s). split; [reflexivity|]. apply lookup_In. exact Hs.
Qed.

(** X4. A successful load keeps the rows and the cells of the file: the
    loaded frame has the index of the file, at least one row and a
    [dose_rate_Gy_min] column, and, when its labels are unique, every
    column of the file is in it with the same cells, under the canonical
    name of its role or, for a column without role, under its own name. *)
Theorem load_keeps_columns (df : DataFrame) (ec kc dc : option string)
    (exp_data : DataFrame) (e k d : string)
    (Hload : load_experimental_data (Parsed df) ec kc dc = Ok exp_data)
    (He : resolve_energy df ec = Ok e)
    (Hk : resolve_ks df kc = Ok k)
    (Hd : resolve_dose_rate df dc = Ok d)
    (Huniq : unique_labels exp_data) :
  index exp_data = index df /\ 0 < len exp_data /\
  has_column exp_data "dose_rate_Gy_min" = true /\
  (forall l s,
      getitem df l = Some s ->
      getitem exp_data (rename_label e k d l) = Some s) /\
  (forall l s,
      l <> e -> l <> k -> l <> d ->
      getitem df l = Some s -> getitem exp_data l = Some s).
Proof.
  destruct (loaded_frame_rows _ _ _ _ _ Hload) as (Hrows & Hidx & Hmin).
  repeat split; auto.
  - intros l s Hs. eapply loaded_column; eauto.
  - intros l s Hle Hlk Hld Hs.
    pose proof (loaded_column _ _ _ _ _ _ _ _ _ _ Hload He Hk Hd Huniq Hs)
      as H.
    unfold rename_label in H.
    apply String.eqb_neq in Hle, Hlk, Hld. rewrite Hle, Hlk, Hld in H.
    exact H.
Qed.

Lemma load_keeps_columns_witness :
  getitem two_energies_reordered "operator"
  = Some (ObjSeries [ Some "A"; Some "A"; Some "A";
                      Some "B"; Some "B"; Some "B" ]).
Proof.
  apply (proj2 (proj2 (proj2 (proj2
           (load_keeps_columns two_energies_reordered_csv None None None
              two_energies_reordered "Energy_MeV" "k_s" "dose_rate_air_Gy_s"
              load_two_energies_reordered eq_refl eq_refl eq_refl
              two_energies_reordered_unique)))));
    try discriminate.
  reflexivity.
Defined.

Lemma column_values_loaded df ec kc dc exp_data e k d c ok :
  load_experimental_data (Parsed df) ec kc dc = Ok exp_data ->
  resolve_energy df ec = Ok e -> resolve_ks df kc = Ok k ->
  resolve_dose_rate df dc = Ok d ->
  unique_labels exp_data ->
  column_values df c ok ->
  column_values exp_data (rename_label e k d c) ok.
Proof.
  intros Hload He Hk Hd Huniq (v & Hg & Hall).
  exists v. split; [|exact Hall]. eapply loaded_column; eauto.
Qed.

(** X5. When the three roles are resolved to three different columns and
    the labels of the loaded frame are unique, the loaded frame is a valid
    data set under its canonical names: it has rows, [Energy_MeV] and
    [k_s] are numeric with every cell above zero, and [dose_rate_Gy_s] is
    numeric with every cell zero or above. *)
Theorem loaded_dataset_valid (df : DataFrame) (ec kc dc : option string)
    (exp_data : DataFrame) (e k d : string)
    (Hload : load_experimental_data (Parsed df) ec kc dc = Ok exp_data)
    (He : resolve_energy df ec = Ok e)
    (Hk : resolve_ks df kc = Ok k)
    (Hd : resolve_dose_rate df dc = Ok d)
    (Hek : e <> k) (Hed : e <> d) (Hkd : k <> d)
    (Huniq : unique_labels exp_data) :
  valid_dataset exp_data "Energy_MeV" "k_s" "dose_rate_Gy_s".
Proof.
  destruct (load_inv_resolved _ _ _ _ _ _ _ _ Hload He Hk Hd) as [Hv _].
  apply validation_sound in Hv. destruct Hv as (_ & Ve & Vk & Vd).
  destruct (loaded_frame_rows _ _ _ _ _ Hload) as (Hrows & _ & _).
  apply String.eqb_neq in Hek, Hed, Hkd.
  split; [lia|]. split; [|split].
  - pose proof (column_values_loaded _ _ _ _ _ _ _ _ _ _
                  Hload He Hk Hd Huniq Ve) as H.
    unfold rename_label in H. rewrite Hed, Hek, String.eqb_refl in H.
    exact H.
  - pose proof (column_values_loaded _ _ _ _ _ _ _ _ _ _
                  Hload He Hk Hd Huniq Vk) as H.
    unfold rename_label in H. rewrite Hkd, String.eqb_refl in H.
    exact H.
  - pose proof (column_values_loaded _ _ _ _ _ _ _ _ _ _
                  Hload He Hk Hd Huniq Vd) as H.
    unfold rename_label in H. rewrite String.eqb_refl in H.
    exact H.
Qed.

Lemma loaded_dataset_valid_witness :
  valid_dataset two_energies_reordered "Energy_MeV" "k_s" "dose_rate_Gy_s".
Proof.
  apply (loaded_dataset_valid two_energies_reordered_csv None None None
           two_energies_reordered "Energy_MeV" "k_s" "dose_rate_air_Gy_s"
           load_two_energies_reordered eq_refl eq_refl eq_refl);
    try discriminate.
  exact two_energies_reordered_unique.
Defined.

Lemma lookup_app_l cols cols' l s :
  lookup cols l = Some s -> lookup (cols ++ cols') l = Some s.
Proof.
  induction cols as [|[l0 s0] cols IH]; simpl; [discriminate|].
  destruct (String.eqb l l0); auto.
Qed.

Lemma lookup_app_r cols cols' l :
  lookup cols l = None -> lookup (cols ++ cols') l = lookup cols' l.
Proof.
  induction cols as [|[l0 s0] cols IH]; simpl; [reflexivity|].
  destruct (String.eqb l l0); [discriminate|auto].
Qed.

Lemma In_labelled df l s : In (l, s) (columns df) -> In s (labelled df l).
Proof.
  intros H. unfold labelled. apply in_map_iff. exists (l, s).
  split; [reflexivity|]. apply filter_In. split; [exact H|].
  simpl. apply String.eqb_refl.
Qed.

(** The column validated for the dose-rate role is the one column the
    renamed file carries under [dose_rate_Gy_s], when the product by 60
    is assigned. *)
Lemma renamed_dose_rate df e k d s0 v :
  getitem df d = Some (NumSeries v) ->
  labelled (rename df e k d) "dose_rate_Gy_s" = [s0] ->
  s0 = NumSeries v.
Proof.
  intros Hg Hl.
  assert (In (NumSeries v) (labelled (rename df e k d) "dose_rate_Gy_s"))
    as Hin.
  { apply In_labelled. unfold rename. simpl. apply in_map_iff.
    exists (d, NumSeries v). split; [|apply lookup_In; exact Hg].
    simpl. unfold rename_label. rewrite String.eqb_refl. reflexivity. }
  rewrite Hl in Hin. destruct Hin as [H|[]]. auto.
Qed.

(** X6. The per-minute dose rate of the loaded frame, for dose rates
    below 2^47 in magnitude (where, on a column typed int64, the integer
    product by 60 is the float64 product): a file that brings its own
    [dose_rate_Gy_min] column keeps it untouched (the loaded frame is the
    renamed file, nothing is computed or checked for that column);
    otherwise the column is added and holds, cell by cell, the
    [dose_rate_Gy_s] cell times 60.  (A load that succeeds has one column
    under [dose_rate_Gy_s]: with two, the assignment raises.) *)
Theorem per_minute_dose_rate (df : DataFrame) (ec kc dc : option string)
    (exp_data : DataFrame) (e k d : string)
    (Hload : load_experimental_data (Parsed df) ec kc dc = Ok exp_data)
    (He : resolve_energy df ec = Ok e)
    (Hk : resolve_ks df kc = Ok k)
    (Hd : resolve_dose_rate df dc = Ok d)
    (Hbound : forall v,
        getitem df d = Some (NumSeries v) ->
        Forall (fun x => F64.ltb (F64.abs x) sixtyfold_bound = true) v) :
  (has_column (rename df e k d) "dose_rate_Gy_min" = true ->
   exp_data = rename df e k d) /\
  (has_column (rename df e k d) "dose_rate_Gy_min" = false ->
   exists v,
     labelled exp_data "dose_rate_Gy_s" = [NumSeries v] /\
     numeric_column exp_data "dose_rate_Gy_s" = Ok v /\
     numeric_column exp_data "dose_rate_Gy_min"
     = Ok (map (fun x => F64.mul x (F64.of_Z 60)) v)).
Proof.
  destruct (load_inv_resolved _ _ _ _ _ _ _ _ Hload He Hk Hd) as [Hv Hadd].
  apply add_dose_rate_inv in Hadd.
  destruct Hadd as [[Hhas ->]|(Hhas & s0 & s & Hl & -> & _ & Hnum)];
    (split; intros Hh; [try reflexivity; congruence|]); [congruence|].
  apply validation_sound in Hv. destruct Hv as (_ & _ & _ & (v & Hg & _)).
  pose proof (renamed_dose_rate _ _ _ _ _ _ Hg Hl) as ->.
  rewrite (Hnum v eq_refl). exists v.
  pose proof (labelled_getitem _ _ _ _ Hl) as Hg'.
  apply has_column_false in Hhas. unfold getitem in Hg', Hhas.
  split; [|split].
  - unfold labelled in *. cbn [columns]. rewrite filter_app, map_app, Hl.
    reflexivity.
  - unfold numeric_column, getitem. cbn [columns].
    rewrite (lookup_app_l _ _ _ _ Hg'). reflexivity.
  - unfold numeric_column, getitem. cbn [columns].
    rewrite (lookup_app_r _ _ _ Hhas). simpl. reflexivity.
Qed.

Lemma per_minute_dose_rate_witness :
  exists v,
    labelled two_energies "dose_rate_Gy_s" = [NumSeries v] /\
    numeric_column two_energies "dose_rate_Gy_s" = Ok v /\
    numeric_column two_energies "dose_rate_Gy_min"
    = Ok (map (fun x => F64.mul x (F64.of_Z 60)) v).
Proof.
  apply (proj2 (per_minute_dose_rate two_energies_csv None None None
                  two_energies "Energy_MeV" "k_s" "dose_rate_air_Gy_s"
                  load_two_energies eq_refl eq_refl eq_refl
                  ltac:(intros v Hv; vm_compute in Hv; inversion Hv;
                        repeat constructor))).
  reflexivity.
Defined.

(* ===================================================================== *)
(** * The energies of the initial protocol *)
(* ===================================================================== *)

Lemma SFcompare_defined (x y : float64) :
  F64.isna x = false -> F64.isna y = false ->
  exists c, SFcompare x y = Some c.
Proof.
  destruct x as [sx|sx| |sx mx ex], y as [sy|sy| |sy my ey]; simpl;
    try discriminate; eauto.
Qed.

Lemma ltb_trichotomy (x y : float64) :
  F64.isna x = false -> F64.isna y = false ->
  F64.ltb y x = false -> F64.eqb x y = false -> F64.ltb x y = true.
Proof.
  intros Hx Hy. unfold F64.ltb, F64.eqb, SFltb, SFeqb.
  rewrite (SFcompare_antisym x y).
  destruct (SFcompare_defined x y Hx Hy) as (c & ->).
  destruct c; simpl; congruence.
Qed.

Lemma eqb_sym (x y : float64) : F64.eqb x y = F64.eqb y x.
Proof.
  unfold F64.eqb, SFeqb. rewrite (SFcompare_antisym y x).
  destruct (SFcompare y x) as [[| |]|]; reflexivity.
Qed.

Lemma eqb_refl (x : float64) : F64.isna x = false -> F64.eqb x x = true.
Proof.
  unfold F64.eqb, SFeqb.
  destruct x as [s|s| |s m e]; simpl; try discriminate; try reflexivity;
    destruct s; simpl; try reflexivity;
    rewrite Z.compare_refl, Pos.compare_cont_refl; reflexivity.
Qed.

Lemma same_key_refl (x : float64) : same_key x x = true.
Proof.
  unfold same_key. destruct (F64.isna x) eqn:E.
  - rewrite orb_true_r. reflexivity.
  - rewrite eqb_refl by exact E. reflexivity.
Qed.

Lemma In_insert_sorted x l z :
  In z (insert_sorted x l) <-> z = x \/ In z l.
Proof.
  induction l as [|y l IH]; simpl; [intuition|].
  destruct (F64.ltb x y); simpl; [intuition|].
  rewrite IH. intuition.
Qed.

Lemma insert_sorted_ascending x l :
  F64.isna x = false ->
  Forall (fun y => F64.isna y = false) l ->
  Forall (fun y => F64.eqb x y = false) l ->
  ascending l -> ascending (insert_sorted x l).
Proof.
  intros Hx Hna Hne. induction l as [|y l IH]; intros Hasc; [exact I|].
  inversion Hna as [|? ? Hy Hna']; subst.
  inversion Hne as [|? ? Hxy Hne']; subst.
  simpl insert_sorted.
  destruct (F64.ltb x y) eqn:Hlt; [split; assumption|].
  assert (F64.ltb y x = true) as Hyx.
  { apply ltb_trichotomy; auto. rewrite eqb_sym. exact Hxy. }
  destruct l as [|z l'].
  - simpl. auto.
  - destruct Hasc as [Hyz Hasc'].
    specialize (IH Hna' Hne' Hasc'). simpl in IH |- *.
    destruct (F64.ltb x z); [split; [exact Hyx|exact IH]|].
    split; [exact Hyz|exact IH].
Qed.

Lemma fold_insert_In v : forall acc z,
  In z (fold_left (fun acc x => insert_sorted x acc) v acc)
  <-> In z v \/ In z acc.
Proof.
  induction v as [|x v IH]; intros acc z; simpl; [intuition|].
  rewrite IH, In_insert_sorted. intuition.
Qed.

Lemma fold_insert_ascending v : forall acc,
  Forall (fun y => F64.isna y = false) v ->
  Forall (fun y => F64.isna y = false) acc ->
  ForallOrdPairs (fun a b => F64.eqb b a = false) v ->
  (forall x y, In x v -> In y acc -> F64.eqb x y = false) ->
  ascending acc ->
  ascending (fold_left (fun acc x => insert_sorted x acc) v acc).
Proof.
  induction v as [|x v IH]; intros acc Hv Hacc Hpairs Hcross Hasc;
    [exact Hasc|].
  simpl. inversion Hv as [|? ? Hx Hv']; subst.
  inversion Hpairs as [|? ? Hxv Hpairs']; subst.
  apply IH; auto.
  - apply Forall_forall. intros z Hz. apply In_insert_sorted in Hz.
    rewrite Forall_forall in Hacc. destruct Hz as [->|Hz]; auto.
  - intros x' y Hx' Hy. apply In_insert_sorted in Hy.
    destruct Hy as [->|Hy].
    + rewrite Forall_forall in Hxv. apply Hxv. exact Hx'.
    + apply Hcross; simpl; auto.
  - apply insert_sorted_ascending; auto.
    apply Forall_forall. intros y Hy. apply Hcross; simpl; auto.
Qed.

Lemma unique_from_spec v : forall seen,
  ForallOrdPairs (fun a b => same_key b a = false) (unique_from seen v) /\
  (forall x, In x (unique_from seen v) ->
             In x v /\ forall s, In s seen -> same_key x s = false) /\
  (forall x, In x v ->
             existsb (same_key x) seen = true \/
             exists y, In y (unique_from seen v) /\ same_key x y = true).
Proof.
  induction v as [|x0 v IH]; intros seen; simpl.
  - split; [constructor|]. split; [tauto|tauto].
  - destruct (existsb (same_key x0) seen) eqn:Hseen.
    + destruct (IH seen) as (P1 & P2 & P3). split; [exact P1|]. split.
      * intros x Hx. destruct (P2 x Hx). auto.
      * intros x [<-|Hx]; auto.
    + destruct (IH (x0 :: seen)) as (P1 & P2 & P3). split; [|split].
      * constructor; [|exact P1]. apply Forall_forall. intros b Hb.
        destruct (P2 b Hb) as [_ H]. apply H. simpl. auto.
      * intros x [<-|Hx].
        -- split; [auto|]. intros s Hs.
           destruct (same_key x0 s) eqn:E; [|reflexivity].
           assert (existsb (same_key x0) seen = true) as Hex.
           { apply existsb_exists. eauto. }
           congruence.
        -- destruct (P2 x Hx) as [Hin H]. split; [auto|].
           intros s Hs. apply H. simpl. auto.
      * intros x [<-|Hx].
        -- right. exists x0. split; [simpl; auto|apply same_key_refl].
        -- destruct (P3 x Hx) as [Hex|(y & Hy & Hxy)].
           ++ simpl in Hex. apply orb_true_iff in Hex.
              destruct Hex as [Hex|Hex]; [|auto].
              right. exists x0. split; [simpl; auto|exact Hex].
           ++ right. exists y. split; [simpl; auto|exact Hxy].
Qed.

Lemma same_key_false_eqb x y : same_key x y = false -> F64.eqb x y = false.
Proof.
  unfold same_key. intros H. apply orb_false_iff in H. tauto.
Qed.

Lemma same_key_eqb x y :
  F64.isna x = false -> same_key x y = F64.eqb x y.
Proof.
  intros H. unfold same_key. rewrite H. simpl. apply orb_false_r.
Qed.

(** The energies the initial protocol works through: strictly ascending,
    each a cell of the column, each cell of the column among them. *)
Lemma sorted_unique_spec (col : list float64) :
  Forall (fun x => F64.isna x = false) col ->
  ascending (sorted (unique col)) /\
  (forall x, In x (sorted (unique col)) -> In x col) /\
  (forall x, In x col ->
             exists y, In y (sorted (unique col)) /\ F64.eqb x y = true).
Proof.
  intros Hna. unfold sorted, unique.
  destruct (unique_from_spec col []) as (P1 & P2 & P3).
  rewrite Forall_forall in Hna.
  split; [|split].
  - apply fold_insert_ascending.
    + apply Forall_forall. intros y Hy. apply Hna. apply P2. exact Hy.
    + constructor.
    + clear P2 P3. induction P1 as [|a l Ha _ IH]; constructor; auto.
      eapply Forall_impl; [|exact Ha].
      intros b H. apply same_key_false_eqb. exact H.
    + intros x y _ [].
    + exact I.
  - intros x Hx. apply fold_insert_In in Hx.
    destruct Hx as [Hx|[]]. apply P2. exact Hx.
  - intros x Hx. destruct (P3 x Hx) as [Hex|(y & Hy & Hxy)];
      [discriminate|].
    exists y. split; [apply fold_insert_In; auto|].
    rewrite <- same_key_eqb; auto.
Qed.

Lemma filter_nil_existsb {A} (f : A -> bool) (l : list A) :
  filter f l = [] <-> existsb f l = false.
Proof.
  induction l as [|a l IH]; simpl; [tauto|].
  destruct (f a); simpl; [split; discriminate|exact IH].
Qed.

Lemma filter_head_find {A} (f : A -> bool) (l : list A) r rest :
  filter f l = r :: rest -> find f l = Some r.
Proof.
  induction l as [|a l IH]; simpl; [discriminate|].
  destruct (f a); [congruence|exact IH].
Qed.

(** The second loop of the initial protocol, energy by energy. *)
Lemma initial_comparison_loop_spec exp_data initial_results ecol kcol es :
  numeric_column exp_data "Energy_MeV" = Ok ecol ->
  numeric_column exp_data "k_s" = Ok kcol ->
  forall acc,
    exists l,
      initial_comparison_loop exp_data initial_results es acc
      = Ok (acc ++ l) /\
      map rec_Energy_MeV l = filter (has_result initial_results) es /\
      Forall (fun r =>
                exists row,
                  find (fun row =>
                          F64.eqb (Init.col_E_MeV_u row) (rec_Energy_MeV r))
                    initial_results = Some row /\
                  rec_k_s_IonTracks r = Init.col_ks row) l.
Proof.
  intros He Hk. induction es as [|e es IH]; intros acc; simpl.
  - exists []. rewrite app_nil_r. auto.
  - rewrite He, Hk. unfold has_result at 1.
    destruct (filter (fun r => F64.eqb (Init.col_E_MeV_u r) e)
                initial_results) as [|r rs] eqn:Hf.
    + apply filter_nil_existsb in Hf. rewrite Hf. apply IH.
    + assert (existsb (fun r => F64.eqb (Init.col_E_MeV_u r) e)
                initial_results = true) as Hex.
      { destruct (existsb _ initial_results) eqn:E; [reflexivity|].
        apply filter_nil_existsb in E. congruence. }
      rewrite Hex.
      match goal with
      | |- context [initial_comparison_loop _ _ _ (acc ++ [?rec])] =>
          destruct (IH (acc ++ [rec])) as (l & Hl & Hm & HF);
          exists (rec :: l)
      end.
      split; [rewrite Hl, <- app_assoc; reflexivity|].
      split; [simpl; congruence|].
      constructor; [|exact HF].
      exists r. split; [|reflexivity]. simpl.
      eapply filter_head_find. exact Hf.
Qed.

Lemma initial_comparison_loop_raise exp_data initial_results es acc x :
  initial_comparison_loop exp_data initial_results es acc = Raise x ->
  x = KeyError "Energy_MeV" \/ x = TypeError "Energy_MeV" \/
  x = KeyError "k_s" \/ x = TypeError "k_s".
Proof.
  revert acc. induction es as [|e es IH]; intros acc; simpl; [discriminate|].
  unfold numeric_column.
  destruct (getitem exp_data "Energy_MeV") as [[v|v]|];
    [|intros H; inversion H; auto|intros H; inversion H; auto].
  destruct (getitem exp_data "k_s") as [[v'|v']|];
    [|intros H; inversion H; auto|intros H; inversion H; auto].
  destruct (filter _ initial_results); intros H; eapply IH; exact H.
Qed.


Lemma leb_key (x y : float64) :
  F64.isna x = false -> F64.isna y = false ->
  (F64.leb x y = true <-> key_le (order_key x) (order_key y)).
Proof.
  unfold F64.isna, F64.leb, SFleb, key_le.
  destruct x as [sx|sx| |sx mx ex], y as [sy|sy| |sy my ey];
    try discriminate; intros _ _;
    try destruct sx; try destruct sy; simpl;
    try (split; [intros _; lia|reflexivity]);
    try (split; [discriminate|lia]);
    change (Pos.compare_cont Eq mx my) with (Pos.compare mx my);
    destruct (Z.compare_spec ex ey) as [He|He|He]; simpl;
    try destruct (Pos.compare_spec mx my) as [Hm|Hm|Hm]; simpl;
    split; intros Hle; try reflexivity; try discriminate; try lia.
Qed.

Lemma key_le_trans a b c : key_le a b -> key_le b c -> key_le a c.
Proof.
  destruct a as [[a1 a2] a3], b as [[b1 b2] b3], c as [[c1 c2] c3].
  unfold key_le. lia.
Qed.







Section InitialEnergies.

Variable ks_initial_IonTracks : Init.kwargs -> result (list Init.result_row).

Local Abbreviation run := (run_initial_recombination ks_initial_IonTracks).

Lemma initial_loop_spec cfg es : forall acc w,
  initial_loop ks_initial_IonTracks cfg es acc w
  = (acc ++ flat_map (initial_attempt ks_initial_IonTracks cfg) es,
     mkWorld (calls w ++ map (fun e => Call_initial (initial_kwargs cfg e)) es)
       (draws w) (files w)).
Proof.
  induction es as [|e es IH]; intros acc w; simpl.
  - rewrite !app_nil_r. destruct w; reflexivity.
  - unfold bind, call_initial, initial_attempt at 1.
    fold (initial_kwargs cfg e).
    destruct (ks_initial_IonTracks (initial_kwargs cfg e)) as [res|x];
      rewrite IH; simpl; rewrite <- ?app_assoc; reflexivity.
Qed.

Lemma run_initial_calls self w col :
  numeric_column (exp_data self) "Energy_MeV" = Ok col ->
  snd (run self w)
  = mkWorld
      (calls w
         ++ map (fun e => Call_initial
                            (initial_kwargs (simulation (config self)) e))
              (sorted (unique col)))
      (draws w) (files w).
Proof.
  intros Hc. unfold run_initial_recombination. rewrite Hc. unfold bind.
  rewrite initial_loop_spec. cbn [app].
  destruct (flat_map _ _); [reflexivity|].
  destruct (initial_comparison_loop _ _ _ _); reflexivity.
Qed.

(** X7. The point-estimate simulation is called once for each distinct
    energy of the data, in strictly ascending order of energy, with the
    configured parameters, whether or not calls fail; the phase draws no
    random number and writes no file. *)
Theorem initial_calls_ascending (self : ComparisonRunner) (w : World)
    (col : list float64)
    (Hcol : numeric_column (exp_data self) "Energy_MeV" = Ok col)
    (Hna : Forall (fun x => F64.isna x = false) col) :
  let energies := sorted (unique col) in
  snd (run self w)
  = mkWorld
      (calls w
         ++ map (fun e => Call_initial
                            (initial_kwargs (simulation (config self)) e))
              energies)
      (draws w) (files w) /\
  ascending energies /\
  (forall x, In x energies -> In x col) /\
  (forall x, In x col -> exists y, In y energies /\ F64.eqb x y = true).
Proof.
  intros energies. split; [apply run_initial_calls; exact Hcol|].
  apply sorted_unique_spec. exact Hna.
Qed.

(** X8. The initial phase raises its [RuntimeError] exactly when no call
    returns (every call raises, or the data has no energy); the runner is
    then left as it was, every energy having been tried. *)
Theorem initial_no_result_raises (self : ComparisonRunner) (w : World)
    (col : list float64)
    (Hcol : numeric_column (exp_data self) "Energy_MeV" = Ok col) :
  let cfg := simulation (config self) in
  (snd (fst (run self w))
   = Raise (RuntimeError
              "Failed to calculate any results for Initial Recombination")
   <-> forall e, In e (sorted (unique col)) ->
                 exists x, ks_initial_IonTracks (initial_kwargs cfg e)
                           = Raise x) /\
  ((forall e, In e (sorted (unique col)) ->
              exists x, ks_initial_IonTracks (initial_kwargs cfg e)
                        = Raise x) ->
   fst (fst (run self w)) = self).
Proof.
  intros cfg.
  assert (flat_map (initial_attempt ks_initial_IonTracks cfg)
            (sorted (unique col)) = []
          <-> forall e, In e (sorted (unique col)) ->
                exists x, ks_initial_IonTracks (initial_kwargs cfg e)
                          = Raise x) as Hnil.
  { induction (sorted (unique col)) as [|e es IH]; simpl.
    - split; [intros _ e []|reflexivity].
    - unfold initial_attempt at 1.
      destruct (ks_initial_IonTracks (initial_kwargs cfg e)) as [res|x] eqn:E;
        simpl.
      + split; [discriminate|]. intros H.
        destruct (H e (or_introl eq_refl)) as (x & Hx). congruence.
      + rewrite IH. split.
        * intros H e' [<-|He']; eauto.
        * intros H e' He'. apply H. auto. }
  unfold run_initial_recombination. rewrite Hcol. unfold bind.
  rewrite initial_loop_spec. cbn [app]. fold cfg.
  destruct (flat_map (initial_attempt ks_initial_IonTracks cfg)
              (sorted (unique col))) as [|res l] eqn:Hf.
  - simpl. split; [|reflexivity].
    split; [intros _; apply Hnil; reflexivity|reflexivity].
  - split.
    + split.
      * destruct (initial_comparison_loop _ _ _ _) as [recs|x] eqn:Hl;
          simpl; [discriminate|].
        intros H. inversion H; subst x.
        apply initial_comparison_loop_raise in Hl.
        intuition discriminate.
      * intros H. apply Hnil in H. discriminate.
    + intros H. apply Hnil in H. discriminate.
Qed.

Lemma run_initial_inv self w self' df w' :
  run self w = ((self', Ok df), w') ->
  exists col,
    numeric_column (exp_data self) "Energy_MeV" = Ok col /\
    let results :=
      concat (flat_map (initial_attempt ks_initial_IonTracks
                          (simulation (config self)))
                (sorted (unique col))) in
    initial_results self' = Some results /\
    exists l,
      initial_comparison_loop (exp_data self) results (sorted (unique col)) []
      = Ok l /\
      df = DataFrame_of_records l.
Proof.
  unfold run_initial_recombination.
  destruct (numeric_column (exp_data self) "Energy_MeV") as [col|x] eqn:Hc;
    [|intros H; inversion H].
  unfold bind. rewrite initial_loop_spec. cbn [app].
  destruct (flat_map _ _) as [|res l] eqn:Hf; [intros H; inversion H|].
  destruct (initial_comparison_loop _ _ _ _) as [recs|x] eqn:Hl;
    intros H; inversion H; subst.
  exists col. split; [reflexivity|]. cbn zeta. rewrite Hf.
  split; [reflexivity|].
  exists recs. split; [exact Hl|reflexivity].
Qed.


End InitialEnergies.

(* ===================================================================== *)
(** * The reference of the initial protocol *)
(* ===================================================================== *)

Lemma ltb_leb (x y : float64) :
  F64.isna x = false -> F64.isna y = false ->
  F64.ltb x y = false -> F64.leb y x = true.
Proof.
  intros Hx Hy. unfold F64.ltb, F64.leb, SFltb, SFleb.
  rewrite (SFcompare_antisym x y).
  destruct (SFcompare_defined x y Hx Hy) as (c & ->).
  destruct c; simpl; congruence.
Qed.

Lemma leb_ltb (x y : float64) : F64.leb y x = true -> F64.ltb x y = false.
Proof.
  unfold F64.ltb, F64.leb, SFltb, SFleb.
  rewrite (SFcompare_antisym x y).
  destruct (SFcompare x y) as [[| |]|]; simpl; congruence.
Qed.

Lemma ltb_isna_l (x y : float64) : F64.isna x = true -> F64.ltb x y = false.
Proof. destruct x; try discriminate. reflexivity. Qed.

Lemma ltb_isna_r (x y : float64) : F64.isna y = true -> F64.ltb x y = false.
Proof.
  destruct y; try discriminate. intros _. destruct x as [s|s| |s m e];
    reflexivity.
Qed.

(** No element is below the result of the minimum fold. *)
Lemma fold_min_lower (rest : list float64) : forall m,
  F64.isna m = false ->
  Forall (fun y => F64.isna y = false) rest ->
  let r := fold_left (fun m y => if F64.ltb y m then y else m) rest m in
  F64.isna r = false /\ F64.leb r m = true /\
  Forall (fun y => F64.leb r y = true) rest.
Proof.
  induction rest as [|y rest IH]; intros m Hm Hrest; simpl.
  - split; [exact Hm|]. split; [|constructor].
    apply ltb_leb; auto. unfold F64.ltb, SFltb.
    pose proof (eqb_refl m Hm) as E. unfold F64.eqb, SFeqb in E.
    destruct (SFcompare m m) as [[| |]|]; congruence.
  - inversion Hrest as [|? ? Hy Hrest']; subst.
    destruct (F64.ltb y m) eqn:Hlt.
    + destruct (IH y Hy Hrest') as (Hr & Hry & Hall).
      split; [exact Hr|]. split; [|constructor; assumption].
      apply leb_key; auto. eapply key_le_trans.
      * apply leb_key; [exact Hr|exact Hy|exact Hry].
      * apply leb_key; auto. apply ltb_leb; auto.
        destruct (F64.ltb m y) eqn:E; [|reflexivity].
        exfalso. revert Hlt E. unfold F64.ltb, SFltb.
        rewrite (SFcompare_antisym y m).
        destruct (SFcompare y m) as [[| |]|]; simpl; congruence.
    + destruct (IH m Hm Hrest') as (Hr & Hrm & Hall).
      split; [exact Hr|]. split; [exact Hrm|].
      constructor; [|exact Hall].
      apply leb_key; auto. eapply key_le_trans.
      * apply leb_key; [exact Hr|exact Hm|exact Hrm].
      * apply leb_key; auto. apply ltb_leb; auto.
Qed.

(** [min()] is a lower bound of the cells, and one of them when some cell
    is not NaN. *)
Lemma series_min_lower (v : list float64) :
  Forall (fun k => F64.ltb k (series_min v) = false) v.
Proof.
  apply Forall_forall. intros k Hk. unfold series_min.
  destruct (filter (fun x => negb (F64.isna x)) v) as [|x rest] eqn:Hf;
    [apply ltb_isna_r; reflexivity|].
  destruct (F64.isna k) eqn:Hna; [apply ltb_isna_l; exact Hna|].
  assert (Forall (fun y => F64.isna y = false) (x :: rest)) as Hall.
  { rewrite <- Hf. apply Forall_forall. intros y Hy.
    apply filter_In in Hy. destruct Hy as [_ Hy].
    destruct (F64.isna y); [discriminate|reflexivity]. }
  inversion Hall as [|? ? Hx Hrest]; subst.
  destruct (fold_min_lower rest x Hx Hrest) as (Hr & Hrx & Hlow).
  apply leb_ltb.
  assert (In k (x :: rest)) as Hin.
  { rewrite <- Hf. apply filter_In. rewrite Hna. auto. }
  destruct Hin as [<-|Hin]; [exact Hrx|].
  rewrite Forall_forall in Hlow. apply Hlow. exact Hin.
Qed.

Lemma series_min_In (v : list float64) :
  (exists k, In k v /\ F64.isna k = false) -> In (series_min v) v.
Proof.
  intros (k & Hk & Hna). unfold series_min.
  destruct (filter (fun x => negb (F64.isna x)) v) as [|x rest] eqn:Hf.
  - assert (In k (filter (fun x => negb (F64.isna x)) v)) as Hin
      by (apply filter_In; rewrite Hna; auto).
    rewrite Hf in Hin. inversion Hin.
  - assert (In (fold_left (fun m y => if F64.ltb y m then y else m) rest x)
              (filter (fun x => negb (F64.isna x)) v)) as Hin.
    { rewrite Hf. apply fold_min_In. }
    apply filter_In in Hin. tauto.
Qed.

Lemma sorted_unique_In (col : list float64) (x : float64) :
  In x (sorted (unique col)) -> In x col.
Proof.
  unfold sorted, unique. intros H. apply fold_insert_In in H.
  destruct H as [H|[]].
  destruct (unique_from_spec col []) as (_ & P2 & _).
  apply P2. exact H.
Qed.

Lemma eqb_true_not_nan (x y : float64) :
  F64.eqb x y = true -> F64.isna x = false /\ F64.isna y = false.
Proof.
  unfold F64.eqb, SFeqb.
  destruct x as [sx|sx| |sx mx ex], y as [sy|sy| |sy my ey]; simpl;
    try discriminate; auto.
Qed.

(** The rows selected by a mask that is true somewhere. *)
Lemma mask_filter_nonempty {A} (f : float64 -> bool) (col : list float64)
    (v : list A) (x : float64) :
  In x col -> f x = true -> length col <= length v ->
  mask_filter (map f col) v <> [].
Proof.
  revert v. induction col as [|c col IH]; intros v Hin Hf Hlen; [inversion Hin|].
  destruct v as [|a v]; [simpl in Hlen; lia|]. simpl.
  destruct (f c) eqn:E; [discriminate|].
  destruct Hin as [->|Hin]; [congruence|].
  apply IH; auto. simpl in Hlen. lia.
Qed.

Lemma run_initial_k_s ks_initial_IonTracks self w self' df w' :
  run_initial_recombination ks_initial_IonTracks self w
  = ((self', Ok df), w') ->
  exists k_s_col, numeric_column (exp_data self) "k_s" = Ok k_s_col.
Proof.
  unfold run_initial_recombination.
  destruct (numeric_column (exp_data self) "Energy_MeV") as [col|x] eqn:Hc;
    [|intros H; inversion H].
  unfold bind. rewrite initial_loop_spec. cbn [app].
  destruct (sorted (unique col)) as [|e es]; [intros H; inversion H|].
  destruct (flat_map _ (e :: es)) as [|res l]; [intros H; inversion H|].
  cbn [exp_data set_initial_results].
  destruct (initial_comparison_loop _ _ _ _) as [recs|x] eqn:Hl;
    [|intros H; inversion H].
  intros _. simpl in Hl. rewrite Hc in Hl.
  destruct (numeric_column (exp_data self) "k_s") as [k|x];
    [eauto|discriminate].
Qed.

(** C2 as amended.  On data whose [Energy_MeV] and [k_s] are numeric
    columns, in the table the initial phase returns every energy for
    which a row was returned has a record, and the reference of a record
    is the minimum of k_s over the rows of the data with the record's
    energy: there is such a row, no such row has a k_s below the
    reference, and the reference is the k_s of one of them (as soon as
    one of them is not NaN).  The dose rate plays no part. *)
Theorem initial_reference_minimum
    (ks_initial_IonTracks : Init.kwargs -> result (list Init.result_row))
    (self : ComparisonRunner) (w : World)
    (self' : ComparisonRunner) (df : DataFrame) (w' : World)
    (energy_col k_s_col : list float64)
    (Hrun : run_initial_recombination ks_initial_IonTracks self w
            = ((self', Ok df), w'))
    (Haligned : columns_aligned (exp_data self))
    (Henergy : numeric_column (exp_data self) "Energy_MeV" = Ok energy_col)
    (Hks : numeric_column (exp_data self) "k_s" = Ok k_s_col) :
  exists results l,
    initial_results self' = Some results /\
    df = DataFrame_of_records l /\
    (forall e,
        In e (sorted (unique energy_col)) ->
        has_result results e = true ->
        exists r, In r l /\ rec_Energy_MeV r = e) /\
    Forall (fun r =>
              let group :=
                mask_filter
                  (map (fun x => F64.eqb x (rec_Energy_MeV r)) energy_col)
                  k_s_col in
              group <> [] /\
              Forall (fun k => F64.ltb k (rec_k_s_experimental r) = false)
                group /\
              ((exists k, In k group /\ F64.isna k = false) ->
               In (rec_k_s_experimental r) group)) l.
Proof.
  destruct (run_initial_inv _ _ _ _ _ _ Hrun)
    as (energy_col' & He & Hres & l & Hloop & Hdf).
  assert (energy_col' = energy_col) by congruence. subst energy_col'.
  cbn zeta in Hres, Hloop.
  destruct (initial_comparison_loop_spec (exp_data self)
              (concat (flat_map (initial_attempt ks_initial_IonTracks
                                   (simulation (config self)))
                         (sorted (unique energy_col))))
              energy_col k_s_col (sorted (unique energy_col)) He Hks [])
    as (l' & Hl' & Hmap & Hfind).
  rewrite Hloop in Hl'. simpl in Hl'. inversion Hl'; subst l'.
  eexists. exists l.
  split; [exact Hres|]. split; [exact Hdf|]. split.
  - intros e Hin Hhas.
    assert (In e (map rec_Energy_MeV l)) as Hm.
    { rewrite Hmap. apply filter_In. auto. }
    apply in_map_iff in Hm. destruct Hm as (r & Hr & Hinr). eauto.
  - assert (Forall (record_reference (exp_data self)) l) as Href.
    { eapply initial_comparison_loop_invariant; [|constructor|exact Hloop].
      auto. }
    rewrite Forall_forall in *. intros r Hr. cbn zeta.
    destruct (Href r Hr) as (ecol & kcol & He' & Hk' & Hmin).
    assert (ecol = energy_col) by congruence.
    assert (kcol = k_s_col) by congruence. subst ecol kcol.
    rewrite Hmin. split; [|split].
    + destruct (Hfind r Hr) as (row & Hrow & _).
      apply find_some in Hrow. destruct Hrow as [_ Heq].
      apply eqb_true_not_nan in Heq. destruct Heq as [_ Hna].
      assert (In (rec_Energy_MeV r) (map rec_Energy_MeV l)) as Hm
        by (apply in_map; exact Hr).
      rewrite Hmap in Hm. apply filter_In in Hm. destruct Hm as [Hm _].
      apply sorted_unique_In in Hm.
      apply (mask_filter_nonempty
               (fun x => F64.eqb x (rec_Energy_MeV r)) energy_col k_s_col
               (rec_Energy_MeV r) Hm (eqb_refl _ Hna)).
      rewrite (aligned_numeric_length _ _ _ Haligned He),
        (aligned_numeric_length _ _ _ Haligned Hks). apply le_n.
    + apply series_min_lower.
    + apply series_min_In.
Qed.

Lemma initial_reference_minimum_witness :
  exists l,
    (exists r, In r l /\ rec_Energy_MeV r = F64.of_Z 10) /\
    Forall (fun r =>
              let group :=
                mask_filter
                  (map (fun x => F64.eqb x (rec_Energy_MeV r))
                     (map F64.of_Z [10; 10; 10; 20; 20; 20]%Z))
                  [ F64.of_ratio 95 100; F64.of_ratio 90 100;
                    F64.of_ratio 80 100; F64.of_ratio 97 100;
                    F64.of_ratio 93 100; F64.of_ratio 85 100 ] in
              group <> [] /\
              Forall (fun k => F64.ltb k (rec_k_s_experimental r) = false)
                group /\
              ((exists k, In k group /\ F64.isna k = false) ->
               In (rec_k_s_experimental r) group)) l.
Proof.
  pose (out := run_initial_recombination stub_initial
                 (two_energies_runner None) initial_world).
  assert (run_initial_recombination stub_initial (two_energies_runner None)
            initial_world = out) as E by reflexivity.
  vm_compute in out.
  destruct (initial_reference_minimum stub_initial _ _ _ _ _ _ _ E
              two_energies_aligned eq_refl eq_refl)
    as (results & l & Hres & _ & Hcov & Hall).
  exists l. split; [|exact Hall].
  apply Hcov.
  - vm_compute. auto.
  - vm_compute in Hres. inversion Hres. vm_compute. reflexivity.
Defined.

(** C2 as stated fails on the two-energy data set.  With k_s 0.95, 0.90,
    0.80 at 0.5, 1.0, 2.0 Gy/s for 10 MeV and 0.97, 0.93, 0.85 for
    20 MeV, the references of the table are 0.80 and 0.85, the minima of
    k_s, where the rows with the lowest dose rate have k_s 0.95 and
    0.97. *)
Lemma reference_is_not_lowest_dose_rate :
  exists self' df w' energies references,
    run_initial_recombination stub_initial (two_energies_runner None)
      initial_world
    = ((self', Ok df), w') /\
    numeric_column df "Energy_MeV" = Ok energies /\
    numeric_column df "k_s_experimental" = Ok references /\
    references = [F64.of_ratio 80 100; F64.of_ratio 85 100] /\
    map (k_s_at_lowest_dose_rate two_energies) energies
    = [Some (F64.of_ratio 95 100); Some (F64.of_ratio 97 100)] /\
    map Some references
    <> map (k_s_at_lowest_dose_rate two_energies) energies.
Proof.
  pose (out := run_initial_recombination stub_initial
                 (two_energies_runner None) initial_world).
  assert (run_initial_recombination stub_initial (two_energies_runner None)
            initial_world = out) as E by reflexivity.
  vm_compute in out.
  match eval unfold out in out with
  | ((?s, Ok ?d), ?w0) => exists s, d, w0
  end.
  do 2 eexists.
  split; [exact E|].
  split; [vm_compute; reflexivity|].
  split; [vm_compute; reflexivity|].
  split; [vm_compute; reflexivity|].
  split; [vm_compute; reflexivity|].
  vm_compute. discriminate.
Qed.

Lemma initial_calls_ascending_witness :
  ascending (sorted (unique (map F64.of_Z [10; 10; 10; 20; 20; 20]%Z))) /\
  calls (snd (run_initial_recombination stub_initial_fails_at_10
                (two_energies_runner None) initial_world))
  = [] ++ map (fun e => Call_initial
                          (initial_kwargs (default_simulation None) e))
            (sorted (unique (map F64.of_Z [10; 10; 10; 20; 20; 20]%Z))).
Proof.
  destruct (initial_calls_ascending stub_initial_fails_at_10
              (two_energies_runner None) initial_world
              (map F64.of_Z [10; 10; 10; 20; 20; 20]%Z))
    as (Hw & Hasc & _).
  - reflexivity.
  - repeat constructor.
  - split; [exact Hasc|]. rewrite Hw. reflexivity.
Defined.

Lemma initial_no_result_raises_witness :
  fst (fst (run_initial_recombination no_initial (two_energies_runner None)
              initial_world))
  = two_energies_runner None.
Proof.
  apply (proj2 (initial_no_result_raises no_initial
                  (two_energies_runner None) initial_world
                  (map F64.of_Z [10; 10; 10; 20; 20; 20]%Z) eq_refl)).
  intros e _. eexists. reflexivity.
Defined.


(* ===================================================================== *)
(** * The table of the continuous phase *)
(* ===================================================================== *)

Lemma mask_filter_map_filter {A B} (f : A -> bool) (g : A -> B) l :
  mask_filter (map f l) (map g l) = map g (filter f l).
Proof.
  induction l as [|a l IH]; simpl; [reflexivity|].
  destruct (f a); simpl; rewrite IH; reflexivity.
Qed.

Lemma filter_split_length {A} (f : A -> bool) l :
  length (filter f l) + length (filter (fun x => negb (f x)) l) = length l.
Proof.
  induction l as [|a l IH]; simpl; [reflexivity|].
  destruct (f a); simpl; lia.
Qed.

Lemma map_fst_combine {A B} (l1 : list A) (l2 : list B) :
  length l1 = length l2 -> map fst (combine l1 l2) = l1.
Proof.
  revert l2. induction l1 as [|a l1 IH]; intros [|b l2] H; simpl in *;
    try discriminate; [reflexivity|].
  rewrite IH; [reflexivity|lia].
Qed.

Lemma index_iterrows df : map fst (iterrows df) = index df.
Proof.
  unfold iterrows. apply map_fst_combine.
  rewrite length_map, length_seq. reflexivity.
Qed.

Lemma labels_replace_new cols l s :
  ~ In l (map fst cols) ->
  map fst (replace_column cols l s) = map fst cols ++ [l].
Proof.
  induction cols as [|[l0 s0] cols IH]; simpl; [reflexivity|].
  intros Hn. destruct (String.eqb l l0) eqn:E.
  - apply String.eqb_eq in E. subst. tauto.
  - simpl. rewrite IH; [reflexivity|tauto].
Qed.

Lemma labels_mask_frame mask df : labels (mask_frame mask df) = labels df.
Proof.
  unfold labels, mask_frame. simpl. rewrite map_map. reflexivity.
Qed.

Section ContinuousTable.

Variable IonTracks_continuous_beam :
  Cont.kwargs -> result (list Cont.result_row).
Variable randint : nat -> Z -> Z -> Z.

Local Abbreviation create :=
  (create_comparison_continuous IonTracks_continuous_beam randint).
Local Abbreviation run := (run_continuous_beam IonTracks_continuous_beam randint).

(** The table a run returns when every call that returns gives one row. *)
Lemma run_one_row self w k_s :
  returns_one_row IonTracks_continuous_beam ->
  columns_aligned (exp_data self) ->
  0 < len (exp_data self) ->
  has_column (exp_data self) "Energy_MeV" = true ->
  numeric_column (exp_data self) "k_s" = Ok k_s ->
  let cfg := simulation (config self) in
  let sim :=
    map (simulated_ks IonTracks_continuous_beam cfg
           (base_seed randint cfg w))
      (iterrows (exp_data self)) in
  let clean :=
    mask_frame (map (fun x => negb (F64.isna x)) sim)
      (comparison_columns (exp_data self) sim k_s) in
  exists self' w',
    run self w = ((self', Ok clean), w') /\
    comparison_continuous self' = Some clean.
Proof.
  intros Hone Haligned Hrows Henergy Hk cfg sim clean.
  destruct (create_one_row IonTracks_continuous_beam randint self w k_s
              Hone Haligned Hrows Henergy Hk)
    as (self' & w' & Hc & _).
  fold cfg in Hc. fold sim in Hc.
  rewrite (run_of_create _ _ _ _ _ _ _ Hc), dropna_comparison_columns.
  do 2 eexists. split; reflexivity.
Qed.

Lemma mask_filter_length {A B} (mask : list bool) (l1 : list A)
    (l2 : list B) :
  length l1 = length l2 ->
  length (mask_filter mask l1) = length (mask_filter mask l2).
Proof.
  revert l1 l2. induction mask as [|b mask IH]; intros [|x l1] [|y l2] H;
    simpl in *; try discriminate; try reflexivity.
  destruct b; simpl; rewrite (IH l1 l2); auto.
Qed.

Lemma mask_frame_aligned mask df :
  columns_aligned df -> columns_aligned (mask_frame mask df).
Proof.
  unfold columns_aligned, mask_frame, len. simpl. intros H.
  rewrite Forall_map. rewrite Forall_forall in *. intros [l s] Hin.
  specialize (H _ Hin). simpl in *.
  destruct s as [v|v]; simpl in *; apply mask_filter_length; exact H.
Qed.

Lemma replace_column_aligned cols l s n :
  Forall (fun c => series_len (snd c) = n) cols ->
  series_len s = n ->
  Forall (fun c => series_len (snd c) = n) (replace_column cols l s).
Proof.
  intros H Hs. induction H as [|[l0 s0] cols H0 Hrest IH]; simpl.
  - constructor; [exact Hs|constructor].
  - destruct (String.eqb l l0); constructor; auto.
Qed.

Lemma comparison_columns_aligned exp_data sim k_s :
  columns_aligned exp_data ->
  length sim = len exp_data -> length k_s = len exp_data ->
  columns_aligned (comparison_columns exp_data sim k_s).
Proof.
  intros Hal Hs Hk. unfold columns_aligned, comparison_columns, len in *.
  unfold float64 in *. simpl.
  assert (length (map2 F64.sub sim k_s) = length (index exp_data)) as Hd.
  { rewrite map2_length, Hs, Hk. apply Nat.min_id. }
  repeat apply replace_column_aligned; try exact Hal; simpl.
  - exact Hs.
  - exact Hd.
  - rewrite map2_length, length_map, Hd, Hk. apply Nat.min_id.
  - rewrite length_map. exact Hd.
Qed.

Lemma getitem_mask_frame mask df l :
  getitem (mask_frame mask df) l
  = option_map (mask_series mask) (getitem df l).
Proof. unfold getitem, mask_frame. simpl. apply lookup_mask. Qed.

(** X10. On data with unique labels, when every returning call gives
    one row, the table of the continuous phase holds exactly the rows
    whose simulated value is not NaN, in their original order: its index
    are their index labels, its [k_s_IonTracks] column their simulated
    values, none of them NaN, every column of the data (other than the
    four the phase writes) has in it the cells of those rows, and every
    column has as many cells as the table has rows; the rows left out
    and the rows kept add up to the rows of the data. *)
Theorem continuous_clean_rows (self : ComparisonRunner) (w : World)
    (Hone : returns_one_row IonTracks_continuous_beam)
    (Haligned : columns_aligned (exp_data self))
    (Hunique : unique_labels (exp_data self))
    (Hrows : 0 < len (exp_data self))
    (Henergy : has_column (exp_data self) "Energy_MeV" = true)
    (Hks : exists k_s, numeric_column (exp_data self) "k_s" = Ok k_s) :
  let cfg := simulation (config self) in
  let base := fst (determine_seed randint cfg w) in
  let kept := row_kept IonTracks_continuous_beam cfg base in
  let rows := iterrows (exp_data self) in
  exists self' clean w',
    run self w = ((self', Ok clean), w') /\
    index clean = map fst (filter kept rows) /\
    numeric_column clean "k_s_IonTracks"
    = Ok (map (simulated_ks IonTracks_continuous_beam cfg base)
            (filter kept rows)) /\
    Forall (fun p =>
              F64.isna (simulated_ks IonTracks_continuous_beam cfg base p)
              = false) (filter kept rows) /\
    (forall l,
        ~ In l added_labels ->
        getitem clean l
        = option_map (mask_series (map kept rows))
            (getitem (exp_data self) l)) /\
    columns_aligned clean /\
    len clean + length (filter (fun p => negb (kept p)) rows)
    = len (exp_data self).
Proof.
  intros cfg base kept rows. subst base kept rows.
  rewrite determine_seed_spec. simpl fst.
  destruct Hks as (k_s & Hk).
  destruct (run_one_row self w k_s Hone Haligned Hrows Henergy Hk)
    as (self' & w' & Hrun & _).
  fold cfg in Hrun.
  do 3 eexists. split; [exact Hrun|].
  set (seed0 := base_seed randint cfg w).
  set (sim := map (simulated_ks IonTracks_continuous_beam cfg seed0)
                (iterrows (exp_data self))).
  assert (map (fun x => negb (F64.isna x)) sim
          = map (row_kept IonTracks_continuous_beam cfg seed0)
              (iterrows (exp_data self))) as Hmask.
  { unfold sim. rewrite map_map. reflexivity. }
  assert (mask_filter (map (fun x => negb (F64.isna x)) sim)
            (index (exp_data self))
          = map fst (filter (row_kept IonTracks_continuous_beam cfg seed0)
                       (iterrows (exp_data self)))) as Hidx.
  { rewrite Hmask. rewrite <- (index_iterrows (exp_data self)) at 1.
    apply mask_filter_map_filter. }
  split; [|split; [|split; [|split; [|split]]]].
  - unfold mask_frame, comparison_columns. simpl index. exact Hidx.
  - rewrite (numeric_column_mask _ _ _ sim).
    + rewrite Hmask. unfold sim. rewrite mask_filter_map_filter.
      reflexivity.
    + unfold comparison_columns. columns_step. reflexivity.
  - apply Forall_forall. intros p Hp. apply filter_In in Hp.
    destruct Hp as [_ Hp]. unfold row_kept in Hp.
    destruct (F64.isna _); [discriminate|reflexivity].
  - intros l Hl. rewrite getitem_mask_frame, Hmask.
    rewrite getitem_comparison_columns_other by exact Hl. reflexivity.
  - apply mask_frame_aligned, comparison_columns_aligned.
    + exact Haligned.
    + unfold sim. rewrite length_map. apply iterrows_length.
    + apply (aligned_numeric_length _ _ _ Haligned Hk).
  - unfold len at 1, mask_frame, comparison_columns. simpl index.
    rewrite Hidx, length_map, filter_split_length. apply iterrows_length.
Qed.

(** X11. When the labels written by the phase are not labels of the
    data, the table of the continuous phase has the columns of the data,
    in their order, followed by [k_s_IonTracks], [difference],
    [relative_error_%] and [absolute_error]. *)
Theorem continuous_table_labels (self : ComparisonRunner) (w : World)
    (self' : ComparisonRunner) (df : DataFrame) (w' : World)
    (Hrun : run self w = ((self', Ok df), w'))
    (Hnew : forall l, In l added_labels -> ~ In l (labels (exp_data self))) :
  labels df = labels (exp_data self) ++ added_labels.
Proof.
  revert Hrun. unfold run_continuous_beam, bind.
  destruct (create self w) as [[self1 [full|x]] w1] eqn:Hc;
    [|intros H; inversion H].
  destruct (create_inv _ _ _ _ _ _ _ Hc) as (cdf & _ & Hfull).
  destruct (comparison_full_inv _ _ _ Hfull) as (k_s & _ & _ & _ & ->).
  rewrite dropna_comparison_columns. intros H. inversion H; subst.
  rewrite labels_mask_frame. unfold labels, comparison_columns.
  simpl columns. unfold labels in Hnew.
  rewrite !labels_replace_new.
  - rewrite <- !app_assoc. reflexivity.
  - apply Hnew. simpl. auto.
  - rewrite labels_replace_new by (apply Hnew; simpl; auto).
    rewrite in_app_iff. intros [H1|[H1|[]]]; [|discriminate].
    revert H1. apply Hnew. simpl. auto.
  - rewrite !labels_replace_new.
    + rewrite !in_app_iff. intros [[H1|[H1|[]]]|[H1|[]]]; try discriminate.
      revert H1. apply Hnew. simpl. auto.
    + apply Hnew. simpl. auto.
    + rewrite labels_replace_new by (apply Hnew; simpl; auto).
      rewrite in_app_iff. intros [H1|[H1|[]]]; [|discriminate].
      revert H1. apply Hnew. simpl. auto.
  - rewrite !labels_replace_new.
    + rewrite !in_app_iff.
      intros [[[H1|[H1|[]]]|[H1|[]]]|[H1|[]]]; try discriminate.
      revert H1. apply Hnew. simpl. auto.
    + apply Hnew. simpl. auto.
    + rewrite labels_replace_new by (apply Hnew; simpl; auto).
      rewrite in_app_iff. intros [H1|[H1|[]]]; [|discriminate].
      revert H1. apply Hnew. simpl. auto.
    + rewrite !labels_replace_new.
      * rewrite !in_app_iff. intros [[H1|[H1|[]]]|[H1|[]]]; try discriminate.
        revert H1. apply Hnew. simpl. auto.
      * apply Hnew. simpl. auto.
      * rewrite labels_replace_new by (apply Hnew; simpl; auto).
        rewrite in_app_iff. intros [H1|[H1|[]]]; [|discriminate].
        revert H1. apply Hnew. simpl. auto.
Qed.

End ContinuousTable.

(* ===================================================================== *)
(** * The tables of the two protocols *)
(* ===================================================================== *)

Lemma record_formulas_columns (l : list initial_record) :
  Forall record_formulas l ->
  map rec_difference l
  = map2 F64.sub (map rec_k_s_IonTracks l) (map rec_k_s_experimental l) /\
  map rec_relative_error l
  = map2 F64.div
      (map (F64.mul (F64.of_Z 100))
         (map2 F64.sub (map rec_k_s_IonTracks l)
            (map rec_k_s_experimental l)))
      (map rec_k_s_experimental l).
Proof.
  induction 1 as [|r l [Hd Hr] _ [IHd IHr]]; simpl; [auto|].
  rewrite Hd, Hr, IHd, IHr. auto.
Qed.

Section Tables.

Variable ks_initial_IonTracks : Init.kwargs -> result (list Init.result_row).
Variable IonTracks_continuous_beam :
  Cont.kwargs -> result (list Cont.result_row).
Variable randint : nat -> Z -> Z -> Z.

Local Abbreviation run_initial :=
  (run_initial_recombination ks_initial_IonTracks).
Local Abbreviation run_continuous :=
  (run_continuous_beam IonTracks_continuous_beam randint).

(** The records of the table of the initial phase, with where their
    values come from. *)
Lemma run_initial_table self w self' df w' :
  run_initial self w = ((self', Ok df), w') ->
  exists energy_col k_s_col results l,
    numeric_column (exp_data self) "Energy_MeV" = Ok energy_col /\
    numeric_column (exp_data self) "k_s" = Ok k_s_col /\
    initial_results self' = Some results /\
    df = DataFrame_of_records l /\
    Forall (fun r =>
              exists row,
                find (fun row =>
                        F64.eqb (Init.col_E_MeV_u row) (rec_Energy_MeV r))
                  results = Some row /\
                rec_k_s_IonTracks r = Init.col_ks row) l /\
    Forall record_formulas l /\
    Forall (record_reference (exp_data self)) l.
Proof.
  intros Hrun.
  destruct (run_initial_k_s _ _ _ _ _ _ Hrun) as (k_s_col & Hk).
  destruct (run_initial_inv _ _ _ _ _ _ Hrun)
    as (energy_col & He & Hres & l & Hloop & Hdf).
  cbn zeta in Hres, Hloop.
  destruct (initial_comparison_loop_spec (exp_data self)
              (concat (flat_map (initial_attempt ks_initial_IonTracks
                                   (simulation (config self)))
                         (sorted (unique energy_col))))
              energy_col k_s_col (sorted (unique energy_col)) He Hk [])
    as (l' & Hl' & _ & Hfind).
  rewrite Hloop in Hl'. simpl in Hl'. inversion Hl'; subst l'.
  exists energy_col, k_s_col. eexists. exists l.
  repeat (split; [eassumption|]). split.
  - eapply initial_comparison_loop_invariant; [|constructor|exact Hloop].
    intros r Hr _. exact Hr.
  - eapply initial_comparison_loop_invariant; [|constructor|exact Hloop].
    auto.
Qed.

(** C7 as amended.  On data whose [Energy_MeV] and [k_s] are numeric
    columns: in the table of the initial protocol every record has, as simulated value, the [ks] of the first returned row with its
    energy and, as experimental value, the minimum of k_s over the rows
    of the data with its energy; in the table of the continuous protocol
    the simulated and experimental columns are the rows kept of the
    values returned and of the k_s column of the data.  In both, the
    difference is the float64 subtraction simulated - experimental and
    the relative error the float64 quotient of
    100 * (simulated - experimental) by experimental; in the continuous
    protocol the absolute error is the absolute value of the
    difference. *)
Theorem comparison_record_formulas :
  (forall self w self' df w' energy_col k_s_col,
      run_initial self w = ((self', Ok df), w') ->
      numeric_column (exp_data self) "Energy_MeV" = Ok energy_col ->
      numeric_column (exp_data self) "k_s" = Ok k_s_col ->
      exists results l,
        initial_results self' = Some results /\
        df = DataFrame_of_records l /\
        Forall (fun r =>
                  exists row,
                    find (fun row =>
                            F64.eqb (Init.col_E_MeV_u row)
                              (rec_Energy_MeV r))
                      results = Some row /\
                    let simulated := Init.col_ks row in
                    let experimental :=
                      series_min
                        (mask_filter
                           (map (fun x => F64.eqb x (rec_Energy_MeV r))
                              energy_col)
                           k_s_col) in
                    rec_k_s_IonTracks r = simulated /\
                    rec_k_s_experimental r = experimental /\
                    rec_difference r = F64.sub simulated experimental /\
                    rec_relative_error r
                    = F64.div
                        (F64.mul (F64.of_Z 100)
                           (F64.sub simulated experimental))
                        experimental) l /\
        (l <> [] ->
         exists sim k_s,
           numeric_column df "k_s_IonTracks" = Ok sim /\
           numeric_column df "k_s_experimental" = Ok k_s /\
           length sim = length l /\ length k_s = length l /\
           numeric_column df "difference" = Ok (map2 F64.sub sim k_s) /\
           numeric_column df "relative_error_%"
           = Ok (map2 F64.div
                   (map (F64.mul (F64.of_Z 100)) (map2 F64.sub sim k_s))
                   k_s))) /\
  (forall self w self' df w' v,
      run_continuous self w = ((self', Ok df), w') ->
      numeric_column (exp_data self) "k_s" = Ok v ->
      exists continuous_df mask sim k_s,
        continuous_results self' = Some continuous_df /\
        sim = mask_filter mask (map Cont.col_ks_IonTracks continuous_df) /\
        k_s = mask_filter mask v /\
        numeric_column df "k_s_IonTracks" = Ok sim /\
        numeric_column df "k_s" = Ok k_s /\
        numeric_column df "difference" = Ok (map2 F64.sub sim k_s) /\
        numeric_column df "relative_error_%"
        = Ok (map2 F64.div
                (map (F64.mul (F64.of_Z 100)) (map2 F64.sub sim k_s))
                k_s) /\
        numeric_column df "absolute_error"
        = Ok (map F64.abs (map2 F64.sub sim k_s))).
Proof.
  split.
  - intros self w self' df w' energy_col k_s_col Hrun Henergy Hks.
    destruct (run_initial_table _ _ _ _ _ Hrun)
      as (energy_col' & k_s_col' & results & l & He & Hk & Hres & Hdf
          & Hfind & Hform & Href).
    assert (energy_col' = energy_col) by congruence.
    assert (k_s_col' = k_s_col) by congruence. subst energy_col' k_s_col'.
    exists results, l.
    repeat (split; [assumption|]). split.
    + rewrite Forall_forall in *. intros r Hr.
      destruct (Hfind r Hr) as (row & Hrow & Hsim).
      destruct (Hform r Hr) as [Hd Hrel].
      destruct (Href r Hr) as (ecol & kcol & He' & Hk' & Hmin).
      assert (ecol = energy_col) by congruence.
      assert (kcol = k_s_col) by congruence. subst ecol kcol.
      exists row. split; [exact Hrow|]. cbn zeta.
      rewrite <- Hsim, <- Hmin. auto.
    + intros Hne. destruct (record_formulas_columns l Hform) as [Hd Hr].
      subst df. destruct l as [|r l]; [congruence|].
      exists (map rec_k_s_IonTracks (r :: l)),
        (map rec_k_s_experimental (r :: l)).
      split; [reflexivity|]. split; [reflexivity|].
      split; [apply length_map|]. split; [apply length_map|]. split.
      * rewrite <- Hd. reflexivity.
      * rewrite <- Hr. reflexivity.
  - intros self w self' df w' v. unfold run_continuous_beam, bind.
    destruct (create_comparison_continuous _ _ self w)
      as [[self1 [full|x]] w1] eqn:Hc; [|intros H; inversion H].
    destruct (create_inv _ _ _ _ _ _ _ Hc) as (cdf & Hself & Hfull).
    destruct (comparison_full_inv _ _ _ Hfull) as (k_s & Hk & _ & _ & ->).
    rewrite dropna_comparison_columns. intros H Hv. inversion H; subst.
    assert (k_s = v) by congruence. subst k_s.
    set (sim := map Cont.col_ks_IonTracks cdf).
    set (mask := map (fun x => negb (F64.isna x)) sim).
    exists cdf, mask, (mask_filter mask sim), (mask_filter mask v).
    split; [reflexivity|].
    split; [reflexivity|]. split; [reflexivity|].
    rewrite <- !mask_filter_map2, <- !mask_filter_map, <- !mask_filter_map2.
    repeat split; apply numeric_column_mask; unfold comparison_columns;
      columns_step; auto.
Qed.

Lemma flat_map_attempt_nonempty cfg es e res :
  In e es ->
  ks_initial_IonTracks (initial_kwargs cfg e) = Ok res ->
  flat_map (initial_attempt ks_initial_IonTracks cfg) es <> [].
Proof.
  induction es as [|e0 es IH]; simpl; [tauto|].
  intros [->|Hin] Hres.
  - unfold initial_attempt at 1. rewrite Hres. discriminate.
  - intros Hnil. apply app_eq_nil in Hnil. destruct Hnil as [_ Hnil].
    exact (IH Hin Hres Hnil).
Qed.

(** The initial phase returns as soon as the two columns it reads are
    numeric and one call returns. *)
Lemma run_initial_succeeds self w energy_col k_s_col :
  numeric_column (exp_data self) "Energy_MeV" = Ok energy_col ->
  numeric_column (exp_data self) "k_s" = Ok k_s_col ->
  (exists e res,
      In e (sorted (unique energy_col)) /\
      ks_initial_IonTracks (initial_kwargs (simulation (config self)) e)
      = Ok res) ->
  exists l, snd (fst (run_initial self w)) = Ok (DataFrame_of_records l).
Proof.
  intros He Hk (e & res & Hin & Hres).
  unfold run_initial_recombination. rewrite He. unfold bind.
  rewrite initial_loop_spec. cbn [app].
  pose proof (flat_map_attempt_nonempty _ _ _ _ Hin Hres) as Hne.
  destruct (flat_map _ (sorted (unique energy_col))) as [|r0 rs];
    [congruence|].
  cbn [exp_data set_initial_results].
  destruct (initial_comparison_loop_spec (exp_data self)
              (concat (r0 :: rs)) energy_col k_s_col
              (sorted (unique energy_col)) He Hk [])
    as (l & Hl & _).
  rewrite Hl. simpl. eauto.
Qed.

(** C8.  Initial phase: when its two columns are numeric and one call
    returns, a run returns a table and leaves it stored; every run on
    the same configuration and data returns that table and leaves it
    stored, whatever the runner had stored and whatever world it runs
    in, so a second run in a row stores the same table again, not a
    longer one.  Continuous phase, when every returning call gives one
    row: likewise for runs that work with the same base seed; a second
    run in a row returns a table and leaves that table stored, with
    rows of the data only, and the same table when a seed is
    configured.  Whenever a run returns a table, that table is what is
    stored afterwards.  A run of one phase, whether it returns or raises,
    leaves what the other phase stored as it was.  [save_results]
    writes, after the files written before, the table of each phase
    that is stored and has rows, and nothing when no phase has one. *)
Theorem phases_replace_and_frame :
  (forall self w energy_col k_s_col,
      numeric_column (exp_data self) "Energy_MeV" = Ok energy_col ->
      numeric_column (exp_data self) "k_s" = Ok k_s_col ->
      (exists e res,
          In e (sorted (unique energy_col)) /\
          ks_initial_IonTracks (initial_kwargs (simulation (config self)) e)
          = Ok res) ->
      exists df,
        (forall self2 w2,
            config self2 = config self -> exp_data self2 = exp_data self ->
            snd (fst (run_initial self2 w2)) = Ok df /\
            comparison_initial (fst (fst (run_initial self2 w2)))
            = Some df) /\
        (let self1 := fst (fst (run_initial self w)) in
         let w1 := snd (run_initial self w) in
         snd (fst (run_initial self1 w1)) = Ok df /\
         comparison_initial (fst (fst (run_initial self1 w1))) = Some df)) /\
  (forall self w,
      returns_one_row IonTracks_continuous_beam ->
      columns_aligned (exp_data self) ->
      0 < len (exp_data self) ->
      has_column (exp_data self) "Energy_MeV" = true ->
      (exists k_s, numeric_column (exp_data self) "k_s" = Ok k_s) ->
      exists df,
        (forall self2 w2,
            config self2 = config self -> exp_data self2 = exp_data self ->
            base_seed randint (simulation (config self)) w2
            = base_seed randint (simulation (config self)) w ->
            snd (fst (run_continuous self2 w2)) = Ok df /\
            comparison_continuous (fst (fst (run_continuous self2 w2)))
            = Some df) /\
        (let self1 := fst (fst (run_continuous self w)) in
         let w1 := snd (run_continuous self w) in
         exists df',
           snd (fst (run_continuous self1 w1)) = Ok df' /\
           comparison_continuous (fst (fst (run_continuous self1 w1)))
           = Some df' /\
           len df' <= len (exp_data self) /\
           (seed (simulation (config self)) <> None -> df' = df))) /\
  (forall self w df,
      (snd (fst (run_initial self w)) = Ok df ->
       comparison_initial (fst (fst (run_initial self w))) = Some df) /\
      (snd (fst (run_continuous self w)) = Ok df ->
       comparison_continuous (fst (fst (run_continuous self w)))
       = Some df)) /\
  (forall self w,
      continuous_results (fst (fst (run_initial self w)))
      = continuous_results self /\
      comparison_continuous (fst (fst (run_initial self w)))
      = comparison_continuous self /\
      initial_results (fst (fst (run_continuous self w)))
      = initial_results self /\
      comparison_initial (fst (fst (run_continuous self w)))
      = comparison_initial self) /\
  (forall self w,
      save_results self w
      = (tt, mkWorld (calls w) (draws w)
               (files w ++ saved_initial self ++ saved_continuous self))) /\
  (forall self,
      absent_or_empty (comparison_initial self) ->
      absent_or_empty (comparison_continuous self) ->
      saved_initial self ++ saved_continuous self = []).
Proof.
  assert (forall self w df,
             snd (fst (run_initial self w)) = Ok df ->
             comparison_initial (fst (fst (run_initial self w))) = Some df)
    as Hstored_i.
  { intros self w df H.
    destruct (run_initial_frame ks_initial_IonTracks self w)
      as (_ & _ & _ & _ & Hs).
    rewrite H in Hs. exact Hs. }
  assert (forall self w df,
             snd (fst (run_continuous self w)) = Ok df ->
             comparison_continuous (fst (fst (run_continuous self w)))
             = Some df) as Hstored_c.
  { intros self w df H.
    destruct (run_continuous_frame IonTracks_continuous_beam randint self w)
      as (_ & _ & _ & _ & Hs).
    rewrite H in Hs. exact Hs. }
  split; [|split; [|split; [|split; [|split]]]].
  - intros self w energy_col k_s_col He Hk Hsome.
    destruct (run_initial_succeeds self w energy_col k_s_col He Hk Hsome)
      as (l & Hl).
    exists (DataFrame_of_records l).
    assert (forall self2 w2,
               config self2 = config self -> exp_data self2 = exp_data self ->
               snd (fst (run_initial self2 w2))
               = Ok (DataFrame_of_records l) /\
               comparison_initial (fst (fst (run_initial self2 w2)))
               = Some (DataFrame_of_records l)) as Hall.
    { intros self2 w2 Hc Hd.
      assert (snd (fst (run_initial self2 w2))
              = Ok (DataFrame_of_records l)) as H2.
      { rewrite <- Hl.
        apply (run_initial_result_indep ks_initial_IonTracks); auto. }
      split; [exact H2|]. apply Hstored_i. exact H2. }
    split; [exact Hall|]. cbn zeta.
    destruct (run_initial_frame ks_initial_IonTracks self w)
      as (Hc & Hd & _).
    apply Hall; assumption.
  - intros self w Hone Haligned Hrows Henergy (k_s & Hk).
    assert (forall self2 w2,
               config self2 = config self -> exp_data self2 = exp_data self ->
               exists clean,
                 snd (fst (run_continuous self2 w2)) = Ok clean /\
                 clean
                 = mask_frame
                     (map (fun x => negb (F64.isna x))
                        (map (simulated_ks IonTracks_continuous_beam
                                (simulation (config self))
                                (base_seed randint
                                   (simulation (config self)) w2))
                           (iterrows (exp_data self))))
                     (comparison_columns (exp_data self)
                        (map (simulated_ks IonTracks_continuous_beam
                                (simulation (config self))
                                (base_seed randint
                                   (simulation (config self)) w2))
                           (iterrows (exp_data self))) k_s)) as Hrun.
    { intros self2 w2 Hc Hd.
      destruct (run_one_row IonTracks_continuous_beam randint self2 w2 k_s)
        as (s2 & w2' & Hr & _); try (rewrite Hd; assumption); auto.
      rewrite Hr, Hc, Hd. simpl. eauto. }
    destruct (Hrun self w eq_refl eq_refl) as (df & Hdf & Hclean).
    exists df. split.
    + intros self2 w2 Hc Hd Hseed.
      destruct (Hrun self2 w2 Hc Hd) as (df2 & Hdf2 & Hclean2).
      assert (df2 = df) as Heq
        by (rewrite Hclean, Hclean2, Hseed; reflexivity).
      rewrite Heq in Hdf2. split; [exact Hdf2|]. apply Hstored_c.
      exact Hdf2.
    + cbn zeta.
      destruct (run_continuous_frame IonTracks_continuous_beam randint
                  self w) as (Hc & Hd & _).
      destruct (Hrun _ (snd (run_continuous self w)) Hc Hd)
        as (df' & Hdf' & Hclean').
      exists df'. split; [exact Hdf'|].
      split; [apply Hstored_c; exact Hdf'|]. split.
      * rewrite Hclean'. unfold len, mask_frame, comparison_columns.
        simpl index. clear.
        generalize (index (exp_data self)).
        generalize (map (fun x => negb (F64.isna x))
                      (map (simulated_ks IonTracks_continuous_beam
                              (simulation (config self))
                              (base_seed randint (simulation (config self))
                                 (snd (run_continuous self w))))
                         (iterrows (exp_data self)))).
        intros mask. induction mask as [|b mask IH]; intros [|i idx];
          simpl; try lia.
        destruct b; simpl; specialize (IH idx); lia.
      * intros Hseed. rewrite Hclean, Hclean'. unfold base_seed.
        destruct (seed (simulation (config self))); [reflexivity|congruence].
  - intros self w df. split; [apply Hstored_i|apply Hstored_c].
  - intros self w.
    destruct (run_initial_frame ks_initial_IonTracks self w)
      as (_ & _ & H1 & H2 & _).
    destruct (run_continuous_frame IonTracks_continuous_beam randint self w)
      as (_ & _ & H3 & H4 & _).
    auto.
  - apply save_results_spec.
  - intros self Hi Hc. unfold saved_initial, saved_continuous.
    destruct (comparison_initial self) as [di|];
      destruct (comparison_continuous self) as [dc|]; simpl in *;
      rewrite ?Hi, ?Hc; reflexivity.
Qed.

End Tables.

Lemma comparison_record_formulas_witness :
  exists self' df w' sim k_s,
    run_continuous_beam (stub_continuous [45%Z]) lowest_draw
      (two_energies_runner (Some 42%Z)) initial_world
    = ((self', Ok df), w') /\
    numeric_column df "k_s_IonTracks" = Ok sim /\
    numeric_column df "k_s" = Ok k_s /\
    length sim = 5 /\
    numeric_column df "difference" = Ok (map2 F64.sub sim k_s) /\
    numeric_column df "relative_error_%"
    = Ok (map2 F64.div
            (map (F64.mul (F64.of_Z 100)) (map2 F64.sub sim k_s)) k_s) /\
    numeric_column df "absolute_error"
    = Ok (map F64.abs (map2 F64.sub sim k_s)).
Proof.
  pose (out := run_continuous_beam (stub_continuous [45%Z]) lowest_draw
                 (two_energies_runner (Some 42%Z)) initial_world).
  assert (run_continuous_beam (stub_continuous [45%Z]) lowest_draw
            (two_energies_runner (Some 42%Z)) initial_world = out) as E
    by reflexivity.
  vm_compute in out.
  destruct (proj2 (comparison_record_formulas stub_initial
                     (stub_continuous [45%Z]) lowest_draw) _ _ _ _ _ _ E
              eq_refl)
    as (cdf & mask & sim & k_s & _ & _ & _ & H1 & H2 & H3 & H4 & H5).
  do 3 eexists. exists sim, k_s. split; [exact E|].
  split; [exact H1|]. split; [exact H2|]. split; [|auto].
  vm_compute in H1. inversion H1. reflexivity.
Defined.

Lemma phases_replace_and_frame_witness :
  exists df,
    snd (fst (run_initial_recombination stub_initial
                (set_comparison_initial (two_energies_runner None) one_row)
                initial_world))
    = Ok df /\
    comparison_initial
      (fst (fst (run_initial_recombination stub_initial
                   (set_comparison_initial (two_energies_runner None)
                      one_row)
                   initial_world)))
    = Some df /\
    len df = 2.
Proof.
  destruct (proj1 (phases_replace_and_frame stub_initial
                     (stub_continuous []) lowest_draw)
              (two_energies_runner None) initial_world
              (map F64.of_Z [10; 10; 10; 20; 20; 20]%Z)
              [ F64.of_ratio 95 100; F64.of_ratio 90 100;
                F64.of_ratio 80 100; F64.of_ratio 97 100;
                F64.of_ratio 93 100; F64.of_ratio 85 100 ]
              eq_refl eq_refl) as (df & Hall & _).
  - exists (F64.of_Z 10). eexists. split; [|reflexivity].
    vm_compute. auto.
  - exists df.
    destruct (Hall (set_comparison_initial (two_energies_runner None)
                      one_row) initial_world eq_refl eq_refl) as [H1 H2].
    split; [exact H1|]. split; [exact H2|].
    vm_compute in H1. inversion H1. reflexivity.
Defined.

Lemma continuous_clean_rows_witness :
  exists self' clean w',
    run_continuous_beam (stub_continuous [43%Z; 46%Z]) lowest_draw
      (two_energies_runner (Some 42%Z)) initial_world
    = ((self', Ok clean), w') /\
    index clean = [0; 2; 3; 5]%Z /\
    numeric_column clean "k_s_IonTracks"
    = Ok [ F64.of_ratio 9 10; F64.of_ratio 9 10; F64.of_ratio 9 10;
           F64.of_ratio 9 10 ] /\
    getitem clean "k_s"
    = Some (NumSeries [ F64.of_ratio 95 100; F64.of_ratio 80 100;
                        F64.of_ratio 97 100; F64.of_ratio 85 100 ]) /\
    columns_aligned clean /\
    len clean + 2 = 6.
Proof.
  pose proof (continuous_clean_rows (stub_continuous [43%Z; 46%Z])
                lowest_draw (two_energies_runner (Some 42%Z)) initial_world
                (stub_continuous_one_row _) two_energies_aligned
                two_energies_unique) as H.
  cbv zeta in H.
  destruct H as (self' & clean & w' & Hrun & Hidx & Hsim & _ & Hcells
                 & Hal & Hlen).
  - vm_compute. lia.
  - reflexivity.
  - eexists. reflexivity.
  - exists self', clean, w'. split; [exact Hrun|]. split.
    + rewrite Hidx. vm_compute. reflexivity.
    + split; [rewrite Hsim; vm_compute; reflexivity|].
      split; [|split; [exact Hal|exact Hlen]].
      rewrite (Hcells "k_s"); [vm_compute; reflexivity|].
      simpl. intuition discriminate.
Defined.

Lemma continuous_table_labels_witness :
  exists self' df w',
    run_continuous_beam (stub_continuous [45%Z]) lowest_draw
      (two_energies_runner (Some 42%Z)) initial_world
    = ((self', Ok df), w') /\
    labels df
    = [ "Energy_MeV"; "k_s"; "dose_rate_Gy_s"; "dose_rate_Gy_min";
        "k_s_IonTracks"; "difference"; "relative_error_%";
        "absolute_error" ].
Proof.
  pose (out := run_continuous_beam (stub_continuous [45%Z]) lowest_draw
                 (two_energies_runner (Some 42%Z)) initial_world).
  assert (run_continuous_beam (stub_continuous [45%Z]) lowest_draw
            (two_energies_runner (Some 42%Z)) initial_world = out) as E
    by reflexivity.
  vm_compute in out.
  do 3 eexists. split; [exact E|].
  rewrite (continuous_table_labels (stub_continuous [45%Z]) lowest_draw
             _ _ _ _ _ E); [reflexivity|].
  intros l Hl. simpl. simpl in Hl. intuition (subst; discriminate).
Defined.

(* ===================================================================== *)
(** * Errors and effects of the phases *)
(* ===================================================================== *)

Lemma numeric_column_raise df l x :
  numeric_column df l = Raise x -> not_RuntimeError x.
Proof.
  unfold numeric_column.
  destruct (getitem df l) as [[v|v]|]; intros H; inversion H; exact I.
Qed.

Lemma setitem_raise df l v x :
  setitem df l v = Raise x -> not_RuntimeError x.
Proof.
  unfold setitem. destruct (Nat.eqb _ _); intros H; inversion H; exact I.
Qed.

Lemma comparison_full_raise exp_data continuous_df x :
  continuous_comparison_full exp_data continuous_df = Raise x ->
  not_RuntimeError x.
Proof.
  unfold continuous_comparison_full.
  repeat match goal with
         | |- match ?t with _ => _ end = _ -> _ =>
             let E := fresh "E" in
             destruct t eqn:E;
             try (intros H; inversion H; subst;
                  first [ eapply numeric_column_raise; eassumption
                        | eapply setitem_raise; eassumption ])
         end.
Qed.

Lemma dropna_raise df l x : dropna df l = Raise x -> not_RuntimeError x.
Proof.
  unfold dropna. destruct (numeric_column df l) eqn:E; [discriminate|].
  intros H. inversion H; subst. eapply numeric_column_raise; eauto.
Qed.

Lemma iterrows_nil df : len df = 0 -> iterrows df = [].
Proof.
  intros H. pose proof (iterrows_length df) as Hl. rewrite H in Hl.
  destruct (iterrows df); [reflexivity|discriminate].
Qed.

Section PhaseErrors.

Variable ks_initial_IonTracks : Init.kwargs -> result (list Init.result_row).
Variable IonTracks_continuous_beam :
  Cont.kwargs -> result (list Cont.result_row).
Variable randint : nat -> Z -> Z -> Z.

Local Abbreviation create :=
  (create_comparison_continuous IonTracks_continuous_beam randint).
Local Abbreviation run_continuous :=
  (run_continuous_beam IonTracks_continuous_beam randint).
Local Abbreviation run_initial :=
  (run_initial_recombination ks_initial_IonTracks).

(** X12. When the frames returned for the rows do not add up to one row
    per row of the data, the continuous phase raises the length error of
    the column assignment; [continuous_results] has been stored by then,
    [comparison_continuous] has not. *)
Theorem continuous_length_mismatch (self : ComparisonRunner) (w : World)
    (Haligned : columns_aligned (exp_data self))
    (Hrows : 0 < len (exp_data self))
    (Henergy : has_column (exp_data self) "Energy_MeV" = true) :
  let cfg := simulation (config self) in
  let base := fst (determine_seed randint cfg w) in
  let continuous_df :=
    concat (map (row_result IonTracks_continuous_beam cfg base)
              (iterrows (exp_data self))) in
  length continuous_df <> len (exp_data self) ->
  exists w',
    run_continuous self w
    = ((set_continuous_results self continuous_df,
        Raise (ValueError_length_mismatch (length continuous_df)
                 (len (exp_data self)))),
       w').
Proof.
  intros cfg base continuous_df. subst base continuous_df.
  rewrite determine_seed_spec. simpl fst. intros Hne.
  pose proof (iterrows_rows_have _ _ Haligned Henergy) as HE.
  pose proof (create_spec IonTracks_continuous_beam randint self w HE Hrows)
    as Hc. simpl in Hc. fold cfg in Hc.
  unfold run_continuous_beam, bind. rewrite Hc.
  unfold continuous_comparison_full, setitem.
  rewrite length_map. apply Nat.eqb_neq in Hne. rewrite Hne.
  eexists. reflexivity.
Qed.

(** X13. On a frame with aligned columns and an [Energy_MeV] column, the
    continuous phase raises its [RuntimeError] exactly when the frame has
    no row. *)
Theorem continuous_runtime_error_iff_no_rows (self : ComparisonRunner)
    (w : World)
    (Haligned : columns_aligned (exp_data self))
    (Henergy : has_column (exp_data self) "Energy_MeV" = true) :
  snd (fst (run_continuous self w))
  = Raise (RuntimeError "Failed to calculate any results for Continuous Beam")
  <-> len (exp_data self) = 0.
Proof.
  split.
  - intros H. destruct (len (exp_data self)) as [|n] eqn:Hlen;
      [reflexivity|].
    exfalso.
    pose proof (iterrows_rows_have _ _ Haligned Henergy) as HE.
    assert (0 < len (exp_data self)) as Hrows by lia.
    pose proof (create_spec IonTracks_continuous_beam randint self w HE Hrows)
      as Hc. simpl in Hc.
    revert H. unfold run_continuous_beam, bind. rewrite Hc.
    destruct (continuous_comparison_full _ _) as [full|x] eqn:Hf; simpl.
    + destruct (dropna full "k_s_IonTracks") as [clean|x] eqn:Hd; simpl;
        [discriminate|].
      intros H. inversion H; subst. apply dropna_raise in Hd. exact Hd.
    + intros H. inversion H; subst. apply comparison_full_raise in Hf.
      exact Hf.
  - intros Hlen. unfold run_continuous_beam, create_comparison_continuous, bind.
    rewrite determine_seed_spec, (iterrows_nil _ Hlen). reflexivity.
Qed.

Lemma continuous_loop_world cfg seed rows : forall acc w,
  draws (snd (continuous_loop IonTracks_continuous_beam cfg seed rows acc w))
  = draws w /\
  files (snd (continuous_loop IonTracks_continuous_beam cfg seed rows acc w))
  = files w.
Proof.
  induction rows as [|[idx row] rows IH]; intros acc w; simpl; [auto|].
  unfold bind, continuous_try, call_continuous, ret.
  destruct (continuous_kwargs cfg seed idx row) as [a|x].
  - destruct (IonTracks_continuous_beam a) as [res|x];
      [exact (IH _ (mkWorld _ _ _))|].
    destruct (row_get row "Energy_MeV"); simpl; auto.
    exact (IH _ (mkWorld _ _ _)).
  - destruct (row_get row "Energy_MeV"); simpl; auto.
Qed.

Lemma run_continuous_world self w :
  draws (snd (run_continuous self w))
  = match seed (simulation (config self)) with
    | Some _ => draws w
    | None => S (draws w)
    end /\
  files (snd (run_continuous self w)) = files w.
Proof.
  unfold run_continuous_beam, create_comparison_continuous, bind.
  rewrite determine_seed_spec.
  match goal with |- context [continuous_loop _ ?c ?s ?r ?a0 ?w0] =>
    pose proof (continuous_loop_world c s r a0 w0) as Hw;
    destruct (continuous_loop IonTracks_continuous_beam c s r a0 w0)
      as [[[|res l]|x] w1]
  end; simpl in Hw; destruct Hw as [Hd Hf]; simpl.
  - auto.
  - destruct (continuous_comparison_full _ _) as [full|x]; simpl; auto.
    destruct (dropna full "k_s_IonTracks"); simpl; auto.
  - auto.
Qed.

Lemma run_initial_world self w :
  draws (snd (run_initial self w)) = draws w /\
  files (snd (run_initial self w)) = files w.
Proof.
  unfold run_initial_recombination.
  destruct (numeric_column (exp_data self) "Energy_MeV") as [col|x];
    [|auto].
  unfold bind. rewrite initial_loop_spec. cbn [app].
  destruct (flat_map _ _); [auto|].
  destruct (initial_comparison_loop _ _ _ _); auto.
Qed.

(** X14. What the methods leave alone: no phase writes a file; the
    initial phase draws no random number; the continuous phase draws one
    when no seed is configured and none otherwise; [save_results] calls
    no simulation, draws nothing and keeps the files written before. *)
Theorem effects_of_methods (self : ComparisonRunner) (w : World) :
  (draws (snd (run_initial self w)) = draws w /\
   files (snd (run_initial self w)) = files w) /\
  (draws (snd (run_continuous self w))
   = match seed (simulation (config self)) with
     | Some _ => draws w
     | None => S (draws w)
     end /\
   files (snd (run_continuous self w)) = files w) /\
  (calls (snd (save_results self w)) = calls w /\
   draws (snd (save_results self w)) = draws w /\
   exists written, files (snd (save_results self w)) = files w ++ written).
Proof.
  split; [apply run_initial_world|]. split; [apply run_continuous_world|].
  rewrite save_results_spec. simpl. eauto.
Qed.

Local Abbreviation run_all' :=
  (run_all ks_initial_IonTracks IonTracks_continuous_beam randint).

(** X15. [run_all] stops at the first phase that raises: when the initial
    phase is enabled and raises, the continuous phase is not started (the
    run ends in the state and the world the initial phase left); when the
    initial phase returned and the continuous phase raises, the exception
    leaves [run_all] and the table of the initial phase stays in the
    runner. *)
Theorem run_all_stops_at_failure (self : ComparisonRunner) (w : World) :
  compare_initial_recombination (config self) = true ->
  (forall x,
      snd (fst (run_initial self w)) = Raise x ->
      run_all' self w
      = ((fst (fst (run_initial self w)), Raise x), snd (run_initial self w)))
  /\
  (forall df x,
      snd (fst (run_initial self w)) = Ok df ->
      compare_continuous_beam (config self) = true ->
      snd (fst (run_continuous (fst (fst (run_initial self w)))
                  (snd (run_initial self w)))) = Raise x ->
      snd (fst (run_all' self w)) = Raise x /\
      comparison_initial (fst (fst (run_all' self w))) = Some df).
Proof.
  intros Hflag. split.
  - intros x Hx. unfold run_all, bind. rewrite Hflag.
    destruct (run_initial self w) as [[s1 r1] w1]. simpl in *. subst r1.
    reflexivity.
  - intros df x Hok Hc Hx. unfold run_all, bind. rewrite Hflag.
    pose proof (run_initial_frame ks_initial_IonTracks self w) as Hfr.
    destruct (run_initial self w) as [[s1 r1] w1]. simpl in *. subst r1.
    destruct Hfr as (Hcfg & _ & _ & _ & Hci).
    simpl. rewrite Hcfg, Hc. unfold ret.
    pose proof (run_continuous_frame IonTracks_continuous_beam randint s1 w1)
      as Hfr2.
    destruct (run_continuous s1 w1) as [[s2 r2] w2]. simpl in *. subst r2.
    destruct Hfr2 as (_ & _ & _ & Hci2 & _).
    split; [reflexivity|congruence].
Qed.

Lemma run_all_files self w : files (snd (run_all' self w)) = files w.
Proof.
  unfold run_all, bind.
  destruct (compare_initial_recombination (config self)).
  - pose proof (run_initial_world self w) as [_ Hf].
    destruct (run_initial self w) as [[s1 r1] w1]. simpl in *.
    destruct r1 as [df|x]; simpl; [|exact Hf].
    destruct (compare_continuous_beam (config s1)); [|exact Hf].
    pose proof (run_continuous_world s1 w1) as [_ Hf2].
    destruct (run_continuous s1 w1) as [[s2 r2] w2]. simpl in *.
    congruence.
  - simpl.
    destruct (compare_continuous_beam (config self)); [|reflexivity].
    pose proof (run_continuous_world self w) as [_ Hf2].
    destruct (run_continuous self w) as [[s2 r2] w2]. simpl in *.
    exact Hf2.
Qed.

(** X16. When [run_and_save] ends with an exception (the load, or a
    phase, raised), no file has been written, not even the table of a
    phase that had completed. *)
Theorem nothing_saved_on_failure (conf : ComparisonConfig) (w : World)
    (x : exception) :
  fst (run_and_save ks_initial_IonTracks IonTracks_continuous_beam randint
         conf w) = Raise x ->
  files (snd (run_and_save ks_initial_IonTracks IonTracks_continuous_beam
                randint conf w)) = files w.
Proof.
  unfold run_and_save. destruct (init conf) as [runner|e]; [|reflexivity].
  unfold bind at 1 3.
  pose proof (run_all_files runner w) as Hfiles.
  destruct (run_all' runner w) as [[r1 [u|e]] w1]; simpl in Hfiles.
  - unfold bind, ret. destruct (save_results r1 w1). simpl. discriminate.
  - intros _. exact Hfiles.
Qed.

End PhaseErrors.

Lemma continuous_length_mismatch_witness :
  snd (fst (run_continuous_beam stub_two_rows lowest_draw
              (two_energies_runner (Some 42%Z)) initial_world))
  = Raise (ValueError_length_mismatch 12 6).
Proof.
  pose proof (continuous_length_mismatch stub_two_rows lowest_draw
                (two_energies_runner (Some 42%Z)) initial_world
                two_energies_aligned) as H.
  cbv zeta in H.
  destruct H as (w' & Hrun).
  - vm_compute. lia.
  - reflexivity.
  - vm_compute. intros H. discriminate.
  - rewrite Hrun. reflexivity.
Defined.

Lemma continuous_runtime_error_iff_no_rows_witness :
  snd (fst (run_continuous_beam (stub_continuous []) lowest_draw
              no_rows_runner initial_world))
  = Raise (RuntimeError "Failed to calculate any results for Continuous Beam").
Proof.
  apply (proj2 (continuous_runtime_error_iff_no_rows (stub_continuous [])
                  lowest_draw no_rows_runner initial_world
                  ltac:(unfold columns_aligned; repeat constructor)
                  eq_refl)).
  reflexivity.
Defined.

Lemma run_all_stops_at_failure_witness :
  run_all no_initial (stub_continuous []) lowest_draw
    (two_energies_runner (Some 42%Z)) initial_world
  = ((two_energies_runner (Some 42%Z),
      Raise (RuntimeError
               "Failed to calculate any results for Initial Recombination")),
     snd (run_initial_recombination no_initial
            (two_energies_runner (Some 42%Z)) initial_world)) /\
  snd (fst (run_all stub_initial stub_two_rows lowest_draw
              (two_energies_runner (Some 42%Z)) initial_world))
  = Raise (ValueError_length_mismatch 12 6).
Proof.
  split.
  - apply (proj1 (run_all_stops_at_failure no_initial (stub_continuous [])
                    lowest_draw (two_energies_runner (Some 42%Z))
                    initial_world eq_refl)).
    reflexivity.
  - pose (out := run_initial_recombination stub_initial
                   (two_energies_runner (Some 42%Z)) initial_world).
    assert (run_initial_recombination stub_initial
              (two_energies_runner (Some 42%Z)) initial_world = out) as E
      by reflexivity.
    vm_compute in out.
    refine (proj1 (proj2 (run_all_stops_at_failure stub_initial stub_two_rows
                            lowest_draw (two_energies_runner (Some 42%Z))
                            initial_world eq_refl)
                     _ _ _ eq_refl _)).
    + rewrite E. reflexivity.
    + vm_compute. reflexivity.
Defined.

Lemma nothing_saved_on_failure_witness :
  files (snd (run_and_save stub_initial stub_two_rows lowest_draw
                (default_config (Parsed two_energies_csv) (Some 42%Z))
                initial_world))
  = [].
Proof.
  apply (nothing_saved_on_failure stub_initial stub_two_rows lowest_draw
           (default_config (Parsed two_energies_csv) (Some 42%Z))
           initial_world (ValueError_length_mismatch 12 6)).
  vm_compute. reflexivity.
Defined.

(* ===================================================================== *)
(** * What [save_results] writes *)
(* ===================================================================== *)

Lemma filter_has_column df cols :
  Forall (fun c => has_column df c = true) (filter (has_column df) cols).
Proof.
  apply Forall_forall. intros c Hc. apply filter_In in Hc. tauto.
Qed.

Lemma select_columns_labels df cols :
  Forall (fun c => has_column df c = true) cols ->
  map fst (select_columns df cols) = cols.
Proof.
  induction 1 as [|c cols Hc _ IH]; simpl; [reflexivity|].
  apply has_column_true in Hc. destruct Hc as (s & ->). simpl.
  rewrite IH. reflexivity.
Qed.

Lemma lookup_select_columns df cols l :
  Forall (fun c => has_column df c = true) cols ->
  In l cols ->
  lookup (select_columns df cols) l = getitem df l.
Proof.
  induction 1 as [|c cols Hc _ IH]; simpl; [tauto|].
  apply has_column_true in Hc. destruct Hc as (s & Hs). rewrite Hs.
  simpl. intros Hin. destruct (String.eqb l c) eqn:E.
  - apply String.eqb_eq in E. subst. auto.
  - apply IH. destruct Hin as [->|Hin]; [|exact Hin].
    rewrite String.eqb_refl in E. discriminate.
Qed.

(** X17. For a continuous table with rows and unique labels,
    [save_results] writes the table and then its clean version: the columns of
    [Energy_MeV, dose_rate_Gy_s, k_s, k_s_IonTracks, difference,
    relative_error_%, absolute_error] that the table has, in that order,
    each with the cells it has in the table, and the same rows. *)
Theorem saved_clean_table (self : ComparisonRunner) (w : World)
    (df : DataFrame)
    (Htable : comparison_continuous self = Some df)
    (Hunique : unique_labels df)
    (Hrows : 0 < len df) :
  exists clean,
    files (snd (save_results self w))
    = files w ++ saved_initial self
        ++ [ (path_join (output_dir (config self))
                "comparison_continuous.csv", df);
             (path_join (output_dir (config self))
                "comparison_continuous_clean.csv", clean) ] /\
    labels clean = filter (has_column df) clean_cols /\
    index clean = index df /\
    forall l, In l (labels clean) -> getitem clean l = getitem df l.
Proof.
  exists (mkDataFrame (index df)
            (select_columns df (filter (has_column df) clean_cols))).
  assert (labels (mkDataFrame (index df)
                    (select_columns df (filter (has_column df) clean_cols)))
          = filter (has_column df) clean_cols) as Hlabels.
  { unfold labels. cbn [columns].
    apply select_columns_labels, filter_has_column. }
  split; [|split; [exact Hlabels|split; [reflexivity|]]].
  - rewrite save_results_spec. simpl files. unfold saved_continuous.
    rewrite Htable. apply Nat.ltb_lt in Hrows. rewrite Hrows. reflexivity.
  - intros l Hl. rewrite Hlabels in Hl. unfold getitem at 1. cbn [columns].
    apply lookup_select_columns; [apply filter_has_column|exact Hl].
Qed.

Lemma saved_clean_table_witness :
  exists clean,
    files (snd (save_results
                  (set_comparison_continuous (two_energies_runner None)
                     two_energies)
                  initial_world))
    = [ ("results/comparison_continuous.csv", two_energies);
        ("results/comparison_continuous_clean.csv", clean) ] /\
    labels clean = [ "Energy_MeV"; "dose_rate_Gy_s"; "k_s" ].
Proof.
  destruct (saved_clean_table
              (set_comparison_continuous (two_energies_runner None)
                 two_energies)
              initial_world two_energies eq_refl two_energies_unique)
    as (clean & Hfiles & Hlabels & _).
  - vm_compute. lia.
  - exists clean. split; [exact Hfiles|exact Hlabels].
Defined.

(** X18. When every call of the continuous phase raises, the phase still
    returns, and [save_results] then writes no file for it: neither the
    table nor its clean version. *)
Theorem all_rows_fail_nothing_saved
    (IonTracks_continuous_beam : Cont.kwargs -> result (list Cont.result_row))
    (randint : nat -> Z -> Z -> Z)
    (self : ComparisonRunner) (w : World)
    (Hfail : forall a, exists x, IonTracks_continuous_beam a = Raise x)
    (Haligned : columns_aligned (exp_data self))
    (Hrows : 0 < len (exp_data self))
    (Henergy : has_column (exp_data self) "Energy_MeV" = true)
    (Hks : exists k_s, numeric_column (exp_data self) "k_s" = Ok k_s) :
  exists self' clean w',
    run_continuous_beam IonTracks_continuous_beam randint self w
    = ((self', Ok clean), w') /\
    saved_continuous self' = [] /\
    forall w2,
      files (snd (save_results self' w2)) = files w2 ++ saved_initial self'.
Proof.
  destruct Hks as (k_s & Hk).
  assert (returns_one_row IonTracks_continuous_beam) as Hone.
  { intros a res Ha. destruct (Hfail a) as (x & Hx). congruence. }
  destruct (run_one_row IonTracks_continuous_beam randint self w k_s
              Hone Haligned Hrows Henergy Hk)
    as (self' & w' & Hrun & Hstored).
  assert (saved_continuous self' = []) as Hsaved.
  { unfold saved_continuous. rewrite Hstored.
    unfold len, mask_frame, comparison_columns. simpl index.
    rewrite mask_filter_all_false; [reflexivity|].
    apply Forall_forall. intros x Hx. apply in_map_iff in Hx.
    destruct Hx as (p & <- & _). unfold simulated_ks.
    destruct (continuous_kwargs _ _ _ _) as [a|y]; [|reflexivity].
    destruct (Hfail a) as (y & ->). reflexivity. }
  do 3 eexists. split; [exact Hrun|]. split; [exact Hsaved|].
  intros w2. rewrite save_results_spec, Hsaved, app_nil_r. reflexivity.
Qed.

Lemma all_rows_fail_nothing_saved_witness :
  exists self' clean w',
    run_continuous_beam always_raises lowest_draw
      (two_energies_runner (Some 42%Z)) initial_world
    = ((self', Ok clean), w') /\
    files (snd (save_results self' w')) = [].
Proof.
  destruct (all_rows_fail_nothing_saved always_raises lowest_draw
              (two_energies_runner (Some 42%Z)) initial_world)
    as (self' & clean & w' & Hrun & Hsaved & Hfiles).
  - intros a. eexists. reflexivity.
  - exact two_energies_aligned.
  - vm_compute. lia.
  - reflexivity.
  - eexists. reflexivity.
  - exists self', clean, w'. split; [exact Hrun|].
    rewrite Hfiles.
    pose proof (run_continuous_frame always_raises lowest_draw
                  (two_energies_runner (Some 42%Z)) initial_world) as Hfr.
    pose proof (run_continuous_world always_raises lowest_draw
                  (two_energies_runner (Some 42%Z)) initial_world)
      as [_ Hw].
    rewrite Hrun in Hfr, Hw. simpl in Hfr, Hw.
    destruct Hfr as (_ & _ & _ & Hci & _).
    rewrite Hw. unfold saved_initial. rewrite Hci. reflexivity.
Defined.

(* ===================================================================== *)
(** * The outcome of a load and the calls of a whole run *)
(* ===================================================================== *)

Lemma validate_false_errors df e k d :
  fst (validate_experimental_data df e k d) = false ->
  snd (validate_experimental_data df e k d) <> [].
Proof.
  unfold validate_experimental_data.
  destruct (filter _ _); [|intros _; discriminate].
  destruct (Nat.eqb (len df) 0); [intros _; discriminate|].
  cbn [fst snd]. destruct (_ ++ _); [discriminate|intros _; discriminate].
Qed.

Lemma labelled_app_other df l l' s :
  String.eqb l l' = false ->
  labelled (mkDataFrame (index df) (columns df ++ [(l', s)])) l
  = labelled df l.
Proof.
  intros E. unfold labelled. cbn [columns].
  rewrite filter_app, map_app. simpl. rewrite E. apply app_nil_r.
Qed.

(** The one column of the renamed file under a canonical label. *)
Lemma renamed_labelled df e k d l v :
  unique_labels (rename df e k d) ->
  getitem df l = Some (NumSeries v) ->
  labelled (rename df e k d) (rename_label e k d l) = [NumSeries v].
Proof.
  intros Huniq Hg. apply labelled_unique; [exact Huniq|].
  unfold getitem. apply NoDup_lookup; [exact Huniq|].
  unfold rename. simpl. apply in_map_iff.
  exists (l, NumSeries v). split; [reflexivity|apply lookup_In; exact Hg].
Qed.

(** The load of a valid data set, up to the last message. *)
Lemma load_after_validation df ec kc dc e k d :
  resolve_energy df ec = Ok e -> resolve_ks df kc = Ok k ->
  resolve_dose_rate df dc = Ok d ->
  unique_labels (rename df e k d) ->
  valid_dataset df e k d ->
  exists exp_data,
    add_dose_rate_Gy_min (rename df e k d) = Ok exp_data /\
    labelled exp_data "Energy_MeV"
    = labelled (rename df e k d) "Energy_MeV" /\
    load_experimental_data (Parsed df) ec kc dc
    = match energies_message exp_data with
      | Raise x => Raise x
      | Ok _ => Ok exp_data
      end.
Proof.
  intros He Hk Hd Huniq Hvalid.
  pose proof (validation_complete _ _ _ _ Hvalid) as Hv.
  destruct Hvalid as (_ & _ & _ & (v & Hg & _)).
  unfold load_experimental_data. rewrite He, Hk, Hd.
  destruct (validate_experimental_data df e k d) as [ok errs].
  simpl in Hv. subst ok. cbn [negb].
  pose proof (renamed_labelled df e k d d v Huniq Hg) as Hl.
  unfold rename_label in Hl. rewrite String.eqb_refl in Hl.
  unfold add_dose_rate_Gy_min. rewrite Hl.
  destruct (has_column (rename df e k d) "dose_rate_Gy_min").
  - eexists. split; [reflexivity|]. split; reflexivity.
  - eexists. split; [reflexivity|]. split; [|reflexivity].
    apply labelled_app_other. reflexivity.
Qed.

(** The load of a valid data set in which the energy role has a column
    of its own. *)
Lemma load_succeeds df ec kc dc e k d :
  resolve_energy df ec = Ok e -> resolve_ks df kc = Ok k ->
  resolve_dose_rate df dc = Ok d ->
  unique_labels (rename df e k d) ->
  valid_dataset df e k d -> e <> k -> e <> d ->
  exists exp_data,
    load_experimental_data (Parsed df) ec kc dc = Ok exp_data /\
    add_dose_rate_Gy_min (rename df e k d) = Ok exp_data.
Proof.
  intros He Hk Hd Huniq Hvalid Hek Hed.
  destruct (load_after_validation df ec kc dc e k d He Hk Hd Huniq Hvalid)
    as (exp_data & Hadd & Hl & ->).
  destruct Hvalid as (_ & (v & Hg & _) & _).
  pose proof (renamed_labelled df e k d e v Huniq Hg) as Hle.
  unfold rename_label in Hle.
  apply String.eqb_neq in Hek, Hed. rewrite Hek, Hed in Hle.
  rewrite String.eqb_refl in Hle.
  unfold energies_message. rewrite Hl, Hle. eauto.
Qed.

Lemma add_dose_rate_getitem df exp_data l s :
  add_dose_rate_Gy_min df = Ok exp_data ->
  getitem df l = Some s -> getitem exp_data l = Some s.
Proof.
  intros H. apply add_dose_rate_inv in H.
  destruct H as [[_ ->]|(_ & s0 & s1 & _ & -> & _)]; [auto|].
  unfold getitem. cbn [columns]. apply lookup_app_l.
Qed.

Lemma renamed_getitem df e k d l s :
  unique_labels (rename df e k d) ->
  getitem df l = Some s ->
  getitem (rename df e k d) (rename_label e k d l) = Some s.
Proof.
  intros Huniq Hg. unfold getitem. apply NoDup_lookup; [exact Huniq|].
  unfold rename. simpl. apply in_map_iff.
  exists (l, s). split; [reflexivity|apply lookup_In; exact Hg].
Qed.

(* ===================================================================== *)
(** * Column resolution in the load *)
(* ===================================================================== *)

Lemma first_present_find df names c :
  first_present df names c -> find_column df names = Some c.
Proof.
  intros (pre & post & -> & Hc & Hpre).
  induction Hpre as [|n pre Hn _ IH]; simpl.
  - rewrite Hc. reflexivity.
  - rewrite Hn. exact IH.
Qed.

Lemma none_present_find df names :
  none_present df names -> find_column df names = None.
Proof.
  induction 1 as [|n names Hn _ IH]; simpl; [reflexivity|].
  rewrite Hn. exact IH.
Qed.

Lemma find_column_app df names names' :
  find_column df (names ++ names')
  = match find_column df names with
    | Some c => Some c
    | None => find_column df names'
    end.
Proof.
  induction names as [|n names IH]; simpl; [reflexivity|].
  destruct (has_column df n); [reflexivity|exact IH].
Qed.

Lemma chosen_energy df ec e :
  chosen df ec (REQUIRED_COLUMNS key_energy) e -> resolve_energy df ec = Ok e.
Proof.
  destruct ec as [x|]; simpl; [intros ->; reflexivity|].
  intros H. apply first_present_find in H. simpl in H. rewrite H.
  reflexivity.
Qed.

Lemma chosen_ks df kc k :
  chosen df kc (REQUIRED_COLUMNS key_ks) k -> resolve_ks df kc = Ok k.
Proof.
  destruct kc as [x|]; simpl; [intros ->; reflexivity|].
  intros H. apply first_present_find in H. simpl in H. rewrite H.
  reflexivity.
Qed.

Lemma chosen_dose_rate df dc d :
  chosen df dc dose_rate_aliases d -> resolve_dose_rate df dc = Ok d.
Proof.
  destruct dc as [x|]; [intros ->; reflexivity|].
  unfold chosen. intros H. apply first_present_find in H.
  unfold dose_rate_aliases in H. rewrite find_column_app in H.
  unfold resolve_dose_rate.
  destruct (find_column df (REQUIRED_COLUMNS key_dose_rate_air)) as [c|];
    [congruence|].
  rewrite H. reflexivity.
Qed.

(** C6. [find_column] returns the first name of the priority list that is
    a column of the frame, and [None] when no name is one.  In the load
    each role is given its configured name as it is, whether or not an
    alias table lists it and whatever aliases the file has, and without a
    configured name the first alias present; for the dose rate the air
    aliases come before the water aliases.  The load raises the
    column-not-found error of the first role, in the order energy, k_s,
    dose rate, that has no configured name and no alias in the file; for
    the dose rate the error names the six aliases.  With the three roles
    given their columns, the load raises the missing-columns validation
    error naming every such column that is not in the file (a configured
    name can be), raises the validation error with the messages about
    these three columns when they do not make a valid data set, and on
    a valid data set with three different columns returns a frame whose
    [Energy_MeV], [k_s] and [dose_rate_Gy_s] columns are the columns so
    chosen. *)
Theorem column_resolution (df : DataFrame) :
  (forall names,
      match find_column df names with
      | Some c => first_present df names c
      | None => none_present df names
      end) /\
  (forall ec kc dc,
      (ec = None -> none_present df (REQUIRED_COLUMNS key_energy) ->
       load_experimental_data (Parsed df) ec kc dc
       = Raise (ValueError_column_not_found "energy"
                  [ "Energy_MeV"; "energy_MeV"; "E_MeV"; "energy" ])) /\
      (forall e,
          chosen df ec (REQUIRED_COLUMNS key_energy) e ->
          kc = None -> none_present df (REQUIRED_COLUMNS key_ks) ->
          load_experimental_data (Parsed df) ec kc dc
          = Raise (ValueError_column_not_found "k_s"
                     [ "k_s"; "ks"; "recombination_factor";
                       "collection_efficiency" ])) /\
      (forall e k,
          chosen df ec (REQUIRED_COLUMNS key_energy) e ->
          chosen df kc (REQUIRED_COLUMNS key_ks) k ->
          dc = None ->
          none_present df (REQUIRED_COLUMNS key_dose_rate_air) ->
          none_present df (REQUIRED_COLUMNS key_dose_rate_water) ->
          load_experimental_data (Parsed df) ec kc dc
          = Raise (ValueError_column_not_found "dose rate"
                     [ "dose_rate_air_Gy_s"; "dose_rate_air";
                       "doserate_air_Gy_s"; "dose_rate_water_Gy_s";
                       "dose_rate_water"; "doserate_water_Gy_s" ])) /\
      (forall e k d,
          chosen df ec (REQUIRED_COLUMNS key_energy) e ->
          chosen df kc (REQUIRED_COLUMNS key_ks) k ->
          chosen df dc dose_rate_aliases d ->
          (forall c,
              In c [e; k; d] -> has_column df c = false ->
              In c (missing_columns df e k d) /\
              load_experimental_data (Parsed df) ec kc dc
              = Raise (ValueError_validation_failed
                         [Missing_required_columns
                            (missing_columns df e k d)])) /\
          (~ valid_dataset df e k d ->
           load_experimental_data (Parsed df) ec kc dc
           = Raise (ValueError_validation_failed
                      (snd (validate_experimental_data df e k d)))) /\
          (valid_dataset df e k d ->
           unique_labels (rename df e k d) ->
           e <> k -> e <> d -> k <> d ->
           exists exp_data,
             load_experimental_data (Parsed df) ec kc dc = Ok exp_data /\
             getitem exp_data "Energy_MeV" = getitem df e /\
             getitem exp_data "k_s" = getitem df k /\
             getitem exp_data "dose_rate_Gy_s" = getitem df d))).
Proof.
  split.
  { intros names. pose proof (find_column_spec df names) as H.
    destruct (find_column df names); exact H. }
  intros ec kc dc. split; [|split; [|split]].
  - intros -> Hnone. unfold load_experimental_data, resolve_energy.
    rewrite (none_present_find _ _ Hnone). reflexivity.
  - intros e He -> Hnone. unfold load_experimental_data.
    rewrite (chosen_energy _ _ _ He). unfold resolve_ks.
    rewrite (none_present_find _ _ Hnone). reflexivity.
  - intros e k He Hk -> Hair Hwater. unfold load_experimental_data.
    rewrite (chosen_energy _ _ _ He), (chosen_ks _ _ _ Hk).
    unfold resolve_dose_rate.
    rewrite (none_present_find _ _ Hair), (none_present_find _ _ Hwater).
    reflexivity.
  - intros e k d He Hk Hd.
    apply chosen_energy in He. apply chosen_ks in Hk.
    apply chosen_dose_rate in Hd. split; [|split].
    + intros c Hin Habs.
      assert (In c (missing_columns df e k d)) as Hm.
      { unfold missing_columns. apply filter_In. split; [exact Hin|].
        rewrite Habs. reflexivity. }
      split; [exact Hm|].
      apply (load_validation_failure df ec kc dc e k d); auto.
      apply validate_missing. intros Hnil. rewrite Hnil in Hm. inversion Hm.
    + intros Hinvalid.
      apply (load_validation_failure df ec kc dc e k d); auto.
      destruct (validate_experimental_data df e k d) as [ok errs] eqn:Hv.
      destruct ok; [|reflexivity].
      exfalso. apply Hinvalid. apply validation_sound. rewrite Hv.
      reflexivity.
    + intros Hvalid Huniq Hek Hed Hkd.
      destruct (load_succeeds df ec kc dc e k d He Hk Hd Huniq Hvalid
                  Hek Hed) as (exp_data & Hload & Hadd).
      exists exp_data. split; [exact Hload|].
      destruct Hvalid as (_ & (ve & Hge & _) & (vk & Hgk & _)
                          & (vd & Hgd & _)).
      apply String.eqb_neq in Hek, Hed, Hkd.
      pose proof (renamed_getitem df e k d e _ Huniq Hge) as He'.
      pose proof (renamed_getitem df e k d k _ Huniq Hgk) as Hk'.
      pose proof (renamed_getitem df e k d d _ Huniq Hgd) as Hd'.
      unfold rename_label in He', Hk', Hd'.
      rewrite Hed, Hek, String.eqb_refl in He'.
      rewrite Hkd, String.eqb_refl in Hk'.
      rewrite String.eqb_refl in Hd'.
      rewrite Hge, Hgk, Hgd.
      repeat split; eapply add_dose_rate_getitem; eauto.
Qed.

Lemma column_resolution_witness :
  exists exp_data,
    load_experimental_data (Parsed override_csv) (Some "E") None None
    = Ok exp_data /\
    getitem exp_data "Energy_MeV"
    = Some (NumSeries [F64.of_Z 5; F64.of_Z 6]) /\
    getitem exp_data "k_s"
    = Some (NumSeries [F64.of_ratio 9 10; F64.of_ratio 8 10]) /\
    getitem exp_data "dose_rate_Gy_s"
    = Some (NumSeries [F64.of_Z 1; F64.of_Z 2]).
Proof.
  destruct (proj2 (proj2 (proj2
              (proj2 (column_resolution override_csv)
                 (Some "E") None None)))
              "E" "ks" "dose_rate_air") as (_ & _ & H).
  - reflexivity.
  - exists ["k_s"], ["recombination_factor"; "collection_efficiency"].
    repeat split. repeat constructor.
  - exists ["dose_rate_air_Gy_s"],
      ["doserate_air_Gy_s"; "dose_rate_water_Gy_s"; "dose_rate_water";
       "doserate_water_Gy_s"].
    repeat split. repeat constructor.
  - apply H.
    + apply validation_sound. vm_compute. reflexivity.
    + unfold unique_labels. simpl.
      repeat (constructor; [simpl; intuition discriminate|]). constructor.
    + discriminate.
    + discriminate.
    + discriminate.
Defined.

(** X19. The outcome of a load once the three roles are resolved, the
    labels of the renamed file being unique.  On a file that is not a
    valid data set the load raises the validation error, with at least
    one message.  On a valid data set it returns a frame when the energy
    role has a column of its own; when the renamed file has no
    [Energy_MeV] column (the energy role shares its column with another
    role and the file has no column of that name), the last message of
    the loader raises [KeyError] although validation passed. *)
Theorem load_outcome (df : DataFrame) (ec kc dc : option string)
    (e k d : string)
    (He : resolve_energy df ec = Ok e)
    (Hk : resolve_ks df kc = Ok k)
    (Hd : resolve_dose_rate df dc = Ok d)
    (Huniq : unique_labels (rename df e k d)) :
  (~ valid_dataset df e k d ->
   exists errors,
     errors <> [] /\
     load_experimental_data (Parsed df) ec kc dc
     = Raise (ValueError_validation_failed errors)) /\
  (valid_dataset df e k d -> e <> k -> e <> d ->
   exists exp_data,
     load_experimental_data (Parsed df) ec kc dc = Ok exp_data) /\
  (valid_dataset df e k d ->
   has_column (rename df e k d) "Energy_MeV" = false ->
   load_experimental_data (Parsed df) ec kc dc
   = Raise (KeyError "Energy_MeV")).
Proof.
  pose proof (load_after_validation df ec kc dc e k d He Hk Hd Huniq)
    as Hadd.
  split; [|split].
  - intros Hinvalid.
    destruct (fst (validate_experimental_data df e k d)) eqn:Hv.
    + exfalso. apply Hinvalid. apply validation_sound. exact Hv.
    + pose proof (validate_false_errors _ _ _ _ Hv) as Hne.
      exists (snd (validate_experimental_data df e k d)).
      split; [exact Hne|].
      apply (load_validation_failure df ec kc dc e k d); auto.
      destruct (validate_experimental_data df e k d); simpl in *.
      subst. reflexivity.
  - intros Hvalid Hek Hed.
    destruct (Hadd Hvalid) as (exp_data & _ & Hl & ->).
    destruct Hvalid as (_ & (v & Hg & _) & _).
    pose proof (renamed_labelled df e k d e v Huniq Hg) as Hle.
    unfold rename_label in Hle.
    apply String.eqb_neq in Hek, Hed. rewrite Hek, Hed in Hle.
    rewrite String.eqb_refl in Hle.
    unfold energies_message. rewrite Hl, Hle. eauto.
  - intros Hvalid Hno.
    destruct (Hadd Hvalid) as (exp_data & _ & Hl & ->).
    unfold energies_message. rewrite Hl.
    destruct (labelled (rename df e k d) "Energy_MeV") as [|s0 rest] eqn:E;
      [reflexivity|].
    apply labelled_getitem, getitem_has_column in E. congruence.
Qed.

Lemma load_outcome_witness :
  (exists exp_data,
      load_experimental_data (Parsed two_energies_csv) None None None
      = Ok exp_data) /\
  load_experimental_data (Parsed shared_energy_csv) (Some "x") (Some "x")
    None
  = Raise (KeyError "Energy_MeV").
Proof.
  split.
  - apply (proj1 (proj2
             (load_outcome two_energies_csv None None None
                "Energy_MeV" "k_s" "dose_rate_air_Gy_s"
                eq_refl eq_refl eq_refl
                ltac:(unfold unique_labels; simpl;
                      repeat (constructor;
                              [simpl; intuition discriminate|]);
                      constructor)))).
    + apply validation_sound. vm_compute. reflexivity.
    + discriminate.
    + discriminate.
  - apply (proj2 (proj2
             (load_outcome shared_energy_csv (Some "x") (Some "x") None
                "x" "x" "dose_rate_air_Gy_s"
                eq_refl eq_refl eq_refl
                ltac:(unfold unique_labels; simpl;
                      repeat (constructor;
                              [simpl; intuition discriminate|]);
                      constructor)))).
    + apply validation_sound. vm_compute. reflexivity.
    + reflexivity.
Defined.

(** X20. The simulation calls of a whole run, both phases enabled and the
    initial phase returning, on data whose energies are not NaN: first
    one point-estimate call per distinct energy, in strictly ascending
    order of energy, then one stochastic call per row of the data, in
    row order; the base seed is the one the continuous phase determines
    in the world the run started in. *)
Theorem run_all_call_order
    (ks_initial_IonTracks : Init.kwargs -> result (list Init.result_row))
    (IonTracks_continuous_beam : Cont.kwargs -> result (list Cont.result_row))
    (randint : nat -> Z -> Z -> Z)
    (self : ComparisonRunner) (w : World)
    (col : list float64) (df : DataFrame)
    (Hinitial : compare_initial_recombination (config self) = true)
    (Hcontinuous : compare_continuous_beam (config self) = true)
    (Haligned : columns_aligned (exp_data self))
    (Hcol : numeric_column (exp_data self) "Energy_MeV" = Ok col)
    (Hna : Forall (fun x => F64.isna x = false) col)
    (Hok : snd (fst (run_initial_recombination ks_initial_IonTracks self w))
           = Ok df) :
  let cfg := simulation (config self) in
  let energies := sorted (unique col) in
  calls (snd (run_all ks_initial_IonTracks IonTracks_continuous_beam
                randint self w))
  = calls w
      ++ map (fun e => Call_initial (initial_kwargs cfg e)) energies
      ++ flat_map (row_calls cfg (base_seed randint cfg w))
           (iterrows (exp_data self)) /\
  ascending energies /\
  (forall x, In x energies -> In x col) /\
  (forall x, In x col -> exists y, In y energies /\ F64.eqb x y = true).
Proof.
  intros cfg energies. subst energies.
  split; [|apply sorted_unique_spec; exact Hna].
  assert (has_column (exp_data self) "Energy_MeV" = true) as Henergy.
  { unfold numeric_column in Hcol.
    destruct (getitem (exp_data self) "Energy_MeV") as [s|] eqn:Hg;
      [|discriminate].
    eapply getitem_has_column; eauto. }
  unfold run_all, bind. rewrite Hinitial.
  pose proof (run_initial_frame ks_initial_IonTracks self w) as Hfr.
  pose proof (run_initial_calls ks_initial_IonTracks self w col Hcol) as Hw.
  destruct (run_initial_recombination ks_initial_IonTracks self w)
    as [[s1 r1] w1].
  simpl in Hok, Hfr, Hw. subst r1 w1.
  destruct Hfr as (Hcfg & Hexp & _).
  unfold ret. cbn [fst snd]. cbv beta iota. rewrite Hcfg, Hcontinuous.
  match goal with
  | |- context [run_continuous_beam _ _ s1 ?w0] =>
      pose proof (run_calls IonTracks_continuous_beam randint s1 w0) as Hrun;
      rewrite (create_calls IonTracks_continuous_beam randint s1 w0)
        in Hrun;
      [destruct (run_continuous_beam IonTracks_continuous_beam randint
                   s1 w0) as [[s2 r2] w2]|]
  end.
  - simpl in Hrun |- *. rewrite Hrun, Hcfg, Hexp, <- app_assoc.
    reflexivity.
  - rewrite Hexp. apply iterrows_rows_have; assumption.
Qed.

Lemma run_all_call_order_witness :
  calls (snd (run_all stub_initial (stub_continuous [45%Z])
                lowest_draw (two_energies_runner (Some 42%Z))
                initial_world))
  = map (fun e => Call_initial
                    (initial_kwargs (default_simulation (Some 42%Z)) e))
      [F64.of_Z 10; F64.of_Z 20]
    ++ flat_map (row_calls (default_simulation (Some 42%Z)) 42%Z)
         (iterrows two_energies) /\
  call_seeds
    (calls (snd (run_all stub_initial (stub_continuous [45%Z])
                   lowest_draw (two_energies_runner (Some 42%Z))
                   initial_world)))
  = [42; 43; 44; 45; 46; 47]%Z.
Proof.
  pose (out := run_initial_recombination stub_initial
                 (two_energies_runner (Some 42%Z)) initial_world).
  assert (run_initial_recombination stub_initial
            (two_energies_runner (Some 42%Z)) initial_world = out) as E
    by reflexivity.
  vm_compute in out.
  destruct (run_all_call_order stub_initial (stub_continuous [45%Z])
              lowest_draw (two_energies_runner (Some 42%Z)) initial_world
              (map F64.of_Z [10; 10; 10; 20; 20; 20]%Z) _
              eq_refl eq_refl two_energies_aligned eq_refl
              ltac:(repeat constructor)
              (f_equal (fun p => snd (fst p)) E))
    as (Hcalls & _).
  rewrite Hcalls. split; vm_compute; reflexivity.
Defined.
